(** * X2J: Excel-to-JSON charging-run converter

    A shallow embedding of the transformation, mapping, aggregation and
    validation code of the repository (src/transformer.py, src/mapper.py,
    src/validator.py, src/utils.py) together with the properties that the
    design document states about it.

    Conventions of the embedding
    - Python [float] values are modelled by exact rationals [Q]; NaN and
      the infinities are outside the model.
    - Python [str] values are modelled by [string]; non-ASCII characters
      appear as their UTF-8 bytes and are never inspected.
    - A function that can raise returns [res A]: [Ok a] for a result,
      [Raise c msg] for an exception of class [c]. *)

From Stdlib Require Import ZArith QArith Qround Lia List Bool Ascii String.
From Stdlib Require Import DecimalString.
From Stdlib Require DecimalNat.
From Stdlib Require Import Sorting.Sorted Sorting.Permutation.
From Stdlib Require OrderedTypeEx.
From stdpp Require Import base option list strings gmap.

Set Warnings "-register-all".

Local Open Scope string_scope.
Local Open Scope Z_scope.

(** ** Exceptions *)

Inductive exn_class := TypeError | ValueError | KeyError | IndexError
  | AttributeError | OverflowError.

Inductive res (A : Type) := Ok (a : A) | Raise (c : exn_class) (msg : string).
Arguments Ok {A} a.
Arguments Raise {A} c msg.

Definition rbind {A B} (m : res A) (k : A -> res B) : res B :=
  match m with
  | Ok a => k a
  | Raise c msg => Raise c msg
  end.

Notation "'let*' x := m 'in' k" := (rbind m (fun x => k))
  (at level 10, x name, m at level 100, k at level 200).
Notation "'let*' ' p := m 'in' k" := (rbind m (fun x => match x with p => k end))
  (at level 10, p strict pattern, m at level 100, k at level 200).

(** [try: ... except Exception: d] *)
Definition try_except {A} (m : res A) (d : A) : A :=
  match m with Ok a => a | Raise _ _ => d end.

Definition is_ok {A} (m : res A) : bool :=
  match m with Ok _ => true | Raise _ _ => false end.

(** ** Strings *)

Module Str.

(** The ASCII code points for which [str.isspace] holds. *)
Definition is_space (c : ascii) : bool :=
  let n := nat_of_ascii c in
  ((9 <=? n) && (n <=? 13) || (28 <=? n) && (n <=? 32))%nat.

Fixpoint lstrip (s : string) : string :=
  match s with
  | EmptyString => EmptyString
  | String c s' => if is_space c then lstrip s' else s
  end.

(** [rstrip_by p] removes the longest suffix all of whose characters
    satisfy [p]. *)
Fixpoint rstrip_by (p : ascii -> bool) (s : string) : string :=
  match s with
  | EmptyString => EmptyString
  | String c s' =>
      match rstrip_by p s' with
      | EmptyString => if p c then EmptyString else String c EmptyString
      | t => String c t
      end
  end.

Definition rstrip := rstrip_by is_space.

(** [s.strip()] *)
Definition strip (s : string) : string := rstrip (lstrip s).

(** [s.rstrip(ch)] for a one-character argument *)
Definition rstrip_char (ch : ascii) := rstrip_by (Ascii.eqb ch).

Definition is_digit (c : ascii) : bool :=
  let n := nat_of_ascii c in ((48 <=? n) && (n <=? 57))%nat.

Definition digit_val (c : ascii) : Z := Z.of_nat (nat_of_ascii c) - 48.

Definition digit_char (d : Z) : ascii := ascii_of_nat (Z.to_nat (d + 48)).

(** Value of a run of decimal digits, most significant first; [None]
    when a character is not a digit. *)
Fixpoint digits_acc (acc : Z) (s : string) : option Z :=
  match s with
  | EmptyString => Some acc
  | String c s' =>
      if is_digit c then digits_acc (10 * acc + digit_val c) s' else None
  end.

Definition digits (s : string) : option Z :=
  match s with
  | EmptyString => None
  | _ => digits_acc 0 s
  end.

(** [n] printed on exactly [k] decimal digits (the [%0kd] format for
    [0 <= n < 10^k]). *)
Fixpoint pad (k : nat) (n : Z) : string :=
  match k with
  | O => EmptyString
  | S k' => pad k' (n / 10) ++ String (digit_char (n mod 10)) EmptyString
  end.

(** [str(n)] for a natural number *)
Definition of_nat (n : nat) : string :=
  NilEmpty.string_of_uint (Nat.to_uint n).

End Str.

(** ** Dates and times

    The model of the [datetime] library: naive date-times with the
    fields of the Python class.  Day arithmetic steps through the
    calendar one day at a time, which gives the same result as the
    library's ordinal arithmetic. *)

Module DT.

Record date := mkdate { year : Z; month : Z; day : Z }.

Record datetime := mkdt {
  dt_date : date; hour : Z; minute : Z; second : Z; microsecond : Z }.

Definition is_leap (y : Z) : bool :=
  (y mod 4 =? 0) && (negb (y mod 100 =? 0) || (y mod 400 =? 0)).

Definition days_in_month (y m : Z) : Z :=
  if m =? 2 then (if is_leap y then 29 else 28)
  else if (m =? 4) || (m =? 6) || (m =? 9) || (m =? 11) then 30
  else 31.

Definition valid_dateb (d : date) : bool :=
  (1 <=? year d) && (year d <=? 9999) && (1 <=? month d) && (month d <=? 12)
  && (1 <=? day d) && (day d <=? days_in_month (year d) (month d)).

Definition valid_timeb (h mi s us : Z) : bool :=
  (0 <=? h) && (h <=? 23) && (0 <=? mi) && (mi <=? 59)
  && (0 <=? s) && (s <=? 59) && (0 <=? us) && (us <=? 999999).

Definition validb (d : datetime) : bool :=
  valid_dateb (dt_date d)
  && valid_timeb (hour d) (minute d) (second d) (microsecond d).

Definition next_day (d : date) : date :=
  if day d <? days_in_month (year d) (month d)
  then mkdate (year d) (month d) (day d + 1)
  else if month d <? 12 then mkdate (year d) (month d + 1) 1
  else mkdate (year d + 1) 1 1.

Definition prev_day (d : date) : date :=
  if 1 <? day d then mkdate (year d) (month d) (day d - 1)
  else if 1 <? month d
       then mkdate (year d) (month d - 1) (days_in_month (year d) (month d - 1))
  else mkdate (year d - 1) 12 31.

(** [d + timedelta(days=n)] on dates, before the range check *)
Definition shift_days (n : Z) (d : date) : date :=
  match n with
  | Z0 => d
  | Zpos p => Pos.iter next_day d p
  | Zneg p => Pos.iter prev_day d p
  end.

(** Field-by-field comparison, as the library's [_cmp] on tuples. *)
Definition lex (c1 c2 : comparison) : comparison :=
  match c1 with Eq => c2 | _ => c1 end.

Definition date_compare (a b : date) : comparison :=
  lex (year a ?= year b) (lex (month a ?= month b) (day a ?= day b)).

Definition compare (a b : datetime) : comparison :=
  lex (date_compare (dt_date a) (dt_date b))
   (lex (hour a ?= hour b)
    (lex (minute a ?= minute b)
     (lex (second a ?= second b) (microsecond a ?= microsecond b)))).

Definition is_lt (c : comparison) : bool :=
  match c with Lt => true | _ => false end.
Definition is_gt (c : comparison) : bool :=
  match c with Gt => true | _ => false end.

(** [a < b] and [a > b] on dates *)
Definition date_ltb (a b : date) : bool := is_lt (date_compare a b).
Definition date_gtb (a b : date) : bool := is_gt (date_compare a b).

(** [a < b], [a > b], [a <= b], [a >= b] on date-times *)
Definition ltb (a b : datetime) : bool := is_lt (compare a b).
Definition gtb (a b : datetime) : bool := is_gt (compare a b).
Definition leb (a b : datetime) : bool := negb (is_gt (compare a b)).
Definition geb (a b : datetime) : bool := negb (is_lt (compare a b)).

Definition us_per_second : Z := 1000000.
Definition us_per_day : Z := 86400 * us_per_second.

Definition us_of_day (d : datetime) : Z :=
  ((hour d * 60 + minute d) * 60 + second d) * us_per_second + microsecond d.

Definition of_day_us (d : date) (us : Z) : datetime :=
  mkdt d (us / (3600 * us_per_second))
         (us / (60 * us_per_second) mod 60)
         (us / us_per_second mod 60)
         (us mod us_per_second).

(** [datetime.combine(d, datetime.max.time())] and
    [datetime.combine(d, datetime.min.time())] *)
Definition combine_max (d : date) : datetime := mkdt d 23 59 59 999999.
Definition combine_min (d : date) : datetime := mkdt d 0 0 0 0.

(** A [timedelta] is its total number of microseconds. *)
Definition timedelta := Z.

Definition td_days (n : Z) : timedelta := n * us_per_day.
Definition td_seconds (n : Z) : timedelta := n * us_per_second.

(** Rounding to the nearest integer, ties to even, as [timedelta] does
    for fractional arguments. *)
Definition round_half_even (q : Q) : Z :=
  let f := Qfloor q in
  match Qcompare (q - inject_Z f) (1 # 2) with
  | Lt => f
  | Gt => f + 1
  | Eq => if Z.even f then f else f + 1
  end.

(** [timedelta(minutes=q)], [timedelta(days=q)] for float arguments *)
Definition td_minutes_q (q : Q) : timedelta :=
  round_half_even (q * inject_Z (60 * us_per_second)).
Definition td_days_q (q : Q) : timedelta :=
  round_half_even (q * inject_Z us_per_day).

(** [d + delta]; [OverflowError] outside years 1..9999 *)
Definition add (d : datetime) (delta : timedelta) : res datetime :=
  let total := us_of_day d + delta in
  let d' := shift_days (total / us_per_day) (dt_date d) in
  if (1 <=? year d') && (year d' <=? 9999)
  then Ok (of_day_us d' (total mod us_per_day))
  else Raise OverflowError "date value out of range".

Definition sub (d : datetime) (delta : timedelta) : res datetime :=
  add d (- delta).

(** [dt.replace(microsecond=0)] *)
Definition replace_us0 (d : datetime) : datetime :=
  mkdt (dt_date d) (hour d) (minute d) (second d) 0.

Definition colon : string := ":".
Definition dash : string := "-".

Definition date_iso (d : date) : string :=
  Str.pad 4 (year d) ++ dash ++ Str.pad 2 (month d) ++ dash ++ Str.pad 2 (day d).

Definition time_iso_seconds (d : datetime) : string :=
  Str.pad 2 (hour d) ++ colon ++ Str.pad 2 (minute d) ++ colon
  ++ Str.pad 2 (second d).

(** [dt.isoformat(timespec="seconds")] *)
Definition isoformat_seconds (d : datetime) : string :=
  date_iso (dt_date d) ++ "T" ++ time_iso_seconds d.

(** [dt.isoformat()]: the fraction is printed only when it is not zero. *)
Definition isoformat (d : datetime) : string :=
  if microsecond d =? 0 then isoformat_seconds d
  else isoformat_seconds d ++ "." ++ Str.pad 6 (microsecond d).

(** *** Parsing *)

Fixpoint take_digits (k : nat) (acc : Z) (s : string) : option (Z * string) :=
  match k with
  | O => Some (acc, s)
  | S k' =>
      match s with
      | String c s' =>
          if Str.is_digit c then take_digits k' (10 * acc + Str.digit_val c) s'
          else None
      | EmptyString => None
      end
  end.

Definition expect (c : ascii) (s : string) : option string :=
  match s with
  | String c' s' => if Ascii.eqb c c' then Some s' else None
  | EmptyString => None
  end.

Definition parse_date (s : string) : option (date * string) :=
  '(y, s) ← take_digits 4 0 s;
  s ← expect "-" s;
  '(m, s) ← take_digits 2 0 s;
  s ← expect "-" s;
  '(d, s) ← take_digits 2 0 s;
  Some (mkdate y m d, s).

(** The fraction of a second: three or six digits. *)
Definition parse_fraction (s : string) : option Z :=
  match take_digits 6 0 s with
  | Some (us, EmptyString) => Some us
  | _ =>
      match take_digits 3 0 s with
      | Some (ms, EmptyString) => Some (ms * 1000)
      | _ => None
      end
  end.

(** [HH], [HH:MM], [HH:MM:SS], [HH:MM:SS.fff] or [HH:MM:SS.ffffff] *)
Definition parse_time (s : string) : option (Z * Z * Z * Z) :=
  '(h, s) ← take_digits 2 0 s;
  match s with
  | EmptyString => Some (h, 0, 0, 0)
  | _ =>
    s ← expect ":" s;
    '(mi, s) ← take_digits 2 0 s;
    match s with
    | EmptyString => Some (h, mi, 0, 0)
    | _ =>
      s ← expect ":" s;
      '(sec, s) ← take_digits 2 0 s;
      match s with
      | EmptyString => Some (h, mi, sec, 0)
      | _ =>
        s ← expect "." s;
        us ← parse_fraction s;
        Some (h, mi, sec, us)
      end
    end
  end.

Definition parse_datetime (s : string) : option datetime :=
  '(d, s) ← parse_date s;
  match s with
  | EmptyString => Some (combine_min d)
  | String _sep s =>
      '(h, mi, sec, us) ← parse_time s;
      Some (mkdt d h mi sec us)
  end.

(** [datetime.fromisoformat(s)] for the formats that [isoformat] emits
    for naive date-times.  Strings carrying a UTC offset are outside the
    model and are rejected here. *)
Definition fromisoformat (s : string) : res datetime :=
  match parse_datetime s with
  | Some d =>
      if validb d then Ok d
      else Raise ValueError "invalid isoformat string"
  | None => Raise ValueError "invalid isoformat string"
  end.

(** [date.fromisoformat(s)]: exactly [YYYY-MM-DD] *)
Definition date_fromisoformat (s : string) : res date :=
  match parse_date s with
  | Some (d, EmptyString) =>
      if valid_dateb d then Ok d
      else Raise ValueError "invalid isoformat string"
  | _ => Raise ValueError "invalid isoformat string"
  end.

End DT.

(** ** Python values

    The values that travel through records, templates and documents:
    the JSON-compatible subset of Python, plus date-times.  A [dict] is
    an association list in insertion order. *)

Inductive pyval :=
  | PNone
  | PBool (b : bool)
  | PInt (z : Z)
  | PFloat (q : Q)
  | PStr (s : string)
  | PDateTime (d : DT.datetime)
  | PList (l : list pyval)
  | PDict (d : list (string * pyval)).

Definition pydict := list (string * pyval).

(** [bool(v)] *)
Definition truthy (v : pyval) : bool :=
  match v with
  | PNone => false
  | PBool b => b
  | PInt z => negb (z =? 0)
  | PFloat q => negb (Qeq_bool q 0)
  | PStr s => negb (String.eqb s "")
  | PDateTime _ => true
  | PList l => match l with [] => false | _ => true end
  | PDict d => match d with [] => false | _ => true end
  end.

Module Dict.

(** [d.get(k)] as an option; [key in d] *)
Fixpoint get (d : pydict) (k : string) : option pyval :=
  match d with
  | [] => None
  | (k', v) :: d' => if String.eqb k k' then Some v else get d' k
  end.

Definition mem (d : pydict) (k : string) : bool :=
  match get d k with Some _ => true | None => false end.

(** [d.get(k, dflt)] *)
Definition get_default (d : pydict) (k : string) (dflt : pyval) : pyval :=
  match get d k with Some v => v | None => dflt end.

(** [d[k] = v]: an existing key keeps its position, a new key goes last. *)
Fixpoint set (d : pydict) (k : string) (v : pyval) : pydict :=
  match d with
  | [] => [(k, v)]
  | (k', v') :: d' =>
      if String.eqb k k' then (k', v) :: d' else (k', v') :: set d' k v
  end.

Fixpoint remove (d : pydict) (k : string) : pydict :=
  match d with
  | [] => []
  | (k', v') :: d' =>
      if String.eqb k k' then remove d' k else (k', v') :: remove d' k
  end.

End Dict.

(** *** Numeric conversions *)

Module Num.

(** Truncation toward zero, as [int(x)] for a float [x] *)
Definition trunc (q : Q) : Z :=
  if Qle_bool 0 q then Qfloor q else - Qfloor (- q).

Definition split_sign (s : string) : bool * string :=
  match s with
  | String "-" s' => (true, s')
  | String "+" s' => (false, s')
  | _ => (false, s)
  end.

(** [int(s)] for a string: optional blanks, optional sign, digits.
    Digit-group underscores are outside the model. *)
Definition parse_int (s : string) : option Z :=
  let '(neg, body) := split_sign (Str.strip s) in
  n ← Str.digits body;
  Some (if neg then - n else n).

Fixpoint split_dot (s : string) : string * option string :=
  match s with
  | EmptyString => (EmptyString, None)
  | String c s' =>
      if Ascii.eqb c "." then (EmptyString, Some s')
      else let '(a, b) := split_dot s' in (String c a, b)
  end.

Definition digits_or_zero (s : string) : option Z :=
  match s with
  | EmptyString => Some 0
  | _ => Str.digits s
  end.

(** [float(s)] for a string: optional blanks, optional sign, decimal
    digits with an optional fraction.  Exponents, [inf] and [nan] are
    outside the model. *)
Definition parse_float (s : string) : option Q :=
  let '(neg, body) := split_sign (Str.strip s) in
  q ← match split_dot body with
      | (ip, None) => z ← Str.digits ip; Some (inject_Z z)
      | (ip, Some fp) =>
          match ip, fp with
          | EmptyString, EmptyString => None
          | _, _ =>
              i ← digits_or_zero ip;
              f ← digits_or_zero fp;
              Some (inject_Z i
                    + Qmake f (Pos.pow 10 (Pos.of_nat (String.length fp))))%Q
          end
      end;
  Some (if neg then - q else q)%Q.

(** [float(v)] *)
Definition py_float (v : pyval) : res Q :=
  match v with
  | PBool b => Ok (if b then 1 else 0)%Q
  | PInt z => Ok (inject_Z z)
  | PFloat q => Ok q
  | PStr s =>
      match parse_float s with
      | Some q => Ok q
      | None => Raise ValueError "could not convert string to float"
      end
  | _ => Raise TypeError "float() argument must be a string or a real number"
  end.

(** [int(v)] *)
Definition py_int (v : pyval) : res Z :=
  match v with
  | PBool b => Ok (if b then 1 else 0)
  | PInt z => Ok z
  | PFloat q => Ok (trunc q)
  | PStr s =>
      match parse_int s with
      | Some z => Ok z
      | None => Raise ValueError "invalid literal for int() with base 10"
      end
  | _ => Raise TypeError "int() argument must be a string or a real number"
  end.

End Num.

(** ** Totally ordered column types

    [sort_values] and [groupby] need a comparison and an equality on the
    cells of a column.  The laws are those of a total order whose
    equivalence is equality, as for Python [str], [int] and timestamps. *)

Class Ord (A : Type) := {
  leb : A -> A -> bool;
  ord_eq_dec :: EqDecision A;
  leb_total : forall x y, leb x y = true \/ leb y x = true;
  leb_trans : forall x y z, leb x y = true -> leb y z = true -> leb x z = true;
  leb_antisym : forall x y, leb x y = true -> leb y x = true -> x = y
}.

(** ** Lookup tables

    [(projection, model) -> value], as built by [_load_donnees_camions],
    [_load_donnees_camions_conso] and [_load_donnees_camions_puissance]. *)

Abbreviation table := (gmap (Z * string) Q).

(** [tbl.get((projection, modele), 0.0)] *)
Definition table_get (tbl : table) (projection : Z) (modele : string) : Q :=
  default 0%Q (tbl !! (projection, modele)).

(** ** Row Enricher (src/transformer.py) *)

Section Transformer.

Context {K T : Type} `{OrdK : Ord K} `{OrdT : Ord T}.

(** One line of the data frame.  [idx] is the index label, distinct
    from line to line as in the [RangeIndex] that [pd.DataFrame(records)]
    gives; the two derived columns are absent ([None]) until they are
    computed. *)
Record row := mkrow {
  idx : nat;
  newIdVeh : K;
  hDep : T;
  tVeh : string;
  dist : pyval;
  prochain_service : option T;
  soc_retour : option Q
}.

Definition row_leb (a b : row) : bool :=
  if decide (newIdVeh a = newIdVeh b) then leb (hDep a) (hDep b)
  else leb (newIdVeh a) (newIdVeh b).

Fixpoint insert_row (x : row) (l : list row) : list row :=
  match l with
  | [] => [x]
  | y :: l' => if row_leb x y then x :: l else y :: insert_row x l'
  end.

(** [df.sort_values([vehicule_col, start_col])]: a stable sort on the
    pair of columns. *)
Definition sort_values (df : list row) : list row :=
  fold_right insert_row [] df.

Definition same_veh (a b : row) : bool :=
  bool_decide (newIdVeh a = newIdVeh b).

(** [groupby(vehicule_col, sort=False)[start_col].shift(-1)]: every
    line receives the [start_col] value of the next line of its group,
    in frame order; the last line of a group receives nothing. *)
Fixpoint group_shift (l : list row) : list (option T) :=
  match l with
  | [] => []
  | r :: rest => (hDep <$> List.find (same_veh r) rest) :: group_shift rest
  end.

Definition set_prochain (r : row) (v : option T) : row :=
  mkrow (idx r) (newIdVeh r) (hDep r) (tVeh r) (dist r) v (soc_retour r).

Definition add_next_service_time (df : list row) : list row :=
  let target := sort_values df in
  zip_with set_prochain target (group_shift target).

(** [max(x, 0)]: the second argument wins only when it is greater. *)
Definition max0 (x : Q) : Q := if Qlt_le_dec x 0 then 0%Q else x.

Definition delta_soc (conso_table capacity_table : table) (projection : Z)
    (r : row) : Q :=
  let modele := Str.strip (tVeh r) in
  let conso := table_get conso_table projection modele in
  let capacite := table_get capacity_table projection modele in
  let dist := try_except (Num.py_float (dist r)) 0%Q in
  if negb (Qeq_bool capacite 0) then ((conso * dist) / capacite * 100)%Q
  else 0%Q.

Definition set_soc (r : row) (v : Q) : row :=
  mkrow (idx r) (newIdVeh r) (hDep r) (tVeh r) (dist r)
        (prochain_service r) (Some v).

Definition compute_soc (df : list row) (conso_table : table) (soc_cible : Q)
    (projection : Z) (capacity_table : table) : list row :=
  let target := sort_values df in
  List.map
    (fun r =>
       set_soc r (max0 (soc_cible
                        - delta_soc conso_table capacity_table projection r)))
    target.

End Transformer.

Arguments row : clear implicits.
Arguments mkrow {K T}.

(** ** Date helpers (src/utils.py) *)

Definition EXCEL_EPOCH : DT.datetime := DT.combine_min (DT.mkdate 1899 12 30).

(** [excel_number_to_datetime(value)] *)
Definition excel_number_to_datetime (value : Q) : res DT.datetime :=
  DT.add EXCEL_EPOCH (DT.td_days_q value).

(** [parse_iso_datetime(value)]: a date-time is returned as it is, a
    string loses its trailing [Z]s and is parsed.  The [str()] of any
    other value is not an ISO date-time of the modelled grammar. *)
Definition parse_iso_datetime (value : pyval) : res DT.datetime :=
  match value with
  | PDateTime d => Ok d
  | PStr s => DT.fromisoformat (Str.rstrip_char "Z" s)
  | _ => Raise ValueError "invalid isoformat string"
  end.

(** [isoformat_z(dt)] *)
Definition isoformat_z (dt : DT.datetime) : string :=
  DT.isoformat_seconds (DT.replace_us0 dt) ++ "Z".

Fixpoint jour_vals (rows : list pydict) : list Q :=
  match rows with
  | [] => []
  | r :: rows' =>
      match Num.py_float (Dict.get_default r "jourDep" (PInt 0)) with
      | Ok v => v :: jour_vals rows'
      | Raise _ _ => jour_vals rows'
      end
  end.

Definition Qminimum (x : Q) (l : list Q) : Q :=
  fold_left (fun m v => if Qlt_le_dec v m then v else m) l x.
Definition Qmaximum (x : Q) (l : list Q) : Q :=
  fold_left (fun m v => if Qlt_le_dec m v then v else m) l x.

(** [jour_dep_bounds(path)], on the rows read from the file at [path] *)
Definition jour_dep_bounds (rows : list pydict)
  : res (DT.datetime * DT.datetime) :=
  match jour_vals rows with
  | [] => Ok (EXCEL_EPOCH, EXCEL_EPOCH)
  | v :: vs =>
      let* lo := excel_number_to_datetime (Qminimum v vs) in
      let* hi := excel_number_to_datetime (Qmaximum v vs) in
      Ok (lo, hi)
  end.

(** ** Validation (src/validator.py) *)

(** [validate_optim_dates(debut, fin, resultat_path=...)], on the rows
    of the file at [resultat_path] *)
Definition validate_optim_dates (debut fin : pyval) (rows : list pydict)
  : res unit :=
  let* '(min_jour, max_jour) := jour_dep_bounds rows in
  let _to_dt := fun value : pyval =>
    match value with
    | PDateTime d => Ok d
    | _ => parse_iso_datetime value
    end in
  let* debut_dt := _to_dt debut in
  let* fin_dt := _to_dt fin in
  if DT.geb debut_dt min_jour
  then Raise ValueError "debutOptim must be earlier than first jourDep"
  else if DT.leb fin_dt max_jour
  then Raise ValueError "finOptim must be later than last jourDep"
  else Ok tt.

Definition _is_iso_datetime (value : pyval) : bool :=
  match value with
  | PStr s =>
      if String.eqb s "" then true
      else is_ok (parse_iso_datetime value)
  | _ => false
  end.

Definition _is_iso_date (value : pyval) : bool :=
  match value with
  | PStr s => is_ok (DT.date_fromisoformat s)
  | _ => false
  end.

(** The classes that occur in schemas. *)
Inductive pytype := TStr | TInt | TFloat | TBool | TList | TDict.

Definition type_name (t : pytype) : string :=
  match t with
  | TStr => "str" | TInt => "int" | TFloat => "float"
  | TBool => "bool" | TList => "list" | TDict => "dict"
  end.

(** [isinstance(v, t)]; [bool] is a subclass of [int]. *)
Definition isinstance (v : pyval) (t : pytype) : bool :=
  match t, v with
  | TStr, PStr _ => true
  | TInt, PInt _ => true
  | TInt, PBool _ => true
  | TFloat, PFloat _ => true
  | TBool, PBool _ => true
  | TList, PList _ => true
  | TDict, PDict _ => true
  | _, _ => false
  end.

(** A schema node: a [dict], a [list], a class, a tuple of classes, a
    predicate, or anything else. *)
Inductive schema :=
  | SDict (entries : list (string * schema))
  | SList (elems : list schema)
  | SType (t : pytype)
  | STuple (ts : list pytype)
  | SCallable (f : pyval -> bool)
  | SOther.

(** [repr] of a tuple of classes *)
Definition class_repr (t : pytype) : string :=
  "<class '" ++ type_name t ++ "'>".

Fixpoint join_comma (l : list string) : string :=
  match l with
  | [] => ""
  | [x] => x
  | x :: l' => x ++ ", " ++ join_comma l'
  end.

Definition tuple_repr (ts : list pytype) : string :=
  match ts with
  | [t] => "(" ++ class_repr t ++ ",)"
  | _ => "(" ++ join_comma (List.map class_repr ts) ++ ")"
  end.

(** [s or 'value'] *)
Definition or_value (s : string) : string :=
  if String.eqb s "" then "value" else s.

Definition rstrip_dot : string -> string := Str.rstrip_char ".".

Fixpoint _validate (value : pyval) (sch : schema) (path : string)
  {struct sch} : res unit :=
  match sch with
  | SDict entries =>
      match value with
      | PDict d =>
          (fix loop (es : list (string * schema)) : res unit :=
             match es with
             | [] => Ok tt
             | (key, subschema) :: es' =>
                 match Dict.get d key with
                 | None => Raise ValueError ("Missing key " ++ path ++ key)
                 | Some v =>
                     let* _ := _validate v subschema (path ++ key ++ ".") in
                     loop es'
                 end
             end) entries
      | _ => Raise TypeError (or_value path ++ " must be an object")
      end
  | SList elems =>
      match value with
      | PList items =>
          match elems with
          | [subschema] =>
              (fix loop (idx : nat) (its : list pyval) : res unit :=
                 match its with
                 | [] => Ok tt
                 | item :: its' =>
                     let* _ := _validate item subschema
                                 (path ++ "[" ++ Str.of_nat idx ++ "].") in
                     loop (S idx) its'
                 end) O items
          | _ => Raise ValueError "schema list must contain a single element"
          end
      | _ => Raise TypeError (or_value (rstrip_dot path) ++ " must be a list")
      end
  | SType t =>
      if isinstance value t then Ok tt
      else Raise TypeError
             (rstrip_dot path ++ " must be of type " ++ type_name t)
  | STuple ts =>
      if existsb (isinstance value) ts then Ok tt
      else Raise TypeError
             (rstrip_dot path ++ " must be of type " ++ tuple_repr ts)
  | SCallable f =>
      if f value then Ok tt
      else Raise ValueError (rstrip_dot path ++ " has invalid value")
  | SOther => Raise TypeError "Unsupported schema element"
  end.

Definition xy_schema (ty : schema) : schema :=
  SList [SDict [("x", SType TInt); ("y", ty)]].

Definition int_or_float : schema := STuple [TInt; TFloat].

Definition SCHEMA : schema :=
  SDict [
    ("idRun", SType TStr);
    ("synthese", SList [SType TStr]);
    ("configuration", SDict [
       ("activationRendement", SType TStr);
       ("axeOptimDegrade", SList [SType TInt]);
       ("diminutionSOC", SType TInt);
       ("pasDeTemps", SType TInt);
       ("maximumExecTemps", SType TInt);
       ("debutOptim", SCallable _is_iso_datetime);
       ("finOptim", SCallable _is_iso_datetime)]);
    ("rapport", SDict [("url", SType TStr); ("resultUrl", SType TStr)]);
    ("sources", SList [SDict [
       ("id", SType TStr);
       ("libelle", SType TStr);
       ("pMax", SList [SType TInt]);
       ("tranches", SList [SDict [
          ("id", SType TStr);
          ("cout", int_or_float);
          ("dateDebut", SCallable _is_iso_date);
          ("dateFin", SCallable _is_iso_date);
          ("heureTranche",
             SList [SDict [("debut", SType TInt); ("fin", SType TInt)]])]]);
       ("transformateurs", SList [SDict [
          ("id", SType TStr);
          ("libelle", SType TStr);
          ("etat", SType TStr);
          ("rendement", xy_schema int_or_float);
          ("facteurPuissance", int_or_float);
          ("pMax", SType TInt);
          ("chargeurs", SList [SDict [
             ("id", SType TStr);
             ("libelle", SType TStr);
             ("etat", SType TStr);
             ("pMax", SType TInt);
             ("typeChargeur", SType TStr);
             ("mutualisation", SDict [
                ("nombrePrises", SType TInt);
                ("configsMutualisation",
                   SList [SDict [("configMutualisation",
                                  SList [SType TInt])]])]);
             ("rendement", xy_schema int_or_float);
             ("prises", SList [SDict [
                ("id", SType TStr);
                ("libelle", SType TStr);
                ("etat", SType TStr);
                ("typePrise", SType TStr);
                ("pMax", SType TInt)]])]])]])]]);
    ("vehicules", SList [SDict [
       ("id", SType TStr);
       ("capaciteBatterie", SType TInt);
       ("idPrise", SType TStr);
       ("libelle", SType TStr);
       ("modeBoost", SType TInt);
       ("typeChargeur", SList [SDict [("modeleChargeur", SType TStr)]]);
       ("typePrise", SType TStr);
       ("profilBatterie", xy_schema (SType TInt));
       ("soc", SType TInt);
       ("socCible", SType TInt);
       ("dureeService", SType TInt);
       ("finService", SCallable _is_iso_datetime);
       ("debutService", SCallable _is_iso_datetime)]])
  ].

(** [validate_json(data)] *)
Definition validate_json (data : pyval) : res unit :=
  _validate data SCHEMA "".

(** ** Operations on Python values *)

(** [obj[key] = v] for a string key *)
Definition setitem (obj : pyval) (key : string) (v : pyval) : res pyval :=
  match obj with
  | PDict d => Ok (PDict (Dict.set d key v))
  | PList _ => Raise TypeError "list indices must be integers or slices"
  | _ => Raise TypeError "object does not support item assignment"
  end.

(** [obj[key]] for a string key *)
Definition getitem (obj : pyval) (key : string) : res pyval :=
  match obj with
  | PDict d =>
      match Dict.get d key with
      | Some v => Ok v
      | None => Raise KeyError key
      end
  | PList _ | PStr _ => Raise TypeError "indices must be integers or slices"
  | _ => Raise TypeError "object is not subscriptable"
  end.

(** [obj.get(key, dflt)] *)
Definition py_get (obj : pyval) (key : string) (dflt : pyval) : res pyval :=
  match obj with
  | PDict d => Ok (Dict.get_default d key dflt)
  | _ => Raise AttributeError "object has no attribute 'get'"
  end.

Definition char_str (c : ascii) : pyval := PStr (String c EmptyString).

(** [obj[0]] *)
Definition getitem0 (obj : pyval) : res pyval :=
  match obj with
  | PList (x :: _) => Ok x
  | PList [] => Raise IndexError "list index out of range"
  | PStr (String c _) => Ok (char_str c)
  | PStr EmptyString => Raise IndexError "string index out of range"
  | PDict _ => Raise KeyError "0"
  | _ => Raise TypeError "object is not subscriptable"
  end.

(** [obj[0] = v] *)
Definition setitem0 (obj : pyval) (v : pyval) : res pyval :=
  match obj with
  | PList (_ :: l) => Ok (PList (v :: l))
  | PList [] => Raise IndexError "list assignment index out of range"
  | _ => Raise TypeError "object does not support item assignment"
  end.

Fixpoint chars (s : string) : list pyval :=
  match s with
  | EmptyString => []
  | String c s' => char_str c :: chars s'
  end.

(** The elements that [for x in obj] visits. *)
Definition py_iter (obj : pyval) : res (list pyval) :=
  match obj with
  | PList l => Ok l
  | PStr s => Ok (chars s)
  | PDict d => Ok (List.map (fun kv => PStr (fst kv)) d)
  | _ => Raise TypeError "object is not iterable"
  end.

Fixpoint mapM {A B} (f : A -> res B) (l : list A) : res (list B) :=
  match l with
  | [] => Ok []
  | x :: l' =>
      let* y := f x in
      let* ys := mapM f l' in
      Ok (y :: ys)
  end.

(** ** Record Mapper (src/mapper.py) *)

(** The keyword arguments of [map_record]. *)
Record params := mkparams {
  projection : Z;
  marge_securite : Z;
  marge_prechauffage : Z;
  soc_cible : Q;
  activation_rendement : option string;
  diminution_soc : option Q;
  pas_de_temps : option Z;
  maximum_exec_temps : Z;
  start_dt : pyval;
  end_dt : pyval;
  temps_chargement : option Z;
  temps_dechargement : option Z;
  axe_optim_degrade : option (list Z);
  choix_optim : pyval;
  default_debut_service : pyval
}.

(** What [map_record] obtains from files and libraries: the three
    lookup tables and the battery profile of the data directory, the
    rows of the result file, the loaded infrastructure description
    ([None] without a path or when loading fails), the two draws of
    [random.choice], and the library functions [json.dumps] and [str]
    on values that are not strings. *)
Record env := mkenv {
  capacities : table;
  powers : table;
  consos : table;
  battery_profile : list (Z * Z);
  resultat_rows : list pydict;
  infra : option pyval;
  draw_charger : nat;
  draw_prise : nat;
  json_dumps : pyval -> string;
  py_repr : pyval -> string
}.

Definition is_none (v : pyval) : bool :=
  match v with PNone => true | _ => false end.

(** [str(v)] *)
Definition py_str (E : env) (v : pyval) : string :=
  match v with
  | PStr s => s
  | PNone => "None"
  | PBool true => "True"
  | PBool false => "False"
  | PInt z =>
      if z <? 0 then "-" ++ Str.of_nat (Z.to_nat (- z))
      else Str.of_nat (Z.to_nat z)
  | _ => py_repr E v
  end.

(** [x or 0] for an optional integer argument *)
Definition or0 (x : option Z) : Z :=
  match x with Some z => z | None => 0 end.

(** The rounding of the microseconds in the [debutOptim] branch. *)
Definition round_to_second (d : DT.datetime) : res DT.datetime :=
  let* d := (if 500000 <=? DT.microsecond d
             then DT.add d (DT.td_seconds 1) else Ok d) in
  Ok (DT.replace_us0 d).

(** The value stored in [configuration["debutOptim"]] when [start_dt] is
    not [None]. *)
Definition debutOptim_value (min_jour : DT.datetime) (start : pyval)
  : res string :=
  let* debut_dt := parse_iso_datetime start in
  let* shifted := DT.sub min_jour (DT.td_days 3) in
  let bound := DT.dt_date shifted in
  let debut_dt :=
    if DT.date_ltb (DT.dt_date debut_dt) bound
    then DT.combine_max bound else debut_dt in
  let* debut_dt := round_to_second debut_dt in
  Ok (isoformat_z debut_dt).

(** The value stored in [configuration["finOptim"]] when [end_dt] is not
    [None]. *)
Definition finOptim_value (max_jour : DT.datetime) (end_ : pyval)
  : res string :=
  let* fin_dt := parse_iso_datetime end_ in
  let* shifted := DT.add max_jour (DT.td_days 3) in
  let bound := DT.dt_date shifted in
  let fin_dt :=
    if DT.date_gtb (DT.dt_date fin_dt) bound
    then DT.combine_min bound else fin_dt in
  Ok (isoformat_z fin_dt).

(** The local function [_dt] of [map_record] *)
Definition _dt (value : option pyval) : option DT.datetime :=
  match value with
  | None | Some PNone | Some (PStr EmptyString) => None
  | Some (PDateTime d) => Some d
  | Some v =>
      let iso := match v with
                 | PStr s => DT.fromisoformat s
                 | _ => Raise ValueError "invalid isoformat string"
                 end in
      match iso with
      | Ok d => Some d
      | Raise _ _ =>
          match (let* x := Num.py_float v in excel_number_to_datetime x) with
          | Ok d => Some d
          | Raise _ _ => None
          end
      end
  end.

(** The value stored in [vehicule["soc"]] *)
Definition soc_value (record : pydict) : Z :=
  try_except
    (Num.py_int
       (Dict.get_default record "soc_retour"
          (Dict.get_default record "soc" (PInt 0))))
    0.

Definition socCible_value (record : pydict) (soc_cible : Q) : Z :=
  try_except
    (Num.py_int (Dict.get_default record "socCible" (PFloat soc_cible)))
    (Num.trunc soc_cible).

(** [x or 0] for a value of the record *)
Definition val_or0 (v : option pyval) : pyval :=
  match v with
  | Some x => if truthy x then x else PInt 0
  | None => PInt 0
  end.

(** The value stored in [vehicule["debutService"]], or [None] when the
    field is left as the template has it. *)
Definition debutService_value (record : pydict) (configuration : pyval)
    (temps_chargement : option Z) (default_debut_service : pyval)
  : res (option string) :=
  let next_service := _dt (Dict.get record "Heure Prochain Service") in
  let temps_charg := or0 temps_chargement in
  let marge_sec := val_or0 (Dict.get record "MargeSécurité") in
  match next_service with
  | Some next =>
      let* m := Num.py_float marge_sec in
      let* debut_service :=
        DT.sub next (DT.td_minutes_q (inject_Z temps_charg + m)) in
      Ok (Some (isoformat_z debut_service))
  | None =>
      if is_none default_debut_service then Ok None
      else
        let* fin := getitem configuration "finOptim" in
        let* fin_dt := parse_iso_datetime fin in
        let* d := DT.add fin_dt (DT.td_days_q (3 # 2)) in
        let ds_val := DT.isoformat d in
        match parse_iso_datetime (PStr ds_val) with
        | Ok d' => Ok (Some (isoformat_z d'))
        | Raise _ _ => Ok (Some ds_val)
        end
  end.

(** [f"{n:02d}"] *)
Definition fmt02d (n : Z) : string :=
  if n <? 0 then "-" ++ Str.of_nat (Z.to_nat (- n))
  else if n <? 10 then "0" ++ Str.of_nat (Z.to_nat n)
  else Str.of_nat (Z.to_nat n).

(** Minutes as [HH:MM], through [divmod(int(m), 60)] *)
Definition hhmm (m : Z) : string :=
  fmt02d (m / 60) ++ ":" ++ fmt02d (m mod 60).

(** [round(q, 2)] *)
Definition round2 (q : Q) : Q :=
  Qmake (DT.round_half_even (q * 100)) 100.

(** [(record.get("tVeh") or "").strip()] *)
Definition tveh_of (record : pydict) : res string :=
  match Dict.get record "tVeh" with
  | Some v =>
      if truthy v then
        match v with
        | PStr s => Ok (Str.strip s)
        | _ => Raise AttributeError "object has no attribute 'strip'"
        end
      else Ok ""
  | None => Ok ""
  end.

(** [str(record.get("newIdVeh", "")).strip() or None] *)
Definition new_id_of (E : env) (record : pydict) : option string :=
  let s := Str.strip (py_str E (Dict.get_default record "newIdVeh" (PStr ""))) in
  if String.eqb s "" then None else Some s.

(** The chargers of the infrastructure that have at least one plug, in
    document order. *)
Definition flatten_chargers (infra : pyval) : res (list pyval) :=
  let* srcs := py_get infra "sources" (PList []) in
  let* srcs := py_iter srcs in
  let* per_src :=
    mapM (fun src =>
      let* ts := py_get src "transformateurs" (PList []) in
      let* ts := py_iter ts in
      let* per_t :=
        mapM (fun trans =>
          let* cs := py_get trans "chargeurs" (PList []) in
          let* cs := py_iter cs in
          let* keep :=
            mapM (fun ch =>
              let* ps := py_get ch "prises" PNone in
              Ok (if truthy ps then [ch] else [])) cs in
          Ok (concat keep)) ts in
      Ok (concat per_t)) srcs in
  Ok (concat per_src).

(** [random.choice(seq)], with the draw given *)
Definition choice (draw : nat) (seq : pyval) : res pyval :=
  match seq with
  | PList (x :: l) => Ok (nth (draw mod (S (length l))) (x :: l) x)
  | PList [] => Raise IndexError "Cannot choose from an empty sequence"
  | PStr (String c s) =>
      Ok (nth (draw mod (S (String.length s))) (chars (String c s)) (char_str c))
  | PStr EmptyString => Raise IndexError "Cannot choose from an empty sequence"
  | PDict _ => Raise KeyError "random index"
  | _ => Raise TypeError "object has no len()"
  end.

(** The plug assignment of the vehicle block *)
Definition assign_prise (E : env) (new_id : option string) (vehicule : pyval)
  : res pyval :=
  let* vehicule := setitem vehicule "idPrise" (PStr "") in
  match infra E with
  | Some inf =>
      let* chargers := flatten_chargers inf in
      match chargers with
      | [] => Ok vehicule
      | _ =>
          let* charger := choice (draw_charger E) (PList chargers) in
          let* prises := py_get charger "prises" (PList []) in
          let* prise := choice (draw_prise E) prises in
          let* pid := py_get prise "id" (PStr "") in
          let* vehicule := setitem vehicule "idPrise" pid in
          let* modele := py_get charger "typeChargeur" PNone in
          let* vehicule :=
            (if truthy modele then
               let* tc := getitem vehicule "typeChargeur" in
               let* tc0 := getitem0 tc in
               let* tc0 := setitem tc0 "modeleChargeur"
                             (PStr (py_str E modele)) in
               let* tc := setitem0 tc tc0 in
               setitem vehicule "typeChargeur" tc
             else Ok vehicule) in
          let* cur := getitem vehicule "typePrise" in
          let* tp := py_get prise "typePrise" cur in
          setitem vehicule "typePrise" (PStr (py_str E tp))
      end
  | None =>
      match new_id with
      | Some id => setitem vehicule "idPrise" (PStr ("TR1_CH_" ++ id ++ "_P1"))
      | None => Ok vehicule
      end
  end.

Definition point (xy : Z * Z) : pyval :=
  PDict [("x", PInt (fst xy)); ("y", PInt (snd xy))].

(** The battery profile, scaled to the charging power of the model *)
Definition profile_value (E : env) (proj : Z) (tveh : string) : pyval :=
  let profile := battery_profile E in
  match powers E !! (proj, tveh), profile with
  | Some power, p :: ps =>
      let max_y := fold_left Z.max (List.map snd ps) (snd p) in
      if negb (max_y =? 0) then
        let alpha := (power / inject_Z max_y)%Q in
        PList (List.map
                 (fun xy => point (fst xy, Num.trunc (alpha * inject_Z (snd xy))))
                 profile)
      else PList (List.map point profile)
  | _, _ => PList (List.map point profile)
  end.

Definition opt_str (o : option string) : string :=
  match o with Some s => s | None => "None" end.

(** [map_record(record, template=template, ...)].  [deepcopy] is the
    identity on values; what it means for the store is the subject of
    the store-level model below. *)
Definition map_record (E : env) (record : pydict) (template : pyval)
    (P : params) : res pyval :=
  let data := template in
  let* data := setitem data "choix_optim" (choix_optim P) in
  (* configuration *)
  let* config_template := py_get template "configuration" PNone in
  let configuration := config_template in
  let* configuration :=
    match activation_rendement P with
    | Some s => setitem configuration "activationRendement" (PStr s)
    | None => Ok configuration
    end in
  let* configuration :=
    setitem configuration "axeOptimDegrade"
      (match axe_optim_degrade P with
       | None => PList [PInt 1; PInt 2; PInt 3]
       | Some l => PList (List.map PInt l)
       end) in
  let* configuration :=
    match diminution_soc P with
    | Some q => setitem configuration "diminutionSOC" (PInt (Num.trunc q))
    | None => Ok configuration
    end in
  let* configuration :=
    match pas_de_temps P with
    | Some z => setitem configuration "pasDeTemps" (PInt z)
    | None => Ok configuration
    end in
  let* configuration :=
    setitem configuration "maximumExecTemps" (PInt (maximum_exec_temps P)) in
  let* '(min_jour, max_jour) := jour_dep_bounds (resultat_rows E) in
  let* configuration :=
    (if is_none (start_dt P) then Ok configuration
     else let* s := debutOptim_value min_jour (start_dt P) in
          setitem configuration "debutOptim" (PStr s)) in
  let* configuration :=
    (if is_none (end_dt P) then Ok configuration
     else let* s := finOptim_value max_jour (end_dt P) in
          setitem configuration "finOptim" (PStr s)) in
  let* data := setitem data "configuration" configuration in
  (* sources *)
  let* srcs :=
    match infra E with
    | Some inf => py_get inf "sources" (PList [])
    | None => Ok (PList [])
    end in
  let* data := setitem data "sources" srcs in
  (* vehicules *)
  let* vehs := py_get template "vehicules" (PList [PDict []]) in
  let* veh_template := getitem0 vehs in
  let vehicule := veh_template in
  let new_id := new_id_of E record in
  let* tveh := tveh_of record in
  let* vehicule :=
    setitem vehicule "capaciteBatterie"
      (PInt (Num.trunc (table_get (capacities E) (projection P) tveh))) in
  let* vehicule := assign_prise E new_id vehicule in
  let* vehicule := setitem vehicule "modeBoost" (PInt 0) in
  let* vehicule :=
    setitem vehicule "profilBatterie" (profile_value E (projection P) tveh) in
  let* vehicule := setitem vehicule "soc" (PInt (soc_value record)) in
  let* vehicule :=
    setitem vehicule "socCible" (PInt (socCible_value record (soc_cible P))) in
  let h_fin := _dt (Dict.get record "hFin") in
  let* vehicule :=
    match Num.py_int (Dict.get_default record "dist" PNone) with
    | Ok dist_val => setitem vehicule "dureeService" (PInt dist_val)
    | Raise _ _ => Ok vehicule
    end in
  let temp_decharg := or0 (temps_dechargement P) in
  let* vehicule :=
    match h_fin with
    | Some h =>
        let* fin_service := DT.add h (DT.td_minutes_q (inject_Z temp_decharg)) in
        setitem vehicule "finService" (PStr (isoformat_z fin_service))
    | None => setitem vehicule "finService" (PStr "")
    end in
  let* ds :=
    debutService_value record configuration (temps_chargement P)
      (default_debut_service P) in
  let* vehicule :=
    match ds with
    | Some s => setitem vehicule "debutService" (PStr s)
    | None => Ok vehicule
    end in
  let conso_value := table_get (consos E) (projection P) tveh in
  let marge_securite_hhmm := hhmm (marge_securite P) in
  let marge_prechauffage_hhmm := hhmm (marge_prechauffage P) in
  let* vehicule :=
    match new_id with
    | Some id => setitem vehicule "id" (PStr id)
    | None => Ok vehicule
    end in
  let* cur_debut := py_get vehicule "debutService" (PStr "") in
  let* vehicule :=
    setitem vehicule "libelle"
      (PStr (json_dumps E (PDict [
         ("numeroExploitation", PStr (opt_str new_id));
         ("debutService", cur_debut);
         ("MargeSecurite", PStr marge_securite_hhmm);
         ("MargePrechauffage", PStr marge_prechauffage_hhmm);
         ("Conso", PFloat (round2 conso_value))]))) in
  setitem data "vehicules" (PList [vehicule]).

(** *** The built-in template *)

Definition rendement_points (y : Q) : pyval :=
  PList (List.map
           (fun x => PDict [("x", PInt x); ("y", PFloat y)])
           [10; 20; 30; 40; 50; 60; 70; 80; 90; 100]).

Definition DEFAULT_TEMPLATE : pyval :=
  PDict [
    ("idRun", PStr "01234567891011");
    ("choix_optim", PStr "");
    ("synthese", PList []);
    ("configuration", PDict [
       ("activationRendement", PStr "false");
       ("axeOptimDegrade", PList []);
       ("diminutionSOC", PInt 0);
       ("pasDeTemps", PInt 0);
       ("maximumExecTemps", PInt 0);
       ("debutOptim", PStr "2000-01-01T00:00:00");
       ("finOptim", PStr "2050-01-01T01:00:00")]);
    ("rapport", PDict [
       ("url", PStr "http://example.com");
       ("resultUrl", PStr "http://example.com/result")]);
    ("sources", PList [PDict [
       ("id", PStr "");
       ("libelle", PStr "");
       ("pMax", PList []);
       ("tranches", PList [PDict [
          ("id", PStr "");
          ("cout", PFloat 0);
          ("dateDebut", PStr "");
          ("dateFin", PStr "");
          ("heureTranche",
             PList [PDict [("debut", PInt 0); ("fin", PInt 1)]])]]);
       ("transformateurs", PList [PDict [
          ("id", PStr "");
          ("libelle", PStr "");
          ("etat", PStr "");
          ("rendement", rendement_points (9 # 10));
          ("facteurPuissance", PInt 0);
          ("pMax", PInt 0);
          ("chargeurs", PList [PDict [
             ("id", PStr "");
             ("libelle", PStr "");
             ("etat", PStr "");
             ("pMax", PInt 0);
             ("typeChargeur", PStr "TypeChargeur_valeur");
             ("mutualisation", PDict [
                ("nombrePrises", PInt 0);
                ("configsMutualisation",
                   PList [PDict [("configMutualisation",
                                  PList [PInt 100])]])]);
             ("rendement", rendement_points (94 # 100));
             ("prises", PList [PDict [
                ("id", PStr "");
                ("libelle", PStr "");
                ("etat", PStr "");
                ("typePrise", PStr "");
                ("pMax", PInt 0)]])]])]])]]);
    ("vehicules", PList [PDict [
       ("id", PStr "");
       ("capaciteBatterie", PFloat 0);
       ("idPrise", PStr "");
       ("libelle", PStr "");
       ("modeBoost", PInt 0);
       ("typeChargeur",
          PList [PDict [("modeleChargeur", PStr "TypeChargeur_valeur")]]);
       ("typePrise", PStr "CCS COMBO2");
       ("profilBatterie", PList []);
       ("soc", PFloat 0);
       ("socCible", PFloat 0);
       ("dureeService", PInt 0);
       ("finService", PStr "");
       ("debutService", PStr "")]])
  ].

(** [_load_template()] *)
Definition _load_template : pyval := DEFAULT_TEMPLATE.

(** ** Aggregator (src/mapper.py) *)

(** [hash(v)] exists *)
Definition hashable (v : pyval) : bool :=
  match v with PList _ | PDict _ => false | _ => true end.

Definition as_number (v : pyval) : option Q :=
  match v with
  | PBool b => Some (if b then 1 else 0)%Q
  | PInt z => Some (inject_Z z)
  | PFloat q => Some q
  | _ => None
  end.

(** [a == b] on hashable values; numbers compare by value. *)
Definition key_eqb (a b : pyval) : bool :=
  match as_number a, as_number b with
  | Some x, Some y => Qeq_bool x y
  | None, None =>
      match a, b with
      | PNone, PNone => true
      | PStr s, PStr t => String.eqb s t
      | PDateTime d, PDateTime e =>
          match DT.compare d e with Eq => true | _ => false end
      | _, _ => false
      end
  | _, _ => false
  end.

(** The state of the loop of [aggregate_results] *)
Record agg_state := mkagg {
  agg_vehicules : list pyval;
  agg_chargeurs : list pyval;
  agg_seen : list pyval
}.

(** The inner loop over one charger list *)
Fixpoint collect_chargeurs (chs : list pyval) (st : agg_state)
  : res agg_state :=
  match chs with
  | [] => Ok st
  | ch :: chs' =>
      let* ch_id := py_get ch "id" PNone in
      if truthy ch_id then
        if hashable ch_id then
          if existsb (key_eqb ch_id) (agg_seen st)
          then collect_chargeurs chs' st
          else collect_chargeurs chs'
                 (mkagg (agg_vehicules st) (agg_chargeurs st ++ [ch])
                        (agg_seen st ++ [ch_id]))
        else Raise TypeError "unhashable type"
      else collect_chargeurs chs' st
  end.

(** The charger list on the first source, first transformer path of
    one document; [None] where the loop says [continue]. *)
Definition first_path_chargeurs (item : pyval) : res (option pyval) :=
  let* src := py_get item "sources" PNone in
  if negb (truthy src) then Ok None else
  let* src0 := getitem0 src in
  let* trans := py_get src0 "transformateurs" PNone in
  if negb (truthy trans) then Ok None else
  let* trans0 := getitem0 trans in
  let* ch_list := py_get trans0 "chargeurs" PNone in
  if negb (truthy ch_list) then Ok None else Ok (Some ch_list).

(** One turn of the outer loop *)
Definition agg_step (item : pyval) (st : agg_state) : res agg_state :=
  let* vs := py_get item "vehicules" (PList []) in
  let* vs := py_iter vs in
  let st := mkagg (agg_vehicules st ++ vs) (agg_chargeurs st) (agg_seen st) in
  let* ch_list := first_path_chargeurs item in
  match ch_list with
  | None => Ok st
  | Some l =>
      let* chs := py_iter l in
      collect_chargeurs chs st
  end.

Fixpoint agg_loop (items : list pyval) (st : agg_state) : res agg_state :=
  match items with
  | [] => Ok st
  | item :: items' =>
      let* st := agg_step item st in
      agg_loop items' st
  end.

(** [merged["sources"][0]["transformateurs"][0]["chargeurs"] = chargeurs] *)
Definition set_first_path (merged : pyval) (chargeurs : list pyval)
  : res pyval :=
  let* srcs := getitem merged "sources" in
  let* src0 := getitem0 srcs in
  let* trans := getitem src0 "transformateurs" in
  let* trans0 := getitem0 trans in
  let* trans0 := setitem trans0 "chargeurs" (PList chargeurs) in
  let* trans := setitem0 trans trans0 in
  let* src0 := setitem src0 "transformateurs" trans in
  let* srcs := setitem0 srcs src0 in
  setitem merged "sources" srcs.

(** [aggregate_results(results)] *)
Definition aggregate_results (results : list pyval) : res pyval :=
  match results with
  | [] => Ok (PDict [])
  | first :: _ =>
      let merged := first in
      let* merged := setitem merged "vehicules" (PList []) in
      let* st := agg_loop results (mkagg [] [] []) in
      let* merged := setitem merged "vehicules" (PList (agg_vehicules st)) in
      let* srcs := py_get merged "sources" PNone in
      if truthy srcs then set_first_path merged (agg_chargeurs st)
      else Ok merged
  end.

(** * The store-level model

    Lists and dictionaries are objects in a store and values refer to
    them; [deepcopy] allocates, item assignment writes in place.  This is
    the level at which "the template is not mutated" says something. *)

Module Store.

Abbreviation loc := nat.

Inductive hval :=
  | HNone
  | HBool (b : bool)
  | HInt (z : Z)
  | HFloat (q : Q)
  | HStr (s : string)
  | HDateTime (d : DT.datetime)
  | HRef (l : loc).

Inductive obj :=
  | OList (items : list hval)
  | ODict (entries : list (string * hval)).

Abbreviation heap := (list obj).

(** A computation on the store that may raise. *)
Definition M (A : Type) : Type := heap -> heap * res A.

Definition ret {A} (a : A) : M A := fun h => (h, Ok a).

Definition raise {A} (c : exn_class) (msg : string) : M A :=
  fun h => (h, Raise c msg).

Definition bind {A B} (m : M A) (k : A -> M B) : M B :=
  fun h =>
    match m h with
    | (h1, Ok a) => k a h1
    | (h1, Raise c msg) => (h1, Raise c msg)
    end.

(** A computation that does not touch the store *)
Definition lift {A} (r : res A) : M A := fun h => (h, r).

Notation "'let!' x := m 'in' k" := (bind m (fun x => k))
  (at level 10, x name, m at level 100, k at level 200).

(** A new object *)
Definition alloc (o : obj) : M hval :=
  fun h => ((h ++ [o])%list, Ok (HRef (length h))).

(** The object a value refers to *)
Definition deref (v : hval) : M obj :=
  fun h =>
    match v with
    | HRef l =>
        match h !! l with
        | Some o => (h, Ok o)
        | None => (h, Raise KeyError "no such object")
        end
    | _ => (h, Raise TypeError "not an object")
    end.

Fixpoint assoc_set (es : list (string * hval)) (k : string) (v : hval)
  : list (string * hval) :=
  match es with
  | [] => [(k, v)]
  | (k', v') :: es' =>
      if String.eqb k k' then (k', v) :: es' else (k', v') :: assoc_set es' k v
  end.

Fixpoint assoc_get (es : list (string * hval)) (k : string) : option hval :=
  match es with
  | [] => None
  | (k', v) :: es' => if String.eqb k k' then Some v else assoc_get es' k
  end.

(** [target[key] = v], in place *)
Definition hset (target : hval) (key : string) (v : hval) : M unit :=
  fun h =>
    match target with
    | HRef l =>
        match h !! l with
        | Some (ODict es) => (<[l := ODict (assoc_set es key v)]> h, Ok tt)
        | Some (OList _) =>
            (h, Raise TypeError "list indices must be integers or slices")
        | None => (h, Raise KeyError "no such object")
        end
    | _ => (h, Raise TypeError "object does not support item assignment")
    end.

(** [target[0] = v], in place *)
Definition hset0 (target : hval) (v : hval) : M unit :=
  fun h =>
    match target with
    | HRef l =>
        match h !! l with
        | Some (OList (_ :: xs)) => (<[l := OList (v :: xs)]> h, Ok tt)
        | Some (OList []) =>
            (h, Raise IndexError "list assignment index out of range")
        | Some (ODict _) => (h, Raise KeyError "0")
        | None => (h, Raise KeyError "no such object")
        end
    | _ => (h, Raise TypeError "object does not support item assignment")
    end.

(** [target[key]] *)
Definition hget (target : hval) (key : string) : M hval :=
  fun h =>
    match target with
    | HRef l =>
        match h !! l with
        | Some (ODict es) =>
            match assoc_get es key with
            | Some v => (h, Ok v)
            | None => (h, Raise KeyError key)
            end
        | Some (OList _) =>
            (h, Raise TypeError "list indices must be integers or slices")
        | None => (h, Raise KeyError "no such object")
        end
    | HStr _ => (h, Raise TypeError "string indices must be integers")
    | _ => (h, Raise TypeError "object is not subscriptable")
    end.

(** [target.get(key)]: the value, or nothing when the key is absent *)
Definition hget_opt (target : hval) (key : string) : M (option hval) :=
  fun h =>
    match target with
    | HRef l =>
        match h !! l with
        | Some (ODict es) => (h, Ok (assoc_get es key))
        | Some (OList _) =>
            (h, Raise AttributeError "object has no attribute 'get'")
        | None => (h, Raise KeyError "no such object")
        end
    | _ => (h, Raise AttributeError "object has no attribute 'get'")
    end.

(** [target[0]] *)
Definition hget0 (target : hval) : M hval :=
  fun h =>
    match target with
    | HRef l =>
        match h !! l with
        | Some (OList (x :: _)) => (h, Ok x)
        | Some (OList []) => (h, Raise IndexError "list index out of range")
        | Some (ODict _) => (h, Raise KeyError "0")
        | None => (h, Raise KeyError "no such object")
        end
    | HStr (String c _) => (h, Ok (HStr (String c EmptyString)))
    | HStr EmptyString => (h, Raise IndexError "string index out of range")
    | _ => (h, Raise TypeError "object is not subscriptable")
    end.

(** A value built by the program, put in the store: every list and
    dictionary of it becomes a new object. *)
Fixpoint alloc_val (v : pyval) : M hval :=
  match v with
  | PNone => ret HNone
  | PBool b => ret (HBool b)
  | PInt z => ret (HInt z)
  | PFloat q => ret (HFloat q)
  | PStr s => ret (HStr s)
  | PDateTime d => ret (HDateTime d)
  | PList l =>
      let! xs :=
        (fix go (l : list pyval) : M (list hval) :=
           match l with
           | [] => ret []
           | x :: l' =>
               let! x' := alloc_val x in
               let! xs := go l' in
               ret (x' :: xs)
           end) l in
      alloc (OList xs)
  | PDict d =>
      let! es :=
        (fix go (d : list (string * pyval)) : M (list (string * hval)) :=
           match d with
           | [] => ret []
           | (k, x) :: d' =>
               let! x' := alloc_val x in
               let! es := go d' in
               ret ((k, x') :: es)
           end) d in
      alloc (ODict es)
  end.

(** The value that a store value stands for, read to the given depth;
    nothing when the depth does not suffice or an object is missing. *)
Fixpoint reify (fuel : nat) (h : heap) (v : hval) : option pyval :=
  match v with
  | HNone => Some PNone
  | HBool b => Some (PBool b)
  | HInt z => Some (PInt z)
  | HFloat q => Some (PFloat q)
  | HStr s => Some (PStr s)
  | HDateTime d => Some (PDateTime d)
  | HRef l =>
      match fuel with
      | O => None
      | S fuel' =>
          match h !! l with
          | Some (OList xs) =>
              option_map PList
                ((fix go (xs : list hval) : option (list pyval) :=
                    match xs with
                    | [] => Some []
                    | x :: xs' =>
                        match reify fuel' h x, go xs' with
                        | Some y, Some ys => Some (y :: ys)
                        | _, _ => None
                        end
                    end) xs)
          | Some (ODict es) =>
              option_map PDict
                ((fix go (es : list (string * hval))
                    : option (list (string * pyval)) :=
                    match es with
                    | [] => Some []
                    | (k, x) :: es' =>
                        match reify fuel' h x, go es' with
                        | Some y, Some ys => Some ((k, y) :: ys)
                        | _, _ => None
                        end
                    end) es)
          | None => None
          end
      end
  end.

(** Reading a whole value out of the store, for the computations that
    only look at it.  The depth is the number of objects, which is
    enough for every value without a cycle. *)
Definition read (v : hval) : M pyval :=
  fun h =>
    match reify (S (length h)) h v with
    | Some p => (h, Ok p)
    | None => (h, Raise ValueError "cyclic or dangling value")
    end.

Fixpoint memo_get (memo : list (loc * loc)) (l : loc) : option loc :=
  match memo with
  | [] => None
  | (a, b) :: memo' => if Nat.eqb a l then Some b else memo_get memo' l
  end.

(** [copy.deepcopy]: atoms are shared, every list and dictionary is
    copied once (the memo keeps aliases and cycles), children first to
    last.  [fuel] bounds the number of nested objects. *)
Fixpoint deepcopy_memo (fuel : nat) (memo : list (loc * loc)) (v : hval)
  : M (list (loc * loc) * hval) :=
  match v with
  | HRef l =>
      match memo_get memo l with
      | Some l' => ret (memo, HRef l')
      | None =>
          match fuel with
          | O => raise ValueError "maximum recursion depth exceeded"
          | S fuel' =>
              let! o := deref v in
              match o with
              | OList xs =>
                  let! y := alloc (OList []) in
                  let memo1 :=
                    match y with HRef l' => (l, l') :: memo | _ => memo end in
                  let! r :=
                    (fix go (memo : list (loc * loc)) (xs : list hval)
                       : M (list (loc * loc) * list hval) :=
                       match xs with
                       | [] => ret (memo, [])
                       | x :: xs' =>
                           let! r1 := deepcopy_memo fuel' memo x in
                           let! r2 := go (fst r1) xs' in
                           ret (fst r2, snd r1 :: snd r2)
                       end) memo1 xs in
                  fun h =>
                    match y with
                    | HRef l' => (<[l' := OList (snd r)]> h, Ok (fst r, y))
                    | _ => (h, Ok (fst r, y))
                    end
              | ODict es =>
                  let! y := alloc (ODict []) in
                  let memo1 :=
                    match y with HRef l' => (l, l') :: memo | _ => memo end in
                  let! r :=
                    (fix go (memo : list (loc * loc))
                         (es : list (string * hval))
                       : M (list (loc * loc) * list (string * hval)) :=
                       match es with
                       | [] => ret (memo, [])
                       | (k, x) :: es' =>
                           let! r1 := deepcopy_memo fuel' memo x in
                           let! r2 := go (fst r1) es' in
                           ret (fst r2, (k, snd r1) :: snd r2)
                       end) memo1 es in
                  fun h =>
                    match y with
                    | HRef l' => (<[l' := ODict (snd r)]> h, Ok (fst r, y))
                    | _ => (h, Ok (fst r, y))
                    end
              end
          end
      end
  | _ => ret (memo, v)
  end.

(** [deepcopy(v)] *)
Definition deepcopy (v : hval) : M hval :=
  fun h =>
    match deepcopy_memo (S (length h)) [] v h with
    | (h', Ok r) => (h', Ok (snd r))
    | (h', Raise c msg) => (h', Raise c msg)
    end.

(** [target[key] = v] for a value built by the program *)
Definition hset_val (target : hval) (key : string) (v : pyval) : M unit :=
  let! x := alloc_val v in
  hset target key x.

Definition or_none (o : option hval) : hval :=
  match o with Some v => v | None => HNone end.

(** The plug assignment of the vehicle block, on the copy *)
Definition assign_prise (E : env) (new_id : option string) (vehicule : hval)
  : M unit :=
  let! _ := hset vehicule "idPrise" (HStr "") in
  match infra E with
  | Some inf =>
      let! chargers := lift (flatten_chargers inf) in
      match chargers with
      | [] => ret tt
      | _ =>
          let! charger := lift (choice (draw_charger E) (PList chargers)) in
          let! prises := lift (py_get charger "prises" (PList [])) in
          let! prise := lift (choice (draw_prise E) prises) in
          let! pid := lift (py_get prise "id" (PStr "")) in
          let! _ := hset_val vehicule "idPrise" pid in
          let! modele := lift (py_get charger "typeChargeur" PNone) in
          let! _ :=
            (if truthy modele then
               let! tc := hget vehicule "typeChargeur" in
               let! tc0 := hget0 tc in
               hset tc0 "modeleChargeur" (HStr (py_str E modele))
             else ret tt) in
          let! cur := hget vehicule "typePrise" in
          let! cur := read cur in
          let! tp := lift (py_get prise "typePrise" cur) in
          hset vehicule "typePrise" (HStr (py_str E tp))
      end
  | None =>
      match new_id with
      | Some id => hset vehicule "idPrise" (HStr ("TR1_CH_" ++ id ++ "_P1"))
      | None => ret tt
      end
  end.

(** [configuration], as far as the [debutService] branch looks at it:
    its [finOptim], read only when the fallback is taken. *)
Definition finOptim_view (record : pydict) (default_debut_service : pyval)
    (configuration : hval) : M pyval :=
  match _dt (Dict.get record "Heure Prochain Service") with
  | Some _ => ret (PDict [])
  | None =>
      if is_none default_debut_service then ret (PDict [])
      else
        let! f := hget configuration "finOptim" in
        let! f := read f in
        ret (PDict [("finOptim", f)])
  end.

(** [map_record(record, template=template, ...)] on the store.  The
    template is a value of the store; the record, the infrastructure
    and the other arguments are only read.  The fields are computed by
    the same functions as in the value-level model.  What comes from the
    infrastructure file is loaded by the call itself, so it shares
    nothing with the template; it is put in the store where it is
    written. *)
Definition map_record (E : env) (record : pydict) (template : hval)
    (P : params) : M hval :=
  let! data := deepcopy template in
  let! _ := hset_val data "choix_optim" (choix_optim P) in
  (* configuration *)
  let! config_template := hget_opt template "configuration" in
  let! configuration := deepcopy (or_none config_template) in
  let! _ :=
    match activation_rendement P with
    | Some s => hset configuration "activationRendement" (HStr s)
    | None => ret tt
    end in
  let! _ :=
    hset_val configuration "axeOptimDegrade"
      (match axe_optim_degrade P with
       | None => PList [PInt 1; PInt 2; PInt 3]
       | Some l => PList (List.map PInt l)
       end) in
  let! _ :=
    match diminution_soc P with
    | Some q => hset configuration "diminutionSOC" (HInt (Num.trunc q))
    | None => ret tt
    end in
  let! _ :=
    match pas_de_temps P with
    | Some z => hset configuration "pasDeTemps" (HInt z)
    | None => ret tt
    end in
  let! _ :=
    hset configuration "maximumExecTemps" (HInt (maximum_exec_temps P)) in
  let! bounds := lift (jour_dep_bounds (resultat_rows E)) in
  let! _ :=
    (if is_none (start_dt P) then ret tt
     else let! s := lift (debutOptim_value (fst bounds) (start_dt P)) in
          hset configuration "debutOptim" (HStr s)) in
  let! _ :=
    (if is_none (end_dt P) then ret tt
     else let! s := lift (finOptim_value (snd bounds) (end_dt P)) in
          hset configuration "finOptim" (HStr s)) in
  let! _ := hset data "configuration" configuration in
  (* sources *)
  let! srcs :=
    lift (match infra E with
          | Some inf => py_get inf "sources" (PList [])
          | None => Ok (PList [])
          end) in
  let! _ := hset_val data "sources" srcs in
  (* vehicules *)
  let! vehs := hget_opt template "vehicules" in
  let! vehs :=
    match vehs with
    | Some v => ret v
    | None => alloc_val (PList [PDict []])
    end in
  let! veh_template := hget0 vehs in
  let! vehicule := deepcopy veh_template in
  let new_id := new_id_of E record in
  let! tveh := lift (tveh_of record) in
  let! _ :=
    hset vehicule "capaciteBatterie"
      (HInt (Num.trunc (table_get (capacities E) (projection P) tveh))) in
  let! _ := assign_prise E new_id vehicule in
  let! _ := hset vehicule "modeBoost" (HInt 0) in
  let! _ :=
    hset_val vehicule "profilBatterie" (profile_value E (projection P) tveh) in
  let! _ := hset vehicule "soc" (HInt (soc_value record)) in
  let! _ :=
    hset vehicule "socCible" (HInt (socCible_value record (soc_cible P))) in
  let h_fin := _dt (Dict.get record "hFin") in
  let! _ :=
    match Num.py_int (Dict.get_default record "dist" PNone) with
    | Ok dist_val => hset vehicule "dureeService" (HInt dist_val)
    | Raise _ _ => ret tt
    end in
  let temp_decharg := or0 (temps_dechargement P) in
  let! _ :=
    match h_fin with
    | Some hf =>
        let! fin_service :=
          lift (DT.add hf (DT.td_minutes_q (inject_Z temp_decharg))) in
        hset vehicule "finService" (HStr (isoformat_z fin_service))
    | None => hset vehicule "finService" (HStr "")
    end in
  let! cfg := finOptim_view record (default_debut_service P) configuration in
  let! ds :=
    lift (debutService_value record cfg (temps_chargement P)
            (default_debut_service P)) in
  let! _ :=
    match ds with
    | Some s => hset vehicule "debutService" (HStr s)
    | None => ret tt
    end in
  let conso_value := table_get (consos E) (projection P) tveh in
  let! _ :=
    match new_id with
    | Some id => hset vehicule "id" (HStr id)
    | None => ret tt
    end in
  let! cur := hget_opt vehicule "debutService" in
  let! cur_debut :=
    match cur with Some v => read v | None => ret (PStr "") end in
  let! _ :=
    hset vehicule "libelle"
      (HStr (json_dumps E (PDict [
         ("numeroExploitation", PStr (opt_str new_id));
         ("debutService", cur_debut);
         ("MargeSecurite", PStr (hhmm (marge_securite P)));
         ("MargePrechauffage", PStr (hhmm (marge_prechauffage P)));
         ("Conso", PFloat (round2 conso_value))]))) in
  let! vlist := alloc (OList [vehicule]) in
  let! _ := hset data "vehicules" vlist in
  ret data.

End Store.

(** ** Mapping many records (src/mapper.py) *)

(** Every call of [map_record] makes its own draws of [random.choice]. *)
Definition with_draws (E : env) (d : nat * nat) : env :=
  mkenv (capacities E) (powers E) (consos E) (battery_profile E)
        (resultat_rows E) (infra E) (fst d) (snd d) (json_dumps E) (py_repr E).

(** The loop of [map_records]: the record at position [i] is mapped
    with the draws [draws i]; the first exception ends the loop. *)
Fixpoint map_each (E : env) (draws : nat -> nat * nat) (i : nat)
    (records : list pydict) (template : pyval) (P : params)
  : res (list pyval) :=
  match records with
  | [] => Ok []
  | rec :: records' =>
      let* doc := map_record (with_draws E (draws i)) rec template P in
      let* docs := map_each E draws (S i) records' template P in
      Ok (doc :: docs)
  end.

(** [map_records(records, template=template, ...)].  The [aggregate]
    argument is not read by the function. *)
Definition map_records (E : env) (draws : nat -> nat * nat)
    (records : list pydict) (template : pyval) (P : params) : res pyval :=
  let* results := map_each E draws O records template P in
  let* merged := aggregate_results results in
  match infra E with
  | Some inf =>
      let* srcs := py_get inf "sources" (PList []) in
      setitem merged "sources" srcs
  | None => Ok merged
  end.

(** ** Orchestrator helpers (src/main.py) *)

(** [_parse_date(value)]: [None] stays [None]; a number is an Excel
    serial number; anything else is tried as an ISO text, then as the
    text of a serial number, and is [None] when both fail. *)
Definition _parse_date (E : env) (value : pyval) : res (option DT.datetime) :=
  match value with
  | PNone => Ok None
  | PBool _ | PInt _ | PFloat _ =>
      let* x := Num.py_float value in
      let* d := excel_number_to_datetime x in
      Ok (Some d)
  | _ =>
      match parse_iso_datetime (PStr (py_str E value)) with
      | Ok d => Ok (Some d)
      | Raise _ _ =>
          match (let* x := Num.py_float value in
                 excel_number_to_datetime x) with
          | Ok d => Ok (Some d)
          | Raise _ _ => Ok None
          end
      end
  end.

(** [excel_number_to_datetime(float(rec.get("jourDep", 0)))] *)
Definition jour_of (rec : pydict) : res DT.datetime :=
  let* x := Num.py_float (Dict.get_default rec "jourDep" (PInt 0)) in
  excel_number_to_datetime x.

(** The loop of [_filter_by_jour_dep] *)
Fixpoint filter_loop (start end_ : option DT.datetime)
    (records : list pydict) : list pydict :=
  match records with
  | [] => []
  | rec :: records' =>
      match jour_of rec with
      | Raise _ _ => filter_loop start end_ records'
      | Ok jour_dt =>
          if match start with Some s => DT.ltb jour_dt s | None => false end
          then filter_loop start end_ records'
          else if match end_ with Some e => DT.gtb jour_dt e | None => false end
          then filter_loop start end_ records'
          else rec :: filter_loop start end_ records'
      end
  end.

(** [_filter_by_jour_dep(records, start, end)] *)
Definition _filter_by_jour_dep (records : list pydict)
    (start end_ : option DT.datetime) : list pydict :=
  match start, end_ with
  | None, None => records
  | _, _ => filter_loop start end_ records
  end.

(** ** Charger definitions (src/mapper.py) *)

(** [obj.update({k1: v1, ...})] *)
Definition py_update (obj : pyval) (kvs : list (string * pyval)) : res pyval :=
  match obj with
  | PDict d =>
      Ok (PDict (fold_left (fun acc kv => Dict.set acc (fst kv) (snd kv)) kvs d))
  | _ => Raise AttributeError "object has no attribute 'update'"
  end.

(** [obj.get(key, [{}])[0]] *)
Definition first_of (obj : pyval) (key : string) : res pyval :=
  let* l := py_get obj key (PList [PDict []]) in
  getitem0 l.

(** [str(rec.get("newIdVeh", "")).strip()] *)
Definition veh_of (E : env) (rec : pydict) : string :=
  Str.strip (py_str E (Dict.get_default rec "newIdVeh" (PStr ""))).

(** The charger built for the vehicle [veh] met at position [idx] *)
Definition built_charger (ch_template prise_template : pyval)
    (chargeur_pmax prise_pmax : option Z) (idx : nat) (veh : string)
  : res pyval :=
  let name := "TR1_CH_" ++ Str.of_nat idx in
  let* chargeur :=
    py_update ch_template [
      ("id", PStr name);
      ("libelle", PStr name);
      ("etat", PStr "online");
      ("pMax", PInt (or0 chargeur_pmax));
      ("typeChargeur", PStr "TypeChargeur_valeur");
      ("mutualisation", PDict [
         ("nombrePrises", PInt 1);
         ("configsMutualisation",
            PList [PDict [("configMutualisation", PList [PInt 100])]])])] in
  let* prise :=
    py_update prise_template [
      ("id", PStr ("PR_" ++ veh));
      ("libelle", PStr (name ++ "_P1"));
      ("etat", PStr "online");
      ("typePrise", PStr "Type Prise");
      ("pMax", PInt (or0 prise_pmax))] in
  setitem chargeur "prises" (PList [prise]).

(** The loop of [build_chargeurs]; [seen] is the set of vehicles met. *)
Fixpoint build_loop (E : env) (ch_template prise_template : pyval)
    (chargeur_pmax prise_pmax : option Z) (idx : nat) (seen : list string)
    (records : list pydict) : res (list pyval) :=
  match records with
  | [] => Ok []
  | rec :: records' =>
      let veh := veh_of E rec in
      if String.eqb veh "" || existsb (String.eqb veh) seen
      then build_loop E ch_template prise_template chargeur_pmax prise_pmax
             (S idx) seen records'
      else
        let* chargeur :=
          built_charger ch_template prise_template chargeur_pmax prise_pmax
            idx veh in
        let* rest :=
          build_loop E ch_template prise_template chargeur_pmax prise_pmax
            (S idx) (veh :: seen) records' in
        Ok (chargeur :: rest)
  end.

(** [build_chargeurs(records, template=template, chargeur_pmax=...,
    prise_pmax=...)] *)
Definition build_chargeurs (E : env) (records : list pydict)
    (template : pyval) (chargeur_pmax prise_pmax : option Z)
  : res (list pyval) :=
  let* src := first_of template "sources" in
  let* trans := first_of src "transformateurs" in
  let* ch_template := first_of trans "chargeurs" in
  let* prise_template := first_of ch_template "prises" in
  build_loop E ch_template prise_template chargeur_pmax prise_pmax O []
    records.

(** * Properties *)

(** ** Date-bound validator *)

Definition sample_rows : list pydict :=
  [ [("newIdVeh", PStr "1"); ("jourDep", PStr "45643")];
    [("newIdVeh", PStr "2"); ("jourDep", PStr "45645")] ].

Example jour_dep_bounds_sample :
  jour_dep_bounds sample_rows
  = Ok (DT.combine_min (DT.mkdate 2024 12 17),
        DT.combine_min (DT.mkdate 2024 12 19)).
Proof. vm_compute. reflexivity. Qed.

Example validate_optim_dates_accepts_valid_range :
  validate_optim_dates (PStr "2024-12-15") (PStr "2024-12-20") sample_rows
  = Ok tt.
Proof. vm_compute. reflexivity. Qed.

Example validate_optim_dates_rejects_invalid_range :
  validate_optim_dates (PStr "2024-12-17") (PStr "2024-12-18") sample_rows
  = Raise ValueError "debutOptim must be earlier than first jourDep".
Proof. vm_compute. reflexivity. Qed.

Lemma to_dt_parse (v : pyval) :
  match v with PDateTime d => Ok d | _ => parse_iso_datetime v end
  = parse_iso_datetime v.
Proof. destruct v; reflexivity. Qed.

(** C5. Given the observed bounds and two bounds that parse, the
    date-bound validator returns normally exactly when
    [start < observed_min] and [end > observed_max], and raises a
    [ValueError] exactly when that conjunction fails. *)
Theorem validate_optim_dates_spec
    (debut fin : pyval) (rows : list pydict)
    (observed_min observed_max start end_ : DT.datetime) :
  jour_dep_bounds rows = Ok (observed_min, observed_max) ->
  parse_iso_datetime debut = Ok start ->
  parse_iso_datetime fin = Ok end_ ->
  (validate_optim_dates debut fin rows = Ok tt
   <-> DT.ltb start observed_min = true /\ DT.gtb end_ observed_max = true)
  /\ ((exists msg, validate_optim_dates debut fin rows = Raise ValueError msg)
      <-> ~ (DT.ltb start observed_min = true
             /\ DT.gtb end_ observed_max = true)).
Proof.
  intros Hb Hd Hf. unfold validate_optim_dates.
  rewrite Hb. simpl. rewrite !to_dt_parse, Hd, Hf. simpl.
  unfold DT.geb, DT.leb, DT.ltb, DT.gtb.
  destruct (DT.is_lt (DT.compare start observed_min));
    destruct (DT.is_gt (DT.compare end_ observed_max)); simpl.
  - split.
    + split; [intros _; split; reflexivity | intros _; reflexivity].
    + split; [intros [m Hm]; discriminate Hm |].
      intros Hn. exfalso. apply Hn. split; reflexivity.
  - split.
    + split; [discriminate | intros [_ Hc]; discriminate Hc].
    + split; [intros _ [_ Hc]; discriminate Hc |].
      intros _. eexists. reflexivity.
  - split.
    + split; [discriminate | intros [Hc _]; discriminate Hc].
    + split; [intros _ [Hc _]; discriminate Hc |].
      intros _. eexists. reflexivity.
  - split.
    + split; [discriminate | intros [Hc _]; discriminate Hc].
    + split; [intros _ [Hc _]; discriminate Hc |].
      intros _. eexists. reflexivity.
Qed.

Lemma validate_optim_dates_spec_witness :
  validate_optim_dates (PStr "2024-12-15") (PStr "2024-12-20") sample_rows
  = Ok tt
  <-> DT.ltb (DT.combine_min (DT.mkdate 2024 12 15))
             (DT.combine_min (DT.mkdate 2024 12 17)) = true
      /\ DT.gtb (DT.combine_min (DT.mkdate 2024 12 20))
                (DT.combine_min (DT.mkdate 2024 12 19)) = true.
Proof.
  apply (validate_optim_dates_spec (PStr "2024-12-15") (PStr "2024-12-20")
           sample_rows
           (DT.combine_min (DT.mkdate 2024 12 17))
           (DT.combine_min (DT.mkdate 2024 12 19))
           (DT.combine_min (DT.mkdate 2024 12 15))
           (DT.combine_min (DT.mkdate 2024 12 20)));
    vm_compute; reflexivity.
Defined.

(** ** Schema validator *)

(** Conformance of a value to a schema, worded as the design document
    words it: a mapping node wants every key present with a conforming
    value; a single-element sequence node wants a sequence all of whose
    elements conform to the element schema; a class or a tuple of
    classes wants membership; a predicate wants the predicate to hold. *)
Inductive conforms : pyval -> schema -> Prop :=
  | conforms_mapping d entries :
      Forall (fun e => exists v, Dict.get d (fst e) = Some v
                                 /\ conforms v (snd e)) entries ->
      conforms (PDict d) (SDict entries)
  | conforms_sequence items sub :
      Forall (fun item => conforms item sub) items ->
      conforms (PList items) (SList [sub])
  | conforms_class v t :
      isinstance v t = true -> conforms v (SType t)
  | conforms_tuple v ts :
      Exists (fun t => isinstance v t = true) ts -> conforms v (STuple ts)
  | conforms_predicate v f :
      f v = true -> conforms v (SCallable f).

(** Induction on schemas that reaches the nodes inside the lists. *)
Section schema_ind_nested.

Variable P : schema -> Prop.
Hypothesis Hdict :
  forall entries, Forall (fun e => P (snd e)) entries -> P (SDict entries).
Hypothesis Hlist : forall elems, Forall P elems -> P (SList elems).
Hypothesis Htype : forall t, P (SType t).
Hypothesis Htuple : forall ts, P (STuple ts).
Hypothesis Hcall : forall f, P (SCallable f).
Hypothesis Hother : P SOther.

Fixpoint schema_ind_nested (s : schema) : P s :=
  match s with
  | SDict entries =>
      Hdict entries
        ((fix go (es : list (string * schema))
            : Forall (fun e => P (snd e)) es :=
            match es with
            | [] => List.Forall_nil _
            | (k, sub) :: es' =>
                @List.Forall_cons _ (fun e => P (snd e)) (k, sub) es'
                  (schema_ind_nested sub) (go es')
            end) entries)
  | SList elems =>
      Hlist elems
        ((fix go (es : list schema) : Forall P es :=
            match es with
            | [] => List.Forall_nil _
            | sub :: es' =>
                @List.Forall_cons _ P sub es' (schema_ind_nested sub) (go es')
            end) elems)
  | SType t => Htype t
  | STuple ts => Htuple ts
  | SCallable f => Hcall f
  | SOther => Hother
  end.

End schema_ind_nested.

(** The two loops of [_validate], named. *)
Fixpoint entries_loop (d : pydict) (path : string)
    (es : list (string * schema)) : res unit :=
  match es with
  | [] => Ok tt
  | (key, subschema) :: es' =>
      match Dict.get d key with
      | None => Raise ValueError ("Missing key " ++ path ++ key)
      | Some v =>
          let* _ := _validate v subschema (path ++ key ++ ".") in
          entries_loop d path es'
      end
  end.

Fixpoint items_loop (subschema : schema) (path : string) (idx : nat)
    (its : list pyval) : res unit :=
  match its with
  | [] => Ok tt
  | item :: its' =>
      let* _ := _validate item subschema
                  (path ++ "[" ++ Str.of_nat idx ++ "].") in
      items_loop subschema path (S idx) its'
  end.

Lemma validate_dict_eq (d : pydict) (es : list (string * schema)) path :
  _validate (PDict d) (SDict es) path = entries_loop d path es.
Proof.
  simpl. induction es as [| [k sub] es IH]; simpl; [reflexivity |].
  destruct (Dict.get d k); [| reflexivity].
  destruct (_validate p sub (path ++ k ++ ".")); simpl; [exact IH | reflexivity].
Qed.

Lemma validate_list_eq (items : list pyval) (sub : schema) path :
  _validate (PList items) (SList [sub]) path = items_loop sub path O items.
Proof.
  simpl. generalize O. induction items as [| it its IH]; intros n; simpl;
    [reflexivity |].
  destruct (_validate it sub _); simpl; [apply IH | reflexivity].
Qed.

Lemma res_unit_ok (m : res unit) (u : unit) : m = Ok u -> m = Ok tt.
Proof. destruct u. exact id. Qed.

Lemma entries_loop_ok_iff (d : pydict) (path : string)
    (es : list (string * schema)) :
  Forall (fun e => forall v p, _validate v (snd e) p = Ok tt
                               <-> conforms v (snd e)) es ->
  entries_loop d path es = Ok tt
  <-> Forall (fun e => exists v, Dict.get d (fst e) = Some v
                                  /\ conforms v (snd e)) es.
Proof.
  induction 1 as [| [k sub] es Hsub _ IH]; simpl.
  - split; intros _; [constructor | reflexivity].
  - simpl in Hsub. destruct (Dict.get d k) as [v |] eqn:Hget.
    + destruct (_validate v sub (path ++ k ++ ".")) as [[] | c m] eqn:Hv; simpl.
      * rewrite IH. split.
        -- intros Hes. constructor; [| exact Hes].
           exists v. split; [exact Hget |].
           apply (Hsub v (path ++ k ++ ".")). exact Hv.
        -- intros Hes. inversion Hes; assumption.
      * split; [discriminate |].
        intros Hes. inversion Hes as [| ? ? [v' [Hget' Hc]] _]; subst.
        simpl in Hget'. rewrite Hget in Hget'. injection Hget' as <-.
        apply (Hsub v (path ++ k ++ ".")) in Hc. congruence.
    + split; [discriminate |].
      intros Hes. inversion Hes as [| ? ? [v' [Hget' _]] _]; subst.
      simpl in Hget'. congruence.
Qed.

Lemma items_loop_ok_iff (sub : schema) (path : string) (its : list pyval) :
  (forall v p, _validate v sub p = Ok tt <-> conforms v sub) ->
  forall idx,
  items_loop sub path idx its = Ok tt
  <-> Forall (fun item => conforms item sub) its.
Proof.
  intros Hsub. induction its as [| it its IH]; intros idx; simpl.
  - split; intros _; [constructor | reflexivity].
  - destruct (_validate it sub _) as [[] | c m] eqn:Hv; simpl.
    + rewrite IH. split.
      * intros Hes. constructor; [| exact Hes].
        apply (Hsub it (path ++ "[" ++ Str.of_nat idx ++ "].")). exact Hv.
      * intros Hes. inversion Hes; assumption.
    + split; [discriminate |].
      intros Hes. inversion Hes as [| ? ? Hc _]; subst.
      apply (Hsub it (path ++ "[" ++ Str.of_nat idx ++ "].")) in Hc. congruence.
Qed.

Lemma existsb_isinstance (v : pyval) (ts : list pytype) :
  existsb (isinstance v) ts = true
  <-> Exists (fun t => isinstance v t = true) ts.
Proof.
  rewrite existsb_exists, List.Exists_exists. reflexivity.
Qed.

(** [_validate] accepts exactly the conforming values. *)
Lemma validate_ok_iff (s : schema) :
  forall (v : pyval) (path : string),
    _validate v s path = Ok tt <-> conforms v s.
Proof.
  induction s as [entries IH | elems IH | t | ts | f | ]
    using schema_ind_nested; intros v path.
  - destruct v as [| | | | | | | d];
      try (split; [discriminate | intros Hc; inversion Hc]).
    rewrite validate_dict_eq, (entries_loop_ok_iff d path entries IH).
    split; [intros H; constructor; exact H | intros H; inversion H; assumption].
  - destruct v as [| | | | | | items |];
      try (split; [discriminate | intros Hc; inversion Hc]).
    destruct elems as [| sub [| sub' elems]].
    + split; [discriminate | intros Hc; inversion Hc].
    + inversion IH as [| ? ? Hsub _]; subst.
      rewrite validate_list_eq, (items_loop_ok_iff sub path items Hsub O).
      split; [intros H; constructor; exact H
             | intros H; inversion H; assumption].
    + split; [discriminate | intros Hc; inversion Hc].
  - simpl. destruct (isinstance v t) eqn:Hi.
    + split; [intros _; constructor; exact Hi | reflexivity].
    + split; [discriminate | intros Hc; inversion Hc; congruence].
  - simpl. destruct (existsb (isinstance v) ts) eqn:Hi.
    + split; [intros _; constructor; apply existsb_isinstance; exact Hi
             | reflexivity].
    + split; [discriminate |].
      intros Hc; inversion Hc as [| | | ? ? He |]; subst.
      apply existsb_isinstance in He. congruence.
  - simpl. destruct (f v) eqn:Hf.
    + split; [intros _; constructor; exact Hf | reflexivity].
    + split; [discriminate | intros Hc; inversion Hc; congruence].
  - split; [discriminate | intros Hc; inversion Hc].
Qed.

(** In a mapping node the entries before the first failing one do not
    matter, and the entries after it are not looked at. *)
Lemma entries_loop_first_failure (d : pydict) (path : string)
    (es1 es2 : list (string * schema)) (k : string) (sub : schema) :
  Forall (fun e => exists v, Dict.get d (fst e) = Some v
                             /\ conforms v (snd e)) es1 ->
  entries_loop d path (es1 ++ (k, sub) :: es2)
  = match Dict.get d k with
    | None => Raise ValueError ("Missing key " ++ path ++ k)
    | Some v =>
        let* _ := _validate v sub (path ++ k ++ ".") in
        entries_loop d path es2
    end.
Proof.
  induction 1 as [| [k1 sub1] es1 [v [Hget Hc]] _ IH]; simpl; [reflexivity |].
  simpl in Hget, Hc. rewrite Hget.
  apply (validate_ok_iff sub1 v (path ++ k1 ++ ".")) in Hc. rewrite Hc. simpl.
  exact IH.
Qed.

(** C6. The schema validator passes, returning nothing, exactly on the
    conforming values and raises on every other value; in a mapping node
    the first missing key or the first field of a wrong class decides
    the error, whatever follows it. *)
Theorem validate_spec :
  (forall v s path, _validate v s path = Ok tt <-> conforms v s)
  /\ (forall v s path,
        ~ conforms v s -> exists c msg, _validate v s path = Raise c msg)
  /\ (forall d es1 k sub es2 path,
        Forall (fun e => exists v, Dict.get d (fst e) = Some v
                                   /\ conforms v (snd e)) es1 ->
        Dict.get d k = None ->
        _validate (PDict d) (SDict (es1 ++ (k, sub) :: es2)) path
        = Raise ValueError ("Missing key " ++ path ++ k))
  /\ (forall d es1 k t es2 path v,
        Forall (fun e => exists v, Dict.get d (fst e) = Some v
                                   /\ conforms v (snd e)) es1 ->
        Dict.get d k = Some v ->
        isinstance v t = false ->
        _validate (PDict d) (SDict (es1 ++ (k, SType t) :: es2)) path
        = Raise TypeError
            (rstrip_dot (path ++ k ++ ".") ++ " must be of type "
             ++ type_name t)).
Proof.
  split; [intros v s path; apply validate_ok_iff |].
  split.
  - intros v s path Hn.
    destruct (_validate v s path) as [[] | c m] eqn:Hv.
    + exfalso. apply Hn. apply (validate_ok_iff s v path). exact Hv.
    + exists c, m. reflexivity.
  - split.
    + intros d es1 k sub es2 path Hes Hget.
      rewrite validate_dict_eq, (entries_loop_first_failure d path es1 es2 k sub Hes).
      rewrite Hget. reflexivity.
    + intros d es1 k t es2 path v Hes Hget Hi.
      rewrite validate_dict_eq,
        (entries_loop_first_failure d path es1 es2 k (SType t) Hes).
      rewrite Hget. simpl. rewrite Hi. reflexivity.
Qed.

Definition schema_entries (s : schema) : list (string * schema) :=
  match s with SDict es => es | _ => [] end.

Lemma entries_loop_ext (d d' : pydict) (path : string)
    (es : list (string * schema)) :
  (forall e, In e es -> Dict.get d (fst e) = Dict.get d' (fst e)) ->
  entries_loop d path es = entries_loop d' path es.
Proof.
  induction es as [| [k sub] es IH]; intros Hget; simpl; [reflexivity |].
  pose proof (Hget (k, sub) (or_introl eq_refl)) as Hk. simpl in Hk.
  rewrite <- Hk, IH; [reflexivity |].
  intros e He. apply Hget. right. exact He.
Qed.

Lemma dict_get_remove_ne (d : pydict) (k0 k : string) :
  k <> k0 -> Dict.get (Dict.remove d k0) k = Dict.get d k.
Proof.
  intros Hne. induction d as [| [k' v] d IH]; simpl; [reflexivity |].
  destruct (String.eqb k0 k') eqn:E0.
  - apply String.eqb_eq in E0. subst k'.
    rewrite IH.
    destruct (String.eqb k k0) eqn:E; [| reflexivity].
    apply String.eqb_eq in E. contradiction.
  - simpl. rewrite IH. reflexivity.
Qed.

(** The test of the repository: the template with a wrong [pasDeTemps]
    is rejected with a [TypeError]. *)
Example validate_json_rejects_invalid_type :
  (let* cfg := getitem DEFAULT_TEMPLATE "configuration" in
   let* cfg := setitem cfg "pasDeTemps" (PStr "oops") in
   let* data := setitem DEFAULT_TEMPLATE "configuration" cfg in
   validate_json data)
  = Raise TypeError "configuration.pasDeTemps must be of type int".
Proof. vm_compute. reflexivity. Qed.


(** ** Row Enricher *)

Lemma leb_refl `{Ord A} (x : A) : leb x x = true.
Proof. destruct (leb_total x x); assumption. Qed.

#[export] Program Instance Z_Ord : Ord Z := {| leb := Z.leb |}.
Next Obligation. intros x y. rewrite !Z.leb_le. lia. Qed.
Next Obligation. intros x y z. rewrite !Z.leb_le. lia. Qed.
Next Obligation. intros x y. rewrite !Z.leb_le. lia. Qed.

Section TransformerProps.

Context {K T : Type} `{OrdK : Ord K} `{OrdT : Ord T}.

Local Abbreviation row := (row K T).

Definition row_le (a b : row) : Prop := row_leb a b = true.

Lemma row_le_total (a b : row) : row_le a b \/ row_le b a.
Proof.
  unfold row_le, row_leb.
  destruct (decide (newIdVeh a = newIdVeh b)) as [e | n].
  - rewrite (decide_True (P := newIdVeh b = newIdVeh a)) by (symmetry; exact e).
    apply leb_total.
  - rewrite (decide_False (P := newIdVeh b = newIdVeh a))
      by (intros e; apply n; symmetry; exact e).
    apply leb_total.
Qed.

Lemma row_le_veh (a b : row) : row_le a b -> leb (newIdVeh a) (newIdVeh b) = true.
Proof.
  unfold row_le, row_leb.
  destruct (decide (newIdVeh a = newIdVeh b)) as [e | n]; [| exact id].
  intros _. rewrite e. apply leb_refl.
Qed.

Lemma row_le_trans (a b c : row) : row_le a b -> row_le b c -> row_le a c.
Proof.
  intros Hab Hbc.
  pose proof (row_le_veh a b Hab) as Vab.
  pose proof (row_le_veh b c Hbc) as Vbc.
  unfold row_le, row_leb in *.
  destruct (decide (newIdVeh a = newIdVeh c)) as [eac | nac].
  - assert (newIdVeh a = newIdVeh b) as eab.
    { apply leb_antisym; [exact Vab |]. rewrite eac. exact Vbc. }
    assert (newIdVeh b = newIdVeh c) as ebc by congruence.
    rewrite (decide_True (P := newIdVeh a = newIdVeh b)) in Hab by exact eab.
    rewrite (decide_True (P := newIdVeh b = newIdVeh c)) in Hbc by exact ebc.
    exact (leb_trans _ _ _ Hab Hbc).
  - exact (leb_trans _ _ _ Vab Vbc).
Qed.

Lemma insert_row_perm (x : row) (l : list row) : insert_row x l ≡ₚ x :: l.
Proof.
  induction l as [| y l IH]; simpl; [reflexivity |].
  destruct (row_leb x y); [reflexivity |].
  rewrite IH. apply Permutation_swap.
Qed.

Lemma sort_values_perm (df : list row) : sort_values df ≡ₚ df.
Proof.
  induction df as [| x df IH]; simpl; [reflexivity |].
  rewrite insert_row_perm, IH. reflexivity.
Qed.

Lemma insert_row_sorted (x : row) (l : list row) :
  StronglySorted row_le l -> StronglySorted row_le (insert_row x l).
Proof.
  induction 1 as [| y l Hs IH Hall]; simpl.
  - constructor; constructor.
  - destruct (row_leb x y) eqn:Hxy.
    + constructor; [constructor; assumption |].
      constructor; [exact Hxy |].
      eapply List.Forall_impl; [| exact Hall].
      intros z Hyz. exact (row_le_trans x y z Hxy Hyz).
    + constructor; [exact IH |].
      rewrite insert_row_perm. constructor; [| exact Hall].
      destruct (row_le_total x y) as [H | H]; [| exact H].
      unfold row_le in H. congruence.
Qed.

Lemma sort_values_sorted (df : list row) :
  StronglySorted row_le (sort_values df).
Proof.
  induction df as [| x df IH]; simpl; [constructor |].
  apply insert_row_sorted. exact IH.
Qed.

(** What the shift gives on a sorted frame, in the words of the design
    document: the departure of the line that follows, if it is of the
    same vehicle. *)
Fixpoint following_departure (l : list row) : list (option T) :=
  match l with
  | [] => []
  | r :: rest =>
      match rest with
      | r' :: _ => if same_veh r r' then Some (hDep r') else None
      | [] => None
      end :: following_departure rest
  end.

Lemma find_all_false {A} (f : A -> bool) (l : list A) :
  (forall x, In x l -> f x = false) -> List.find f l = None.
Proof.
  induction l as [| y l IH]; intros Hf; simpl; [reflexivity |].
  rewrite (Hf y (or_introl eq_refl)). apply IH.
  intros x Hx. apply Hf. right. exact Hx.
Qed.

Lemma find_none_later (r r' : row) (rest : list row) :
  row_le r r' -> same_veh r r' = false ->
  Forall (row_le r') rest ->
  List.find (same_veh r) rest = None.
Proof.
  intros Hrr' Hne Hall.
  apply find_all_false. intros x Hx.
  rewrite List.Forall_forall in Hall. specialize (Hall x Hx).
  unfold same_veh in *.
  apply bool_decide_eq_false in Hne. apply bool_decide_eq_false.
  intros Heq. apply Hne.
  apply leb_antisym; [exact (row_le_veh r r' Hrr') |].
  rewrite Heq. exact (row_le_veh r' x Hall).
Qed.

Lemma group_shift_sorted (l : list row) :
  StronglySorted row_le l -> group_shift l = following_departure l.
Proof.
  induction 1 as [| r rest Hs IH Hall]; simpl; [reflexivity |].
  rewrite IH. f_equal.
  destruct rest as [| r' rest']; simpl; [reflexivity |].
  destruct (same_veh r r') eqn:Hsv; simpl; [reflexivity |].
  inversion Hall as [| ? ? Hrr' _]; subst.
  inversion Hs as [| ? ? _ Hall']; subst.
  rewrite (find_none_later r r' rest' Hrr' Hsv Hall'). reflexivity.
Qed.

Lemma following_departure_length (l : list row) :
  length (following_departure l) = length l.
Proof. induction l as [| r l IH]; simpl; [reflexivity | now rewrite IH]. Qed.

Lemma row_le_set_prochain (a b : row) (u v : option T) :
  row_le a b -> row_le (set_prochain a u) (set_prochain b v).
Proof. exact id. Qed.

Lemma Forall_row_le_zip (x : row) (u : option T) (l : list row)
    (vs : list (option T)) :
  Forall (row_le x) l ->
  Forall (row_le (set_prochain x u)) (zip_with set_prochain l vs).
Proof.
  intros Hall. revert vs.
  induction Hall as [| y l Hxy _ IH]; intros vs; simpl; [constructor |].
  destruct vs as [| v vs]; constructor; [| apply IH].
  apply row_le_set_prochain. exact Hxy.
Qed.

Lemma sorted_zip (l : list row) (vs : list (option T)) :
  StronglySorted row_le l ->
  StronglySorted row_le (zip_with set_prochain l vs).
Proof.
  intros Hs. revert vs.
  induction Hs as [| r l _ IH Hall]; intros vs; simpl; [constructor |].
  destruct vs as [| v vs]; constructor; [apply IH |].
  apply Forall_row_le_zip. exact Hall.
Qed.

Lemma forget_zip (l : list row) (vs : list (option T)) :
  length vs = length l ->
  List.map (fun r => set_prochain r None) (zip_with set_prochain l vs)
  = List.map (fun r => set_prochain r None) l.
Proof.
  revert vs. induction l as [| r l IH]; intros [| v vs] Hlen; simpl in *;
    try discriminate; [reflexivity |].
  rewrite IH by lia. reflexivity.
Qed.

Lemma shifted_lookup (l : list row) :
  forall i r,
    zip_with set_prochain l (following_departure l) !! i = Some r ->
    match zip_with set_prochain l (following_departure l) !! S i with
    | Some r' =>
        prochain_service r
        = if decide (newIdVeh r' = newIdVeh r) then Some (hDep r') else None
    | None => prochain_service r = None
    end.
Proof.
  induction l as [| a l IH]; intros i r; simpl; [discriminate |].
  destruct i as [| i]; simpl.
  - intros [= <-]. simpl.
    destruct l as [| b l]; simpl; [reflexivity |].
    unfold same_veh.
    destruct (decide (newIdVeh b = newIdVeh a)) as [e | n].
    + rewrite bool_decide_eq_true_2 by (symmetry; exact e). reflexivity.
    + rewrite bool_decide_eq_false_2; [reflexivity |].
      intros e. apply n. symmetry. exact e.
  - apply IH.
Qed.

(** C4. The enriched frame is the input frame sorted by (vehicle,
    departure), and in it every line carries the departure of the line
    that follows it when that line is of the same vehicle, and carries
    nothing when it is the last line of its vehicle. *)
Theorem add_next_service_time_spec (df : list row) :
  let out := add_next_service_time df in
  List.map (fun r => set_prochain r None) out
    ≡ₚ List.map (fun r => set_prochain r None) df
  /\ StronglySorted row_le out
  /\ forall i r,
       out !! i = Some r ->
       match out !! S i with
       | Some r' =>
           prochain_service r
           = if decide (newIdVeh r' = newIdVeh r) then Some (hDep r')
             else None
       | None => prochain_service r = None
       end.
Proof.
  unfold add_next_service_time.
  pose proof (sort_values_sorted df) as Hs.
  rewrite (group_shift_sorted _ Hs).
  split; [| split].
  - rewrite forget_zip by apply following_departure_length.
    rewrite sort_values_perm. reflexivity.
  - apply sorted_zip. exact Hs.
  - apply shifted_lookup.
Qed.

Lemma in_sort_values (df : list row) (r : row) :
  In r (sort_values df) <-> In r df.
Proof.
  split; apply Permutation_in;
    [apply sort_values_perm | symmetry; apply sort_values_perm].
Qed.

Lemma max0_nonneg (x : Q) : (0 <= max0 x)%Q.
Proof.
  unfold max0. destruct (Qlt_le_dec x 0); [apply Qle_refl | assumption].
Qed.

(** The state of charge after one service, as a function of the line
    alone and of the parameters of the run. *)
Definition soc_after (conso_table capacity_table : table) (soc_cible : Q)
    (projection : Z) (r : row) : Q :=
  max0 (soc_cible - delta_soc conso_table capacity_table projection r).

Lemma compute_soc_rows (df : list row) (conso_table capacity_table : table)
    (soc_cible : Q) (projection : Z) :
  let out := compute_soc df conso_table soc_cible projection capacity_table in
  (forall r, In r df ->
     In (set_soc r (soc_after conso_table capacity_table soc_cible projection r))
        out)
  /\ (forall r', In r' out ->
        exists r, In r df
          /\ r' = set_soc r
                    (soc_after conso_table capacity_table soc_cible projection r))
  /\ length out = length df
  /\ (forall r' q, In r' out -> soc_retour r' = Some q -> (0 <= q)%Q).
Proof.
  unfold compute_soc. fold (soc_after conso_table capacity_table soc_cible projection).
  split; [| split; [| split]].
  - intros r Hr. apply List.in_map_iff. exists r.
    split; [reflexivity | apply in_sort_values; exact Hr].
  - intros r' Hr'. apply List.in_map_iff in Hr' as [r [<- Hr]].
    exists r. split; [apply in_sort_values; exact Hr | reflexivity].
  - rewrite List.length_map. apply Permutation_length, sort_values_perm.
  - intros r' q Hr' Hq. apply List.in_map_iff in Hr' as [r [<- Hr]].
    simpl in Hq. injection Hq as <-. apply max0_nonneg.
Qed.

Lemma delta_soc_formula (conso_table capacity_table : table)
    (projection : Z) (r : row) :
  let modele := Str.strip (tVeh r) in
  let consumption := table_get conso_table projection modele in
  let capacity := table_get capacity_table projection modele in
  let distance := try_except (Num.py_float (dist r)) 0%Q in
  (~ (capacity == 0)%Q ->
     delta_soc conso_table capacity_table projection r
     = ((consumption * distance) / capacity * 100)%Q)
  /\ ((capacity == 0)%Q ->
      delta_soc conso_table capacity_table projection r = 0%Q).
Proof.
  unfold delta_soc. simpl.
  destruct (Qeq_bool (table_get capacity_table projection (Str.strip (tVeh r))) 0)
    eqn:E; simpl.
  - apply Qeq_bool_iff in E. split; [intros Hn; contradiction | reflexivity].
  - apply Qeq_bool_neq in E. split; [reflexivity | intros He; contradiction].
Qed.

End TransformerProps.

Lemma string_ltb_lt (a b : string) :
  String.ltb a b = true <-> OrderedTypeEx.String_as_OT.lt a b.
Proof.
  unfold String.ltb.
  rewrite <- OrderedTypeEx.String_as_OT.cmp_lt.
  unfold OrderedTypeEx.String_as_OT.cmp.
  destruct (String.compare a b); split; intro; congruence.
Qed.

Lemma string_trichotomy (a b : string) :
  OrderedTypeEx.String_as_OT.lt a b \/ a = b \/ OrderedTypeEx.String_as_OT.lt b a.
Proof.
  destruct (String.compare a b) eqn:E.
  - right; left. apply String.compare_eq_iff; exact E.
  - left. apply OrderedTypeEx.String_as_OT.cmp_lt. exact E.
  - right; right. apply OrderedTypeEx.String_as_OT.cmp_lt.
    unfold OrderedTypeEx.String_as_OT.cmp.
    rewrite String.compare_antisym, E. reflexivity.
Qed.

Lemma string_lt_irrefl (a : string) : ~ OrderedTypeEx.String_as_OT.lt a a.
Proof.
  intro Hlt. exact (OrderedTypeEx.String_as_OT.lt_not_eq a a Hlt eq_refl).
Qed.

Definition string_leb (a b : string) : bool := negb (String.ltb b a).

Lemma string_leb_le (a b : string) :
  string_leb a b = true <-> ~ OrderedTypeEx.String_as_OT.lt b a.
Proof.
  unfold string_leb. rewrite negb_true_iff, <- not_true_iff_false.
  rewrite string_ltb_lt. reflexivity.
Qed.

(** Python compares strings by code point, lexicographically. *)
#[export] Program Instance string_Ord : Ord string := {| leb := string_leb |}.
Next Obligation.
  intros x y. rewrite !string_leb_le.
  destruct (string_trichotomy x y) as [Hlt | [-> | Hlt]].
  - left. intro Hyx.
    exact (string_lt_irrefl _ (OrderedTypeEx.String_as_OT.lt_trans _ _ _ Hlt Hyx)).
  - left. apply string_lt_irrefl.
  - right. intro Hxy.
    exact (string_lt_irrefl _ (OrderedTypeEx.String_as_OT.lt_trans _ _ _ Hlt Hxy)).
Qed.
Next Obligation.
  intros x y z. rewrite !string_leb_le. intros Hxy Hyz Hzx.
  destruct (string_trichotomy x y) as [Hlt | [-> | Hlt]]; auto.
  apply Hyz. exact (OrderedTypeEx.String_as_OT.lt_trans _ _ _ Hzx Hlt).
Qed.
Next Obligation.
  intros x y. rewrite !string_leb_le. intros Hxy Hyx.
  destruct (string_trichotomy x y) as [Hlt | [-> | Hlt]]; tauto.
Qed.

(** The frame of the repository's test of [compute_soc]. *)
Definition soc_test_frame : list (row string Z) :=
  [ mkrow 0 "A" 1 "P" (PInt 10) None None;
    mkrow 1 "A" 2 "P" (PInt 20) None None;
    mkrow 2 "B" 1 "T" (PInt 5) None None ].

Definition soc_test_conso : table :=
  {[ (0, "P") := 1%Q; (0, "T") := 2%Q ]}.
Definition soc_test_capacities : table :=
  {[ (0, "P") := 1000%Q; (0, "T") := 1000%Q ]}.

Definition soc_eq (r : row string Z) (q : Q) : Prop :=
  match soc_retour r with Some v => (v == q)%Q | None => False end.

Example compute_soc_basic :
  Forall2 soc_eq
    (compute_soc soc_test_frame soc_test_conso 100 0 soc_test_capacities)
    [99%Q; 98%Q; 99%Q].
Proof. repeat constructor. Qed.

Example add_next_service_time_basic :
  List.map prochain_service
    (add_next_service_time
       [ mkrow 0 "A" 800 "P" PNone None None;
         mkrow 1 "A" 1200 "P" PNone None None;
         mkrow 2 "B" 900 "T" PNone None None ])
  = [Some 1200; None; None].
Proof. reflexivity. Qed.

(** C1. Every line of the frame receives, whatever the other lines are,
    [soc_after = max(target_soc - delta, 0)]: the difference itself when
    it is not negative and [0] when it is, so never a negative value.
    [delta] is [consumption * distance / capacity * 100] for the
    looked-up values of the line's own model, or [0] when the looked-up
    capacity is zero.  The three sample values of the design document
    follow, and a distance of 2000 with the same tables, whose
    difference is -100, gives 0. *)
Theorem compute_soc_spec :
  (forall (K T : Type) (OrdK : Ord K) (OrdT : Ord T) (df : list (row K T))
          (conso_table capacity_table : table) (target_soc : Q)
          (proj : Z),
     let out := compute_soc df conso_table target_soc proj capacity_table in
     let consumption r := table_get conso_table proj (Str.strip (tVeh r)) in
     let capacity r := table_get capacity_table proj (Str.strip (tVeh r)) in
     let distance r := try_except (Num.py_float (dist r)) 0%Q in
     let delta r :=
       if Qeq_bool (capacity r) 0 then 0%Q
       else ((consumption r * distance r) / capacity r * 100)%Q in
     let is_soc_after r (q : Q) :=
       ((target_soc - delta r < 0)%Q -> q = 0%Q)
       /\ ((0 <= target_soc - delta r)%Q -> q = (target_soc - delta r)%Q)
       /\ (0 <= q)%Q in
     (forall r, In r df ->
        exists q, is_soc_after r q /\ In (set_soc r q) out)
     /\ (forall r', In r' out ->
           exists r q, In r df /\ is_soc_after r q /\ r' = set_soc r q)
     /\ length out = length df)
  /\ Forall2 soc_eq
       (compute_soc [mkrow 0 "A" 1 "P" (PInt 10) None None]
          {[ (0, "P") := 1%Q ]} 100 0 {[ (0, "P") := 1000%Q ]})
       [99%Q]
  /\ Forall2 soc_eq
       (compute_soc [mkrow 0 "A" 1 "P" (PInt 20) None None]
          {[ (0, "P") := 1%Q ]} 100 0 {[ (0, "P") := 1000%Q ]})
       [98%Q]
  /\ Forall2 soc_eq
       (compute_soc [mkrow 0 "A" 1 "P" (PInt 10) None None]
          {[ (0, "P") := 1%Q ]} 100 0 {[ (0, "P") := 0%Q ]})
       [100%Q]
  /\ Forall2 soc_eq
       (compute_soc [mkrow 0 "A" 1 "P" (PInt 2000) None None;
                     mkrow 1 "A" 2 "P" (PInt 10) None None]
          {[ (0, "P") := 1%Q ]} 100 0 {[ (0, "P") := 1000%Q ]})
       [0%Q; 99%Q].
Proof.
  split.
  - intros K T OrdK OrdT df conso_table capacity_table target_soc proj
           out consumption capacity distance delta is_soc_after.
    assert (Hd : forall r,
               delta r = delta_soc conso_table capacity_table proj r).
    { intros r. unfold delta, delta_soc, capacity, consumption, distance.
      destruct (Qeq_bool _ 0); reflexivity. }
    assert (Hclamp : forall r,
               is_soc_after r
                 (soc_after conso_table capacity_table target_soc proj r)).
    { intros r. unfold is_soc_after, soc_after. rewrite Hd.
      split; [| split; [| apply max0_nonneg]]; unfold max0;
        destruct (Qlt_le_dec _ 0) as [Hlt | Hge]; intros Hx;
        try reflexivity.
      - exfalso. exact (Qlt_not_le _ _ Hx Hge).
      - exfalso. exact (Qlt_not_le _ _ Hlt Hx). }
    destruct (compute_soc_rows df conso_table capacity_table target_soc proj)
      as (H1 & H2 & H3 & _).
    split; [| split].
    + intros r Hr. eexists. split; [apply Hclamp | exact (H1 r Hr)].
    + intros r' Hr'. destruct (H2 r' Hr') as [r [Hr ->]].
      exists r. eexists. split; [exact Hr |]. split; [apply Hclamp | reflexivity].
    + exact H3.
  - repeat split; repeat constructor.
Qed.

(** ** Record Mapper *)

Lemma rbind_ok {A B} (m : res A) (k : A -> res B) (b : B) :
  rbind m k = Ok b -> exists a, m = Ok a /\ k a = Ok b.
Proof.
  destruct m as [a | c msg]; simpl; [| discriminate].
  intros H. exists a. split; [reflexivity | exact H].
Qed.

Lemma dict_get_set_eq (d : pydict) (k : string) (v : pyval) :
  Dict.get (Dict.set d k v) k = Some v.
Proof.
  induction d as [| [k' v'] d IH]; simpl.
  - rewrite String.eqb_refl. reflexivity.
  - destruct (String.eqb k k') eqn:E; simpl; rewrite E; [reflexivity | exact IH].
Qed.

Lemma dict_get_set_ne (d : pydict) (k k' : string) (v : pyval) :
  k' <> k -> Dict.get (Dict.set d k v) k' = Dict.get d k'.
Proof.
  intros Hne. induction d as [| [k1 v1] d IH]; simpl.
  - destruct (String.eqb k' k) eqn:E; [| reflexivity].
    apply String.eqb_eq in E. contradiction.
  - destruct (String.eqb k k1) eqn:E; simpl.
    + apply String.eqb_eq in E. subst k1.
      destruct (String.eqb k' k) eqn:E'; [| reflexivity].
      apply String.eqb_eq in E'. contradiction.
    + rewrite IH. reflexivity.
Qed.

Lemma setitem_ok (obj : pyval) (k : string) (v obj' : pyval) :
  setitem obj k v = Ok obj' ->
  exists d, obj = PDict d /\ obj' = PDict (Dict.set d k v).
Proof.
  destruct obj; simpl; try discriminate.
  intros [= <-]. eexists. split; reflexivity.
Qed.

Lemma setitem_get_eq (obj : pyval) (k : string) (v obj' : pyval) :
  setitem obj k v = Ok obj' -> getitem obj' k = Ok v.
Proof.
  intros H. apply setitem_ok in H as [d [-> ->]]. simpl.
  rewrite dict_get_set_eq. reflexivity.
Qed.

Lemma setitem_get_ne (obj : pyval) (k k' : string) (v obj' : pyval) :
  setitem obj k v = Ok obj' -> k' <> k -> getitem obj' k' = getitem obj k'.
Proof.
  intros H Hne. apply setitem_ok in H as [d [-> ->]]. simpl.
  rewrite dict_get_set_ne by exact Hne. reflexivity.
Qed.

(** Reading a field of the configuration block and of the vehicle of a
    document *)
Definition config_field (doc : pyval) (k : string) : res pyval :=
  let* c := getitem doc "configuration" in getitem c k.

Definition vehicle_field (doc : pyval) (k : string) : res pyval :=
  let* vs := getitem doc "vehicules" in
  let* v := getitem0 vs in
  getitem v k.

Ltac bind_step H :=
  match type of H with
  | rbind _ _ = Ok _ =>
      let a := fresh "x" in
      let Ha := fresh "Hx" in
      apply rbind_ok in H; destruct H as [a [Ha H]]
  end.

Lemma opt_setitem_get_ne {A} (o : option A) (obj obj' : pyval)
    (k k' : string) (f : A -> pyval) :
  match o with Some a => setitem obj k (f a) | None => Ok obj end = Ok obj' ->
  k' <> k -> getitem obj' k' = getitem obj k'.
Proof.
  destruct o as [a |]; intros H Hne.
  - exact (setitem_get_ne _ _ _ _ _ H Hne).
  - injection H as <-. reflexivity.
Qed.

Lemma res_setitem_get_ne {A} (o : res A) (obj obj' : pyval)
    (k k' : string) (f : A -> pyval) :
  match o with Ok a => setitem obj k (f a) | Raise _ _ => Ok obj end = Ok obj' ->
  k' <> k -> getitem obj' k' = getitem obj k'.
Proof.
  destruct o as [a | c m]; intros H Hne.
  - exact (setitem_get_ne _ _ _ _ _ H Hne).
  - injection H as <-. reflexivity.
Qed.

Ltac bind_as H a Ha :=
  apply rbind_ok in H; destruct H as [a [Ha H]].

(** What a successful call of [map_record] has computed. *)
Lemma map_record_inv (E : env) (record : pydict) (template : pyval)
    (P : params) (doc : pyval) :
  map_record E record template P = Ok doc ->
  exists min_jour max_jour configuration vehicule,
    jour_dep_bounds (resultat_rows E) = Ok (min_jour, max_jour)
    /\ getitem doc "choix_optim" = Ok (choix_optim P)
    /\ getitem doc "configuration" = Ok configuration
    /\ getitem doc "vehicules" = Ok (PList [vehicule])
    /\ (is_none (start_dt P) = false ->
        exists s, debutOptim_value min_jour (start_dt P) = Ok s
                  /\ getitem configuration "debutOptim" = Ok (PStr s))
    /\ getitem vehicule "soc" = Ok (PInt (soc_value record))
    /\ exists ds,
         debutService_value record configuration (temps_chargement P)
           (default_debut_service P) = Ok ds
         /\ forall s, ds = Some s ->
                      getitem vehicule "debutService" = Ok (PStr s).
Proof.
  unfold map_record. intros H.
  bind_as H data0 Hdata0.
  bind_as H cfg0 Hcfg0.
  bind_as H cfg1 Hcfg1.
  bind_as H cfg2 Hcfg2.
  bind_as H cfg3 Hcfg3.
  bind_as H cfg4 Hcfg4.
  bind_as H cfg5 Hcfg5.
  bind_as H bounds Hbounds.
  destruct bounds as [min_jour max_jour].
  bind_as H cfg6 Hcfg6.
  bind_as H configuration Hcfg7.
  bind_as H data1 Hdata1.
  bind_as H srcs Hsrcs.
  bind_as H data2 Hdata2.
  bind_as H vehs Hvehs.
  bind_as H veh_template Hvt.
  bind_as H tveh Htveh.
  bind_as H veh0 Hveh0.
  bind_as H veh1 Hveh1.
  bind_as H veh2 Hveh2.
  bind_as H veh3 Hveh3.
  bind_as H veh4 Hveh4.
  bind_as H veh5 Hveh5.
  bind_as H veh6 Hveh6.
  bind_as H veh7 Hveh7.
  bind_as H ds Hds.
  bind_as H veh8 Hveh8.
  bind_as H veh9 Hveh9.
  bind_as H cur_debut Hcur.
  bind_as H vehicule Hveh10.
  exists min_jour, max_jour, configuration, vehicule.
  split; [exact Hbounds |].
  split.
  { rewrite (setitem_get_ne _ _ "choix_optim" _ _ H) by discriminate.
    rewrite (setitem_get_ne _ _ "choix_optim" _ _ Hdata2) by discriminate.
    rewrite (setitem_get_ne _ _ "choix_optim" _ _ Hdata1) by discriminate.
    exact (setitem_get_eq _ _ _ _ Hdata0). }
  split.
  { rewrite (setitem_get_ne _ _ "configuration" _ _ H) by discriminate.
    rewrite (setitem_get_ne _ _ "configuration" _ _ Hdata2) by discriminate.
    exact (setitem_get_eq _ _ _ _ Hdata1). }
  split; [exact (setitem_get_eq _ _ _ _ H) |].
  split.
  { intros Hstart. rewrite Hstart in Hcfg6.
    bind_as Hcfg6 s Hs. exists s. split; [exact Hs |].
    destruct (is_none (end_dt P)).
    - injection Hcfg7 as <-. exact (setitem_get_eq _ _ _ _ Hcfg6).
    - bind_as Hcfg7 s' Hs'.
      rewrite (setitem_get_ne _ _ "debutOptim" _ _ Hcfg7) by discriminate.
      exact (setitem_get_eq _ _ _ _ Hcfg6). }
  assert (Hfin : forall k, k <> "finService" ->
                           getitem veh7 k = getitem veh6 k).
  { intros k Hk. destruct (_dt (Dict.get record "hFin")).
    - bind_as Hveh7 fs Hfs. exact (setitem_get_ne _ _ k _ _ Hveh7 Hk).
    - exact (setitem_get_ne _ _ k _ _ Hveh7 Hk). }
  split.
  { rewrite (setitem_get_ne _ _ "soc" _ _ Hveh10) by discriminate.
    rewrite (opt_setitem_get_ne _ _ _ _ "soc" PStr Hveh9) by discriminate.
    rewrite (opt_setitem_get_ne _ _ _ _ "soc" PStr Hveh8) by discriminate.
    rewrite Hfin by discriminate.
    rewrite (res_setitem_get_ne _ _ _ _ "soc" PInt Hveh6) by discriminate.
    rewrite (setitem_get_ne _ _ "soc" _ _ Hveh5) by discriminate.
    exact (setitem_get_eq _ _ _ _ Hveh4). }
  exists ds. split; [exact Hds |].
  intros s ->.
  rewrite (setitem_get_ne _ _ "debutService" _ _ Hveh10) by discriminate.
  rewrite (opt_setitem_get_ne _ _ _ _ "debutService" PStr Hveh9) by discriminate.
  exact (setitem_get_eq _ _ _ _ Hveh8).
Qed.

(** The surroundings of the examples: empty lookup tables and battery
    profile, the two-line result file of [sample_rows], no
    infrastructure.  The text that [json.dumps] produces for [libelle]
    plays no part in them. *)
Definition test_env : env :=
  mkenv ∅ ∅ ∅ [] sample_rows None 0 0 (fun _ => "{}") (fun _ => "").

(** The default values of the keyword arguments of [map_record] *)
Definition default_params : params :=
  mkparams 0 15 30 0 (Some "false") (Some 5%Q) None 10 PNone PNone
           (Some 30) (Some 45) None (PStr "") (PStr "2050-01-01T23:59:59Z").

Definition result_or_none (m : res pyval) : pyval :=
  match m with Ok v => v | Raise _ _ => PNone end.

Lemma vehicle_field_of (doc vehicule : pyval) (k : string) :
  getitem doc "vehicules" = Ok (PList [vehicule]) ->
  vehicle_field doc k = getitem vehicule k.
Proof. intros H. unfold vehicle_field. rewrite H. reflexivity. Qed.

Lemma config_field_of (doc configuration : pyval) (k : string) :
  getitem doc "configuration" = Ok configuration ->
  config_field doc k = getitem configuration k.
Proof. intros H. unfold config_field. rewrite H. reflexivity. Qed.

(** *** The [soc] field *)

(** [int(v)], or [0] when [int] raises *)
Definition int_or_zero (v : pyval) : Z := try_except (Num.py_int v) 0.

Definition record_soc_retour_42 : pydict :=
  [("newIdVeh", PStr "1"); ("seqVoy", PStr "1"); ("soc_retour", PInt 42)].

Definition record_soc_retour_98_5 : pydict :=
  [("newIdVeh", PStr "1"); ("seqVoy", PStr "1");
   ("soc_retour", PFloat (197 # 2))].

Example map_record_uses_soc_retour :
  (let* doc := map_record test_env record_soc_retour_42 DEFAULT_TEMPLATE
                 default_params in
   vehicle_field doc "soc") = Ok (PInt 42).
Proof. vm_compute. reflexivity. Qed.

(** C8, as stated, fails: a returned SOC of 98.5 is mapped to 98. *)
Lemma soc_field_truncates :
  Dict.get record_soc_retour_98_5 "soc_retour" = Some (PFloat (197 # 2))
  /\ (let* doc := map_record test_env record_soc_retour_98_5 DEFAULT_TEMPLATE
                    default_params in
      vehicle_field doc "soc") = Ok (PInt 98)
  /\ ~ (inject_Z 98 == 197 # 2)%Q.
Proof.
  split; [reflexivity |]. split; [vm_compute; reflexivity |].
  intros H. vm_compute in H. discriminate H.
Qed.

(** The two SOC keys of the record play no part in whether [map_record]
    returns: [int()] of their values is guarded, and nothing else reads
    them. *)
Lemma map_record_soc_irrelevant (E : env) (r1 r2 : pydict) (template : pyval)
    (P : params) (doc1 : pyval) :
  (forall k, k <> "soc_retour" -> k <> "soc" -> Dict.get r2 k = Dict.get r1 k) ->
  map_record E r1 template P = Ok doc1 ->
  exists doc2, map_record E r2 template P = Ok doc2.
Proof.
  intros Hagree H.
  assert (Hid : new_id_of E r2 = new_id_of E r1).
  { unfold new_id_of, Dict.get_default. rewrite Hagree by discriminate.
    reflexivity. }
  assert (Htv : tveh_of r2 = tveh_of r1).
  { unfold tveh_of. rewrite Hagree by discriminate. reflexivity. }
  assert (Hsc : socCible_value r2 (soc_cible P)
                = socCible_value r1 (soc_cible P)).
  { unfold socCible_value, Dict.get_default. rewrite Hagree by discriminate.
    reflexivity. }
  assert (Hhf : Dict.get r2 "hFin" = Dict.get r1 "hFin")
    by (apply Hagree; discriminate).
  assert (Hdi : Dict.get_default r2 "dist" PNone
                = Dict.get_default r1 "dist" PNone).
  { unfold Dict.get_default. rewrite Hagree by discriminate. reflexivity. }
  assert (Hdsv : forall c tc d, debutService_value r2 c tc d
                                = debutService_value r1 c tc d).
  { intros c tc d. unfold debutService_value.
    rewrite !Hagree by discriminate. reflexivity. }
  unfold map_record in H.
  bind_as H data0 Hdata0. bind_as H cfg0 Hcfg0. bind_as H cfg1 Hcfg1.
  bind_as H cfg2 Hcfg2. bind_as H cfg3 Hcfg3. bind_as H cfg4 Hcfg4.
  bind_as H cfg5 Hcfg5. bind_as H bounds Hbounds.
  destruct bounds as [min_jour max_jour].
  bind_as H cfg6 Hcfg6. bind_as H configuration Hcfg7.
  bind_as H data1 Hdata1. bind_as H srcs Hsrcs. bind_as H data2 Hdata2.
  bind_as H vehs Hvehs. bind_as H veh_template Hvt. bind_as H tveh Htveh.
  bind_as H veh0 Hveh0. bind_as H veh1 Hveh1. bind_as H veh2 Hveh2.
  bind_as H veh3 Hveh3. bind_as H veh4 Hveh4. bind_as H veh5 Hveh5.
  bind_as H veh6 Hveh6. bind_as H veh7 Hveh7. bind_as H ds Hds.
  bind_as H veh8 Hveh8. bind_as H veh9 Hveh9. bind_as H cur_debut Hcur.
  bind_as H vehicule Hveh10.
  unfold map_record. cbv zeta.
  rewrite Hid, Htv, Hsc, Hhf, Hdi.
  rewrite Hdata0. cbn [rbind]. rewrite Hcfg0. cbn [rbind].
  rewrite Hcfg1. cbn [rbind]. rewrite Hcfg2. cbn [rbind].
  rewrite Hcfg3. cbn [rbind]. rewrite Hcfg4. cbn [rbind].
  rewrite Hcfg5. cbn [rbind]. rewrite Hbounds. cbn [rbind].
  rewrite Hcfg6. cbn [rbind]. rewrite Hcfg7. cbn [rbind].
  rewrite Hdata1. cbn [rbind]. rewrite Hsrcs. cbn [rbind].
  rewrite Hdata2. cbn [rbind]. rewrite Hvehs. cbn [rbind].
  rewrite Hvt. cbn [rbind]. rewrite Htveh. cbn [rbind].
  rewrite Hveh0. cbn [rbind]. rewrite Hveh1. cbn [rbind].
  rewrite Hveh2. cbn [rbind]. rewrite Hveh3. cbn [rbind].
  rewrite Hdsv, Hds.
  apply setitem_ok in Hveh4 as (d3 & -> & _).
  apply setitem_ok in H as (dd & -> & _).
  cbn [setitem rbind].
  destruct (Num.py_int (Dict.get_default r1 "dist" PNone)) as [dist_val | c m];
    cbn [setitem rbind];
    (destruct (_dt (Dict.get r1 "hFin")) as [h |];
     [apply rbind_ok in Hveh7; destruct Hveh7 as [fs [Hfs Hveh7]]; rewrite Hfs
     |]);
    cbn [setitem rbind];
    destruct ds as [s |]; cbn [setitem rbind];
    destruct (new_id_of E r1) as [id |]; cbn [setitem rbind py_get];
    eexists; reflexivity.
Qed.

Definition record_soc_retour_text : pydict :=
  [("newIdVeh", PStr "1"); ("seqVoy", PStr "1"); ("soc_retour", PStr "abc")].

Definition record_without_soc : pydict :=
  [("newIdVeh", PStr "1"); ("seqVoy", PStr "1")].

(** C8, amended. The mapped [soc] is [int()] of the returned SOC when
    the record has that key, else [int()] of the pre-existing SOC when
    the record has that key, else [0]; [int()] keeps integers,
    truncates floats toward zero and reads integer literals, and a
    value that [int()] rejects gives [0] instead of an exception:
    whether [map_record] returns does not depend on the values under
    the two SOC keys, and when it returns, [soc] is as said. *)
Theorem soc_field_spec (E : env) (record : pydict) (template : pyval)
    (P : params) :
  (forall doc,
     map_record E record template P = Ok doc ->
     vehicle_field doc "soc"
     = Ok (PInt match Dict.get record "soc_retour" with
                | Some v => int_or_zero v
                | None =>
                    match Dict.get record "soc" with
                    | Some v => int_or_zero v
                    | None => 0
                    end
                end))
  /\ (forall z, int_or_zero (PInt z) = z)
  /\ (forall q, int_or_zero (PFloat q) = Num.trunc q)
  /\ (forall s z, Num.parse_int s = Some z -> int_or_zero (PStr s) = z)
  /\ (forall v, is_ok (Num.py_int v) = false -> int_or_zero v = 0)
  /\ (forall record',
        (forall k, k <> "soc_retour" -> k <> "soc" ->
                   Dict.get record' k = Dict.get record k) ->
        is_ok (map_record E record' template P)
        = is_ok (map_record E record template P)).
Proof.
  split; [| split; [| split; [| split; [| split]]]].
  - intros doc H.
    destruct (map_record_inv E record template P doc H)
      as (mn & mx & cfg & veh & _ & _ & _ & Hveh & _ & Hsoc & _).
    rewrite (vehicle_field_of doc veh "soc" Hveh), Hsoc.
    unfold soc_value, Dict.get_default, int_or_zero.
    destruct (Dict.get record "soc_retour"); [reflexivity |].
    destruct (Dict.get record "soc"); reflexivity.
  - reflexivity.
  - reflexivity.
  - intros s z Hs. unfold int_or_zero. simpl. rewrite Hs. reflexivity.
  - intros v Hv. unfold int_or_zero.
    destruct (Num.py_int v); [discriminate | reflexivity].
  - intros record' Hagree.
    destruct (map_record E record template P) as [doc | c m] eqn:H;
      destruct (map_record E record' template P) as [doc' | c' m'] eqn:H';
      try reflexivity; exfalso.
    + destruct (map_record_soc_irrelevant E record record' template P doc
                  Hagree H) as [doc2 H2]. congruence.
    + destruct (map_record_soc_irrelevant E record' record template P doc'
                  (fun k H1 H2 => eq_sym (Hagree k H1 H2)) H') as [doc2 H2].
      congruence.
Qed.

Lemma soc_field_spec_witness :
  is_ok (map_record test_env record_soc_retour_text DEFAULT_TEMPLATE
           default_params) = true
  /\ vehicle_field
       (result_or_none
          (map_record test_env record_soc_retour_text DEFAULT_TEMPLATE
             default_params)) "soc"
     = Ok (PInt 0)
  /\ vehicle_field
       (result_or_none
          (map_record test_env record_soc_retour_98_5 DEFAULT_TEMPLATE
             default_params)) "soc"
     = Ok (PInt (Num.trunc (197 # 2))).
Proof.
  split; [| split].
  - destruct (soc_field_spec test_env record_without_soc DEFAULT_TEMPLATE
                default_params) as (_ & _ & _ & _ & _ & Hsame).
    rewrite (Hsame record_soc_retour_text); [vm_compute; reflexivity |].
    intros k H1 H2. simpl.
    destruct (String.eqb k "newIdVeh"); [reflexivity |].
    destruct (String.eqb k "seqVoy"); [reflexivity |].
    destruct (String.eqb k "soc_retour") eqn:Ek; [| reflexivity].
    apply String.eqb_eq in Ek. contradiction.
  - destruct (soc_field_spec test_env record_soc_retour_text DEFAULT_TEMPLATE
                default_params) as (Hsoc & _).
    apply Hsoc. vm_compute. reflexivity.
  - destruct (soc_field_spec test_env record_soc_retour_98_5 DEFAULT_TEMPLATE
                default_params) as (Hsoc & _).
    apply Hsoc. vm_compute. reflexivity.
Defined.

(** ** Facts about the date-time model *)

Module DTFacts.

Import DT.

(** Month and day are in range; the year is unconstrained. *)
Definition valid_md (d : date) : Prop :=
  1 <= month d <= 12 /\ 1 <= day d <= days_in_month (year d) (month d).

Definition valid_time (d : datetime) : Prop :=
  0 <= hour d <= 23 /\ 0 <= minute d <= 59 /\ 0 <= second d <= 59
  /\ 0 <= microsecond d <= 999999.

Lemma valid_dateb_spec (d : date) :
  valid_dateb d = true <-> (1 <= year d <= 9999 /\ valid_md d).
Proof.
  unfold valid_dateb, valid_md.
  rewrite !andb_true_iff, !Z.leb_le. tauto.
Qed.

Lemma valid_timeb_spec (d : datetime) :
  valid_timeb (hour d) (minute d) (second d) (microsecond d) = true
  <-> valid_time d.
Proof.
  unfold valid_timeb, valid_time.
  rewrite !andb_true_iff, !Z.leb_le. tauto.
Qed.

Lemma validb_spec (d : datetime) :
  validb d = true
  <-> (1 <= year (dt_date d) <= 9999 /\ valid_md (dt_date d) /\ valid_time d).
Proof.
  unfold validb. rewrite andb_true_iff, valid_dateb_spec, valid_timeb_spec.
  tauto.
Qed.

Lemma days_in_month_bounds (y m : Z) : 28 <= days_in_month y m <= 31.
Proof.
  unfold days_in_month.
  destruct (m =? 2); [destruct (is_leap y); lia |].
  destruct ((m =? 4) || (m =? 6) || (m =? 9) || (m =? 11)); lia.
Qed.

Lemma next_day_valid (d : date) : valid_md d -> valid_md (next_day d).
Proof.
  unfold valid_md, next_day. intros [Hm Hd].
  destruct (day d <? days_in_month (year d) (month d)) eqn:E1; simpl.
  - apply Z.ltb_lt in E1. lia.
  - destruct (month d <? 12) eqn:E2; simpl.
    + apply Z.ltb_lt in E2.
      pose proof (days_in_month_bounds (year d) (month d + 1)). lia.
    + pose proof (days_in_month_bounds (year d + 1) 1). lia.
Qed.

Lemma prev_day_valid (d : date) : valid_md d -> valid_md (prev_day d).
Proof.
  unfold valid_md, prev_day. intros [Hm Hd].
  destruct (1 <? day d) eqn:E1; simpl.
  - apply Z.ltb_lt in E1. lia.
  - destruct (1 <? month d) eqn:E2; simpl.
    + apply Z.ltb_lt in E2.
      pose proof (days_in_month_bounds (year d) (month d - 1)). lia.
    + split; [lia |]. vm_compute. split; discriminate.
Qed.

Lemma shift_days_valid (n : Z) (d : date) :
  valid_md d -> valid_md (shift_days n d).
Proof.
  intros H. destruct n as [| p | p]; simpl; [exact H | |];
    apply Pos.iter_invariant; auto using next_day_valid, prev_day_valid.
Qed.

Lemma of_day_us_time (d : date) (us : Z) :
  0 <= us < us_per_day -> valid_time (of_day_us d us).
Proof.
  unfold us_per_day, us_per_second, valid_time, of_day_us; simpl.
  unfold us_per_second. intros H.
  repeat split; Z.div_mod_to_equations; lia.
Qed.

Lemma us_of_day_bounds (d : datetime) :
  valid_time d -> 0 <= us_of_day d < us_per_day.
Proof.
  unfold valid_time, us_of_day, us_per_day, us_per_second. lia.
Qed.

Lemma of_day_us_of_day (d : datetime) :
  valid_time d -> of_day_us (dt_date d) (us_of_day d) = d.
Proof.
  intros H. destruct d as [dd h mi s us].
  unfold valid_time, of_day_us, us_of_day, us_per_second in *. simpl in *.
  f_equal; Z.div_mod_to_equations; lia.
Qed.

Lemma add_inv (d d' : datetime) (delta : timedelta) :
  add d delta = Ok d' ->
  let total := us_of_day d + delta in
  let date' := shift_days (total / us_per_day) (dt_date d) in
  1 <= year date' <= 9999
  /\ d' = of_day_us date' (total mod us_per_day).
Proof.
  unfold add. simpl.
  destruct ((1 <=? _) && (_ <=? 9999)) eqn:E; [| discriminate].
  apply andb_true_iff in E as [E1 E2].
  apply Z.leb_le in E1, E2. intros [= <-]. split; [lia | reflexivity].
Qed.

(** Adding a duration to a valid date-time gives a valid date-time. *)
Lemma add_valid (d d' : datetime) (delta : timedelta) :
  validb d = true -> add d delta = Ok d' -> validb d' = true.
Proof.
  intros Hv Hadd. apply validb_spec in Hv as (_ & Hmd & _).
  apply add_inv in Hadd as [Hy ->]. apply validb_spec. simpl.
  split; [exact Hy |]. split; [apply shift_days_valid; exact Hmd |].
  apply of_day_us_time. apply Z.mod_pos_bound. reflexivity.
Qed.

(** Adding whole days moves the date and keeps the time of day. *)
Lemma add_days_inv (d d' : datetime) (n : Z) :
  valid_time d -> add d (td_days n) = Ok d' ->
  d' = mkdt (shift_days n (dt_date d)) (hour d) (minute d) (second d)
            (microsecond d).
Proof.
  intros Ht Hadd. apply add_inv in Hadd as [_ ->].
  pose proof (us_of_day_bounds d Ht) as Hb.
  unfold td_days.
  assert (Hq : (us_of_day d + n * us_per_day) / us_per_day = n).
  { rewrite Z.div_add by (vm_compute; discriminate).
    rewrite Z.div_small by exact Hb. reflexivity. }
  assert (Hr : (us_of_day d + n * us_per_day) mod us_per_day = us_of_day d).
  { rewrite Z.mod_add by (vm_compute; discriminate).
    apply Z.mod_small. exact Hb. }
  rewrite Hq, Hr.
  pose proof (of_day_us_of_day (mkdt (shift_days n (dt_date d)) (hour d)
                                  (minute d) (second d) (microsecond d)) Ht)
    as Hrt.
  simpl in Hrt. exact Hrt.
Qed.

End DTFacts.

(** *** Printing and parsing are inverse *)

Module IsoFacts.

Import DT.

Lemma str_app_cons (x : ascii) (a b : string) :
  String x a ++ b = String x (a ++ b).
Proof. reflexivity. Qed.

Lemma str_app_nil_l (b : string) : "" ++ b = b.
Proof. reflexivity. Qed.

Lemma str_app_assoc (a b c : string) : (a ++ b) ++ c = a ++ (b ++ c).
Proof.
  induction a as [| x a IH]; [reflexivity |].
  rewrite !str_app_cons, IH. reflexivity.
Qed.

Lemma str_app_nil_r (a : string) : a ++ "" = a.
Proof.
  induction a as [| x a IH]; [reflexivity |].
  rewrite str_app_cons, IH. reflexivity.
Qed.

Lemma digit_char_spec (d : Z) :
  0 <= d <= 9 ->
  Str.is_digit (Str.digit_char d) = true
  /\ Str.digit_val (Str.digit_char d) = d
  /\ Str.digit_char d <> "Z"%char.
Proof.
  intros H.
  assert (d = 0 \/ d = 1 \/ d = 2 \/ d = 3 \/ d = 4 \/ d = 5 \/ d = 6
          \/ d = 7 \/ d = 8 \/ d = 9) as Hc by lia.
  repeat (destruct Hc as [-> | Hc]; [repeat split; discriminate |]).
  subst d. repeat split; discriminate.
Qed.

Lemma take_digits_snoc (k : nat) :
  forall acc s,
    take_digits (k + 1) acc s
    = match take_digits k acc s with
      | Some (a, String c r) =>
          if Str.is_digit c then Some (10 * a + Str.digit_val c, r) else None
      | _ => None
      end.
Proof.
  induction k as [| k IH]; intros acc s; simpl.
  - destruct s as [| c r]; [reflexivity |].
    destruct (Str.is_digit c); reflexivity.
  - destruct s as [| c s']; [reflexivity |].
    destruct (Str.is_digit c); [| reflexivity].
    apply IH.
Qed.

Lemma take_digits_pad (k : nat) :
  forall n acc rest,
    0 <= n < 10 ^ Z.of_nat k ->
    take_digits k acc (Str.pad k n ++ rest)
    = Some (acc * 10 ^ Z.of_nat k + n, rest).
Proof.
  induction k as [| k IH]; intros n acc rest Hn.
  - simpl in *. f_equal. f_equal. lia.
  - replace (S k) with (k + 1)%nat at 1 by lia.
    rewrite take_digits_snoc.
    change (Str.pad (S k) n)
      with (Str.pad k (n / 10)
            ++ String (Str.digit_char (n mod 10)) EmptyString).
    rewrite str_app_assoc, str_app_cons, str_app_nil_l.
    rewrite Nat2Z.inj_succ, Z.pow_succ_r in Hn by lia.
    rewrite IH by (Z.div_mod_to_equations; lia).
    destruct (digit_char_spec (n mod 10)) as (Hd & Hv & _);
      [Z.div_mod_to_equations; lia |].
    rewrite Hd, Hv. f_equal. f_equal.
    rewrite Nat2Z.inj_succ, Z.pow_succ_r by lia.
    Z.div_mod_to_equations. lia.
Qed.

Lemma take_digits_pad0 (k : nat) (n : Z) (rest : string) :
  0 <= n < 10 ^ Z.of_nat k ->
  take_digits k 0 (Str.pad k n ++ rest) = Some (n, rest).
Proof. intros H. rewrite take_digits_pad by exact H. reflexivity. Qed.

Lemma parse_date_iso (d : date) (rest : string) :
  0 <= year d <= 9999 -> 0 <= month d <= 99 -> 0 <= day d <= 99 ->
  parse_date (date_iso d ++ rest) = Some (d, rest).
Proof.
  intros Hy Hm Hd. unfold parse_date, date_iso, dash.
  rewrite !str_app_assoc, !str_app_cons, !str_app_nil_l.
  rewrite take_digits_pad0 by (simpl; lia).
  cbn -[take_digits Str.pad String.append].
  rewrite take_digits_pad0 by (simpl; lia).
  cbn -[take_digits Str.pad String.append].
  rewrite take_digits_pad0 by (simpl; lia).
  destruct d; reflexivity.
Qed.

Ltac digits_step :=
  rewrite take_digits_pad0 by (simpl; lia);
  cbn -[take_digits Str.pad String.append].

Lemma parse_time_seconds (d : datetime) :
  DTFacts.valid_time d ->
  parse_time (time_iso_seconds d) = Some (hour d, minute d, second d, 0).
Proof.
  intros (Hh & Hm & Hs & _). unfold parse_time, time_iso_seconds, colon.
  rewrite <- (str_app_nil_r (Str.pad 2 (second d))).
  rewrite ?str_app_assoc, ?str_app_cons, ?str_app_nil_l.
  digits_step. digits_step. digits_step. reflexivity.
Qed.

Lemma parse_time_fraction (d : datetime) :
  DTFacts.valid_time d -> microsecond d <> 0 ->
  parse_time (time_iso_seconds d ++ "." ++ Str.pad 6 (microsecond d))
  = Some (hour d, minute d, second d, microsecond d).
Proof.
  intros (Hh & Hm & Hs & Hus) _. unfold parse_time, time_iso_seconds, colon.
  rewrite ?str_app_assoc, ?str_app_cons, ?str_app_nil_l.
  digits_step. digits_step. digits_step.
  unfold parse_fraction.
  rewrite <- (str_app_nil_r (Str.pad 6 (microsecond d))).
  rewrite take_digits_pad0 by (simpl; lia). reflexivity.
Qed.

Lemma parse_datetime_isoformat (d : datetime) :
  validb d = true -> parse_datetime (isoformat d) = Some d.
Proof.
  intros Hv. apply DTFacts.validb_spec in Hv as (Hy & [Hmo Hda] & Ht).
  pose proof (DTFacts.days_in_month_bounds (year (dt_date d)) (month (dt_date d))).
  unfold parse_datetime, isoformat, isoformat_seconds.
  destruct (microsecond d =? 0) eqn:Hus.
  - apply Z.eqb_eq in Hus.
    rewrite parse_date_iso by lia.
    cbn -[parse_time time_iso_seconds String.append].
    rewrite str_app_cons, str_app_nil_l, (parse_time_seconds d Ht).
    cbn. destruct d; simpl in *. subst. reflexivity.
  - apply Z.eqb_neq in Hus.
    rewrite !str_app_assoc, parse_date_iso by lia.
    cbn -[parse_time time_iso_seconds String.append Str.pad].
    rewrite str_app_cons, str_app_nil_l, (parse_time_fraction d Ht Hus).
    cbn. destruct d; reflexivity.
Qed.

Lemma fromisoformat_isoformat (d : datetime) :
  validb d = true -> fromisoformat (isoformat d) = Ok d.
Proof.
  intros Hv. unfold fromisoformat.
  rewrite (parse_datetime_isoformat d Hv), Hv. reflexivity.
Qed.

Lemma rstrip_by_snoc (p : ascii -> bool) (s : string) (c : ascii) :
  p c = false ->
  Str.rstrip_by p (s ++ String c "") = s ++ String c "".
Proof.
  intros Hc. induction s as [| x s IH].
  - simpl. rewrite Hc. reflexivity.
  - rewrite str_app_cons. simpl. rewrite IH.
    destruct s; reflexivity.
Qed.

Lemma pad_snoc (k : nat) (n : Z) :
  Str.pad (S k) n
  = Str.pad k (n / 10) ++ String (Str.digit_char (n mod 10)) "".
Proof. reflexivity. Qed.

Lemma rstrip_Z_pad (s : string) (k : nat) (n : Z) :
  Str.rstrip_char "Z" (s ++ Str.pad (S k) n) = s ++ Str.pad (S k) n.
Proof.
  rewrite pad_snoc, <- str_app_assoc.
  apply rstrip_by_snoc.
  destruct (digit_char_spec (n mod 10)) as (_ & _ & Hne);
    [Z.div_mod_to_equations; lia |].
  apply Ascii.eqb_neq. intros Heq. apply Hne. symmetry. exact Heq.
Qed.

Lemma rstrip_Z_isoformat (d : datetime) :
  Str.rstrip_char "Z" (isoformat d) = isoformat d.
Proof.
  unfold isoformat, isoformat_seconds, time_iso_seconds.
  destruct (microsecond d =? 0).
  - rewrite <- !str_app_assoc. apply rstrip_Z_pad.
  - rewrite <- !str_app_assoc. apply rstrip_Z_pad.
Qed.

(** A valid date-time survives [isoformat] followed by
    [parse_iso_datetime]. *)
Lemma parse_iso_datetime_isoformat (d : datetime) :
  validb d = true -> parse_iso_datetime (PStr (isoformat d)) = Ok d.
Proof.
  intros Hv. simpl. rewrite rstrip_Z_isoformat.
  apply fromisoformat_isoformat. exact Hv.
Qed.

(** What [fromisoformat] returns is valid. *)
Lemma fromisoformat_valid (s : string) (d : datetime) :
  fromisoformat s = Ok d -> validb d = true.
Proof.
  unfold fromisoformat. destruct (parse_datetime s) as [d' |]; [| discriminate].
  destruct (validb d') eqn:E; [| discriminate].
  intros [= <-]. exact E.
Qed.

End IsoFacts.

(** *** The [debutOptim] clamp *)

Lemma excel_number_valid (v : Q) (d : DT.datetime) :
  excel_number_to_datetime v = Ok d -> DT.validb d = true.
Proof.
  unfold excel_number_to_datetime. apply DTFacts.add_valid. reflexivity.
Qed.

Lemma jour_dep_bounds_valid (rows : list pydict) (mn mx : DT.datetime) :
  jour_dep_bounds rows = Ok (mn, mx) ->
  DT.validb mn = true /\ DT.validb mx = true.
Proof.
  unfold jour_dep_bounds. destruct (jour_vals rows) as [| v vs].
  - intros [= <- <-]. split; reflexivity.
  - intros H. bind_as H lo Hlo. bind_as H hi Hhi. injection H as <- <-.
    split; eapply excel_number_valid; eassumption.
Qed.

(** The end of day 23:59:59.999999 rounds to the midnight that follows. *)
Lemma round_to_second_combine_max (bound : DT.date) :
  round_to_second (DT.combine_max bound)
  = if (1 <=? DT.year (DT.next_day bound))
       && (DT.year (DT.next_day bound) <=? 9999)
    then Ok (DT.combine_min (DT.next_day bound))
    else Raise OverflowError "date value out of range".
Proof.
  unfold round_to_second, DT.add. simpl.
  destruct ((1 <=? DT.year (DT.next_day bound))
            && (DT.year (DT.next_day bound) <=? 9999)); reflexivity.
Qed.

Lemma isoformat_z_replace_us0 (d : DT.datetime) :
  isoformat_z (DT.replace_us0 d) = isoformat_z d.
Proof. reflexivity. Qed.

Definition params_with_dates (start end_ : pyval) : params :=
  mkparams 0 15 30 0 (Some "false") (Some 5%Q) None 10 start end_
           (Some 30) (Some 45) None (PStr "") (PStr "2050-01-01T23:59:59Z").

Definition record_1 : pydict := [("newIdVeh", PStr "1"); ("seqVoy", PStr "1")].

(** The repository's tests of the two bounds, on the two-line result
    file whose departures are 2024-12-17 and 2024-12-19. *)
Example map_record_sets_configuration_values :
  (let* doc := map_record test_env record_1 DEFAULT_TEMPLATE
                 (params_with_dates (PStr "2024-12-15") (PStr "2025-12-20")) in
   let* a := config_field doc "debutOptim" in
   let* b := config_field doc "finOptim" in
   Ok (a, b))
  = Ok (PStr "2024-12-15T00:00:00Z", PStr "2024-12-22T00:00:00Z").
Proof. vm_compute. reflexivity. Qed.

(** C2, as stated, fails: with departures from 2024-12-17 the floor is
    2024-12-14; a start of 2024-12-01 is earlier, and [debutOptim]
    becomes 2024-12-15 at 00:00:00, not the floor at 23:59:59. *)
Lemma debutOptim_clamp_is_next_midnight :
  jour_dep_bounds (resultat_rows test_env)
  = Ok (DT.combine_min (DT.mkdate 2024 12 17),
        DT.combine_min (DT.mkdate 2024 12 19))
  /\ DT.sub (DT.combine_min (DT.mkdate 2024 12 17)) (DT.td_days 3)
     = Ok (DT.combine_min (DT.mkdate 2024 12 14))
  /\ (let* doc := map_record test_env record_1 DEFAULT_TEMPLATE
                    (params_with_dates (PStr "2024-12-01") PNone) in
      config_field doc "debutOptim")
     = Ok (PStr "2024-12-15T00:00:00Z")
  /\ "2024-12-15T00:00:00Z" <> "2024-12-14T23:59:59Z".
Proof.
  split; [vm_compute; reflexivity |].
  split; [vm_compute; reflexivity |].
  split; [vm_compute; reflexivity | discriminate].
Qed.

(** C2, amended. With a start bound supplied, let [floor_bound] be the
    date of the minimum observed departure minus three days.  When the
    calendar date of the parsed start is earlier than [floor_bound],
    [debutOptim] is 00:00:00 of the day after [floor_bound] (the floor
    at 23:59:59.999999, rounded to the nearest second); otherwise it is
    the requested start with its microseconds rounded to the nearest
    second, 500 ms and more going up.  Either way the text has second
    precision and ends in [Z]. *)
Theorem debutOptim_spec (E : env) (record : pydict) (template : pyval)
    (P : params) (doc : pyval) :
  map_record E record template P = Ok doc ->
  is_none (start_dt P) = false ->
  exists min_jour max_jour requested floor_bound,
    jour_dep_bounds (resultat_rows E) = Ok (min_jour, max_jour)
    /\ parse_iso_datetime (start_dt P) = Ok requested
    /\ floor_bound = DT.shift_days (-3) (DT.dt_date min_jour)
    /\ (DT.date_ltb (DT.dt_date requested) floor_bound = true ->
        config_field doc "debutOptim"
        = Ok (PStr (isoformat_z (DT.combine_min (DT.next_day floor_bound)))))
    /\ (DT.date_ltb (DT.dt_date requested) floor_bound = false ->
        exists kept,
          (if 500000 <=? DT.microsecond requested
           then DT.add requested (DT.td_seconds 1) else Ok requested)
          = Ok kept
          /\ config_field doc "debutOptim" = Ok (PStr (isoformat_z kept)))
    /\ forall d,
         isoformat_z d
         = (DT.date_iso (DT.dt_date d) ++ "T"
            ++ Str.pad 2 (DT.hour d) ++ ":" ++ Str.pad 2 (DT.minute d) ++ ":"
            ++ Str.pad 2 (DT.second d)) ++ "Z".
Proof.
  intros H Hstart.
  destruct (map_record_inv E record template P doc H)
    as (mn & mx & cfg & veh & Hb & _ & Hcfg & _ & Hdebut & _).
  destruct (Hdebut Hstart) as (s & Hs & Hget).
  unfold debutOptim_value in Hs.
  bind_as Hs requested Hreq. bind_as Hs shifted Hshift.
  bind_as Hs rounded Hround. injection Hs as <-.
  destruct (jour_dep_bounds_valid _ _ _ Hb) as [Hvmn _].
  apply DTFacts.validb_spec in Hvmn as (_ & _ & Htime).
  unfold DT.sub in Hshift.
  change (- DT.td_days 3) with (DT.td_days (-3)) in Hshift.
  apply (DTFacts.add_days_inv mn shifted (-3) Htime) in Hshift.
  assert (Hdate : DT.dt_date shifted = DT.shift_days (-3) (DT.dt_date mn))
    by (rewrite Hshift; reflexivity).
  rewrite Hdate in Hround. clear Hshift Hdate.
  exists mn, mx, requested, (DT.shift_days (-3) (DT.dt_date mn)).
  split; [exact Hb |]. split; [exact Hreq |]. split; [reflexivity |].
  rewrite (config_field_of doc cfg "debutOptim" Hcfg), Hget.
  split; [| split].
  - intros Hlt. rewrite Hlt in Hround.
    rewrite round_to_second_combine_max in Hround.
    destruct (_ && _); [| discriminate].
    injection Hround as <-. reflexivity.
  - intros Hge. rewrite Hge in Hround.
    unfold round_to_second in Hround.
    bind_as Hround kept Hkept. injection Hround as <-.
    exists kept. split; [exact Hkept |].
    rewrite isoformat_z_replace_us0. reflexivity.
  - intros d. reflexivity.
Qed.

Definition doc_clamped : pyval :=
  result_or_none
    (map_record test_env record_1 DEFAULT_TEMPLATE
       (params_with_dates (PStr "2024-12-01") PNone)).

Lemma debutOptim_spec_witness :
  exists min_jour max_jour requested floor_bound,
    jour_dep_bounds sample_rows = Ok (min_jour, max_jour)
    /\ parse_iso_datetime (PStr "2024-12-01") = Ok requested
    /\ floor_bound = DT.shift_days (-3) (DT.dt_date min_jour)
    /\ (DT.date_ltb (DT.dt_date requested) floor_bound = true ->
        config_field doc_clamped "debutOptim"
        = Ok (PStr (isoformat_z (DT.combine_min (DT.next_day floor_bound))))).
Proof.
  destruct (debutOptim_spec test_env record_1 DEFAULT_TEMPLATE
              (params_with_dates (PStr "2024-12-01") PNone) doc_clamped)
    as (mn & mx & rq & fb & H1 & H2 & H3 & H4 & _).
  - vm_compute. reflexivity.
  - reflexivity.
  - exists mn, mx, rq, fb. repeat split; assumption.
Defined.

(** *** The [debutService] field *)





Lemma td_one_and_a_half_days :
  DT.td_days_q (3 # 2) = 129600 * DT.us_per_second.
Proof. reflexivity. Qed.

Definition record_with_next_service : pydict :=
  [("newIdVeh", PStr "1"); ("seqVoy", PStr "1");
   ("Heure Prochain Service", PStr "2023-06-03T12:00:00");
   ("MargeSécurité", PInt 5); ("tVeh", PStr "P")].

Definition params_chargement_20 : params :=
  mkparams 0 10 15 0 (Some "false") (Some 5%Q) None 10 PNone PNone
           (Some 20) (Some 45) None (PStr "") (PStr "2050-01-01T23:59:59Z").

Example hhmm_minutes : hhmm 10 = "00:10" /\ hhmm 135 = "02:15".
Proof. split; reflexivity. Qed.

(** The repository's test: 12:00 minus (20 + 5) minutes. *)
Example map_record_debutService_from_next_service :
  (let* doc := map_record test_env record_with_next_service DEFAULT_TEMPLATE
                 params_chargement_20 in
   vehicle_field doc "debutService") = Ok (PStr "2023-06-03T11:35:00Z").
Proof. vm_compute. reflexivity. Qed.

(** Without a next service the template's [finOptim] of
    2050-01-01T01:00:00 gives 2050-01-02T13:00:00, whatever the
    default is. *)
Example map_record_debutService_fallback :
  (let* doc := map_record test_env record_1 DEFAULT_TEMPLATE default_params in
   vehicle_field doc "debutService") = Ok (PStr "2050-01-02T13:00:00Z").
Proof. vm_compute. reflexivity. Qed.

(** An enriched next-service time that exists: a date-time, a text
    that the library reads as an ISO date-time, or a number read as an
    Excel serial number. *)
Inductive next_service : option pyval -> DT.datetime -> Prop :=
  | next_service_datetime d :
      next_service (Some (PDateTime d)) d
  | next_service_text s d :
      DT.fromisoformat s = Ok d -> next_service (Some (PStr s)) d
  | next_service_serial q d :
      excel_number_to_datetime q = Ok d -> next_service (Some (PFloat q)) d.








(** *** The schema and [choix_optim] *)

(** A document without [choix_optim] that has the six keys of the
    schema. *)
Definition document_without_choix_optim : pydict :=
  [ ("idRun", PStr "01234567891011");
    ("synthese", PList []);
    ("configuration", PDict [
       ("activationRendement", PStr "false");
       ("axeOptimDegrade", PList [PInt 1; PInt 2; PInt 3]);
       ("diminutionSOC", PInt 5);
       ("pasDeTemps", PInt 0);
       ("maximumExecTemps", PInt 10);
       ("debutOptim", PStr "2024-12-15T00:00:00Z");
       ("finOptim", PStr "2024-12-22T00:00:00Z")]);
    ("rapport", PDict [
       ("url", PStr "http://example.com");
       ("resultUrl", PStr "http://example.com/result")]);
    ("sources", PList []);
    ("vehicules", PList [PDict [
       ("id", PStr "1");
       ("capaciteBatterie", PInt 950);
       ("idPrise", PStr "TR1_CH_1_P1");
       ("libelle", PStr "{}");
       ("modeBoost", PInt 0);
       ("typeChargeur",
          PList [PDict [("modeleChargeur", PStr "TypeChargeur_valeur")]]);
       ("typePrise", PStr "CCS COMBO2");
       ("profilBatterie", PList [PDict [("x", PInt 1); ("y", PInt 1)]]);
       ("soc", PInt 42);
       ("socCible", PInt 80);
       ("dureeService", PInt 0);
       ("finService", PStr "");
       ("debutService", PStr "2023-06-03T11:35:00Z")]]) ].

(** C10. The built-in schema lists six keys and [choix_optim] is not
    one of them: a document without [choix_optim] whose six listed keys
    are present with conforming values passes [validate_json], and
    removing [choix_optim] from any document does not change the
    verdict; yet every document that [map_record] produces has the
    key. *)
Theorem validate_json_without_choix_optim (doc : pydict) :
  Dict.mem doc "choix_optim" = false ->
  (forall k sub, In (k, sub) (schema_entries SCHEMA) ->
     exists v, Dict.get doc k = Some v /\ conforms v sub) ->
  validate_json (PDict doc) = Ok tt
  /\ List.map fst (schema_entries SCHEMA)
     = ["idRun"; "synthese"; "configuration"; "rapport"; "sources";
        "vehicules"]
  /\ (forall any : pydict,
        validate_json (PDict (Dict.remove any "choix_optim"))
        = validate_json (PDict any))
  /\ (forall E record template P produced,
        map_record E record template P = Ok produced ->
        getitem produced "choix_optim" = Ok (choix_optim P)).
Proof.
  intros _ Hkeys. split; [| split; [| split]].
  - unfold validate_json. apply (validate_ok_iff SCHEMA (PDict doc) "").
    constructor. apply List.Forall_forall. intros [k sub] Hin.
    exact (Hkeys k sub Hin).
  - reflexivity.
  - intros any. unfold validate_json, SCHEMA.
    rewrite !validate_dict_eq. apply entries_loop_ext.
    intros e He. apply dict_get_remove_ne.
    simpl in He.
    repeat (destruct He as [<- | He]; [discriminate |]).
    destruct He.
  - intros E record template P produced Hm.
    destruct (map_record_inv E record template P produced Hm)
      as (mn & mx & cfg & veh & _ & Hchoix & _).
    exact Hchoix.
Qed.

Lemma validate_json_without_choix_optim_witness :
  validate_json (PDict document_without_choix_optim) = Ok tt.
Proof.
  apply (validate_json_without_choix_optim document_without_choix_optim).
  - reflexivity.
  - intros k sub Hin. simpl in Hin.
    repeat (destruct Hin as [Heq | Hin];
            [injection Heq as <- <-; eexists; split; [reflexivity |];
             apply (validate_ok_iff _ _ ""); vm_compute; reflexivity |]).
    destruct Hin.
Defined.

(** ** Aggregator *)

(** What the loop reads from one document: its vehicles, and the
    chargers on its first source, first transformer path (none when the
    path stops early). *)
Definition doc_vehicules (doc : pyval) : res (list pyval) :=
  let* vs := py_get doc "vehicules" (PList []) in
  py_iter vs.

Definition doc_chargeurs (doc : pyval) : res (list pyval) :=
  let* o := first_path_chargeurs doc in
  match o with
  | None => Ok []
  | Some l => py_iter l
  end.

(** [merged["sources"][0]["transformateurs"][0]["chargeurs"]] *)
Definition chargeurs_at (doc : pyval) : res pyval :=
  let* srcs := getitem doc "sources" in
  let* src0 := getitem0 srcs in
  let* trans := getitem src0 "transformateurs" in
  let* trans0 := getitem0 trans in
  getitem trans0 "chargeurs".

(** [ch.get("id")] of a charger *)
Definition charger_id (ch : pyval) : pyval :=
  match ch with
  | PDict d => Dict.get_default d "id" PNone
  | _ => PNone
  end.

(** Deduplication by id, first occurrence wins, in the words of the
    design document; a charger whose id is empty or missing is not a
    candidate.  The state is (kept chargers, ids seen). *)
Definition dedup_step (st : list pyval * list pyval) (ch : pyval)
  : list pyval * list pyval :=
  let i := charger_id ch in
  if truthy i && negb (existsb (key_eqb i) (snd st))
  then ((fst st ++ [ch])%list, (snd st ++ [i])%list)
  else st.

Definition dedup_by_id (chs : list pyval) : list pyval :=
  fst (fold_left dedup_step chs ([], [])).

(** A charger the loop can handle: a [dict] whose id, when it counts,
    can be put in a set. *)
Definition charger_ok (ch : pyval) : Prop :=
  (exists d, ch = PDict d)
  /\ (truthy (charger_id ch) = true -> hashable (charger_id ch) = true).

(** The first document either has no sources or has a first
    transformer in its first source. *)
Definition first_path_ok (doc : pyval) : Prop :=
  match doc with
  | PDict d =>
      match Dict.get d "sources" with
      | None => True
      | Some srcs =>
          truthy srcs = false
          \/ exists s0 sl t0 tl,
               srcs = PList (PDict s0 :: sl)
               /\ Dict.get s0 "transformateurs" = Some (PList (PDict t0 :: tl))
      end
  | _ => False
  end.

Lemma collect_chargeurs_spec (chs : list pyval) :
  Forall charger_ok chs ->
  forall st,
    collect_chargeurs chs st
    = Ok (mkagg (agg_vehicules st)
            (fst (fold_left dedup_step chs (agg_chargeurs st, agg_seen st)))
            (snd (fold_left dedup_step chs (agg_chargeurs st, agg_seen st)))).
Proof.
  induction 1 as [| ch chs [[d ->] Hhash] _ IH]; intros st; simpl.
  - destruct st; reflexivity.
  - unfold dedup_step at 2 4. simpl in *.
    destruct (truthy (Dict.get_default d "id" PNone)) eqn:Ht; simpl.
    + rewrite (Hhash eq_refl).
      destruct (existsb (key_eqb (Dict.get_default d "id" PNone)) (agg_seen st));
        simpl; rewrite IH; reflexivity.
    + rewrite IH. reflexivity.
Qed.

Lemma agg_step_spec (item : pyval) (st : agg_state) (vs cs : list pyval) :
  doc_vehicules item = Ok vs ->
  doc_chargeurs item = Ok cs ->
  Forall charger_ok cs ->
  agg_step item st
  = Ok (mkagg (agg_vehicules st ++ vs)
          (fst (fold_left dedup_step cs (agg_chargeurs st, agg_seen st)))
          (snd (fold_left dedup_step cs (agg_chargeurs st, agg_seen st)))).
Proof.
  unfold doc_vehicules, doc_chargeurs, agg_step. intros Hv Hc Hok.
  bind_as Hv vl Hvl. rewrite Hvl. simpl. rewrite Hv. simpl.
  bind_as Hc o Ho. rewrite Ho. simpl.
  destruct o as [l |].
  - rewrite Hc. simpl. rewrite (collect_chargeurs_spec cs Hok). reflexivity.
  - injection Hc as <-. reflexivity.
Qed.

Lemma mapM_cons_inv {A B} (f : A -> res B) (x : A) (l : list A)
    (ys : list B) :
  mapM f (x :: l) = Ok ys ->
  exists y ys', f x = Ok y /\ mapM f l = Ok ys' /\ ys = y :: ys'.
Proof.
  simpl. intros H. bind_as H y Hy. bind_as H ys' Hys. injection H as <-.
  exists y, ys'. repeat split; assumption.
Qed.

Lemma agg_loop_spec (docs : list pyval) :
  forall (vss css : list (list pyval)) (st : agg_state),
    mapM doc_vehicules docs = Ok vss ->
    mapM doc_chargeurs docs = Ok css ->
    Forall charger_ok (concat css) ->
    agg_loop docs st
    = Ok (mkagg (agg_vehicules st ++ concat vss)
            (fst (fold_left dedup_step (concat css)
                    (agg_chargeurs st, agg_seen st)))
            (snd (fold_left dedup_step (concat css)
                    (agg_chargeurs st, agg_seen st)))).
Proof.
  induction docs as [| doc docs IH]; intros vss css st Hv Hc Hok.
  - simpl in Hv, Hc. injection Hv as <-. injection Hc as <-. simpl.
    rewrite app_nil_r. destruct st; reflexivity.
  - apply mapM_cons_inv in Hv as (vs & vss' & Hv1 & Hv2 & ->).
    apply mapM_cons_inv in Hc as (cs & css' & Hc1 & Hc2 & ->).
    simpl in Hok. apply List.Forall_app in Hok as [Hok1 Hok2].
    simpl. rewrite (agg_step_spec doc st vs cs Hv1 Hc1 Hok1). simpl.
    rewrite (IH vss' css' _ Hv2 Hc2 Hok2). simpl.
    rewrite fold_left_app, <- app_assoc.
    destruct (fold_left dedup_step cs (agg_chargeurs st, agg_seen st));
      reflexivity.
Qed.

Lemma getitem_dict (d : pydict) (k : string) :
  getitem (PDict d) k
  = match Dict.get d k with Some v => Ok v | None => Raise KeyError k end.
Proof. reflexivity. Qed.

Lemma doc_vehicules_dict (doc : pyval) (vs : list pyval) :
  doc_vehicules doc = Ok vs -> exists d, doc = PDict d.
Proof.
  unfold doc_vehicules. destruct doc; simpl; try discriminate.
  intros _. eexists. reflexivity.
Qed.

Lemma length_concat_singletons {A} (l : list (list A)) :
  (forall x, In x l -> length x = 1%nat) -> length (concat l) = length l.
Proof.
  induction l as [| x l IH]; intros H; simpl; [reflexivity |].
  rewrite List.length_app, (H x (or_introl eq_refl)), IH; [reflexivity |].
  intros y Hy. apply H. right. exact Hy.
Qed.

(** The repository's test of the aggregation: two one-vehicle
    documents give two vehicles, in order. *)
Example map_records_aggregate :
  (let* a := map_record test_env record_1 DEFAULT_TEMPLATE default_params in
   let* b := map_record test_env [("newIdVeh", PStr "2")] DEFAULT_TEMPLATE
               default_params in
   let* merged := aggregate_results [a; b] in
   let* vs := getitem merged "vehicules" in
   let* ids := mapM (fun v => getitem v "id") (match vs with
                                                | PList l => l
                                                | _ => []
                                                end) in
   Ok ids)
  = Ok [PStr "1"; PStr "2"].
Proof. vm_compute. reflexivity. Qed.

(** A document whose only charger has no id, as the infrastructure of
    the repository's validator test has it. *)
Definition charger_without_id : pyval :=
  PDict [("typeChargeur", PStr "type");
         ("prises", PList [PDict [("id", PStr "P1"); ("typePrise", PStr "T")]])].

Definition doc_charger_without_id : pyval :=
  PDict [("idRun", PStr "01234567891011");
         ("sources", PList [PDict [("transformateurs",
            PList [PDict [("chargeurs", PList [charger_without_id])]])]]);
         ("vehicules", PList [PDict [("id", PStr "1")]])].

(** C3, as stated, fails: the one charger definition of the one
    document is collected from the path, but the merged document has
    an empty charger list, because the charger has no id. *)
Lemma aggregate_results_drops_charger_without_id :
  chargeurs_at doc_charger_without_id = Ok (PList [charger_without_id])
  /\ (let* merged := aggregate_results [doc_charger_without_id] in
      chargeurs_at merged) = Ok (PList [])
  /\ PList [] <> PList [charger_without_id].
Proof.
  split; [reflexivity |]. split; [vm_compute; reflexivity | discriminate].
Qed.

Lemma key_eqb_refl (v : pyval) : hashable v = true -> key_eqb v v = true.
Proof.
  destruct v; simpl; try discriminate; intros _; unfold key_eqb; simpl.
  - reflexivity.
  - apply Qeq_bool_iff. reflexivity.
  - apply Qeq_bool_iff. reflexivity.
  - apply Qeq_bool_iff. reflexivity.
  - apply String.eqb_refl.
  - unfold DT.compare, DT.date_compare. rewrite !Z.compare_refl. reflexivity.
Qed.

(** The invariant of the deduplication: what is kept comes from the
    input and has an id that counts; every id seen so far is the id of
    a kept charger. *)
Lemma dedup_fold_inv (chs : list pyval) :
  forall kept seen,
    let r := fold_left dedup_step chs (kept, seen) in
    (forall ch, In ch (fst r) ->
       In ch kept \/ (In ch chs /\ truthy (charger_id ch) = true))
    /\ (forall i, In i (snd r) ->
          In i seen \/ exists ch, In ch (fst r) /\ charger_id ch = i)
    /\ (forall ch, In ch kept -> In ch (fst r))
    /\ (forall i, In i seen -> In i (snd r))
    /\ (forall ch, In ch chs -> truthy (charger_id ch) = true ->
          hashable (charger_id ch) = true ->
          exists i, In i (snd r) /\ key_eqb (charger_id ch) i = true).
Proof.
  induction chs as [| c chs IH]; intros kept seen; simpl.
  - repeat split; auto. intros ch [].
  - specialize (IH (fst (dedup_step (kept, seen) c))
                   (snd (dedup_step (kept, seen) c))).
    rewrite <- surjective_pairing in IH.
    destruct IH as (I1 & I2 & I3 & I4 & I5).
    assert (Hk : forall ch, In ch (fst (dedup_step (kept, seen) c)) ->
                   In ch kept \/ (ch = c /\ truthy (charger_id c) = true)).
    { intros ch. unfold dedup_step. simpl.
      destruct (truthy (charger_id c)) eqn:Ht; simpl; [| auto].
      destruct (existsb _ seen); simpl; [auto |].
      rewrite List.in_app_iff. simpl. intros [H | [<- | []]]; auto. }
    assert (Hs : forall i, In i (snd (dedup_step (kept, seen) c)) ->
                   In i seen
                   \/ (i = charger_id c
                       /\ In c (fst (dedup_step (kept, seen) c)))).
    { intros i. unfold dedup_step. simpl.
      destruct (truthy (charger_id c) && negb (existsb _ seen)); simpl;
        [| auto].
      rewrite !List.in_app_iff. simpl. intros [H | [<- | []]]; auto. }
    assert (Hk' : forall ch, In ch kept ->
                    In ch (fst (dedup_step (kept, seen) c))).
    { intros ch H. unfold dedup_step. simpl.
      destruct (_ && _); simpl; [apply List.in_app_iff; auto | exact H]. }
    assert (Hs' : forall i, In i seen ->
                    In i (snd (dedup_step (kept, seen) c))).
    { intros i H. unfold dedup_step. simpl.
      destruct (_ && _); simpl; [apply List.in_app_iff; auto | exact H]. }
    split; [| split; [| split; [| split]]].
    + intros ch Hch. destruct (I1 ch Hch) as [H | [H1 H2]]; [| auto].
      destruct (Hk ch H) as [H' | [-> H']]; auto.
    + intros i Hi. destruct (I2 i Hi) as [H | H]; [| auto].
      destruct (Hs i H) as [H' | [-> H']]; [auto |].
      right. exists c. split; [apply I3; exact H' | reflexivity].
    + intros ch H. apply I3, Hk'. exact H.
    + intros i H. apply I4, Hs'. exact H.
    + intros ch [<- | Hin] Ht Hh; [| exact (I5 ch Hin Ht Hh)].
      destruct (existsb (key_eqb (charger_id c)) seen) eqn:Hex.
      * apply existsb_exists in Hex as (i & Hi & Heq).
        exists i. split; [apply I4, Hs'; exact Hi | exact Heq].
      * exists (charger_id c). split; [| apply key_eqb_refl; exact Hh].
        apply I4. unfold dedup_step. simpl. rewrite Ht, Hex. simpl.
        apply List.in_app_iff. right. left. reflexivity.
Qed.

(** C3, amended. The empty list gives the empty mapping.  For a
    non-empty list of documents that the loop can read, whose first
    document has no sources or has a first transformer in its first
    source, the aggregation returns the first document with its vehicle
    list replaced by the concatenation of all vehicle lists, in order
    (N vehicles for N one-vehicle documents), and, when the first
    document has sources, with the charger list of its first path
    replaced by the chargers that have an id, collected over all
    documents and deduplicated by id, first occurrence winning;
    chargers without an id are left out. *)
Theorem aggregate_results_spec :
  aggregate_results [] = Ok (PDict [])
  /\ (forall first rest vss css,
        mapM doc_vehicules (first :: rest) = Ok vss ->
        mapM doc_chargeurs (first :: rest) = Ok css ->
        Forall charger_ok (concat css) ->
        first_path_ok first ->
        exists merged,
          aggregate_results (first :: rest) = Ok merged
          /\ getitem merged "vehicules" = Ok (PList (concat vss))
          /\ ((forall vs, In vs vss -> length vs = 1%nat) ->
              length (concat vss) = length (first :: rest))
          /\ (forall srcs, getitem first "sources" = Ok srcs ->
                truthy srcs = true ->
                chargeurs_at merged = Ok (PList (dedup_by_id (concat css))))
          /\ (forall k, k <> "vehicules" -> k <> "sources" ->
                getitem merged k = getitem first k))
  /\ (forall chs,
        (forall ch, In ch (dedup_by_id chs) ->
           In ch chs /\ truthy (charger_id ch) = true)
        /\ (forall ch, In ch chs -> truthy (charger_id ch) = true ->
              hashable (charger_id ch) = true ->
              exists ch', In ch' (dedup_by_id chs)
                          /\ key_eqb (charger_id ch) (charger_id ch') = true)).
Proof.
  split; [reflexivity |]. split.
  - intros first rest vss css Hv Hc Hok Hpath.
    pose proof (agg_loop_spec (first :: rest) vss css (mkagg [] [] []) Hv Hc Hok)
      as Hloop.
    simpl agg_vehicules in Hloop. simpl agg_chargeurs in Hloop.
    simpl agg_seen in Hloop. fold (dedup_by_id (concat css)) in Hloop.
    change ([] ++ concat vss)%list with (concat vss) in Hloop.
    assert (Hlen : (forall vs, In vs vss -> length vs = 1%nat) ->
                   length (concat vss) = length (first :: rest)).
    { intros Hone. rewrite (length_concat_singletons vss Hone).
      clear -Hv. revert vss Hv.
      induction (first :: rest) as [| x l IH]; intros vss Hv.
      - simpl in Hv. injection Hv as <-. reflexivity.
      - apply mapM_cons_inv in Hv as (y & ys & _ & Hys & ->).
        simpl. rewrite (IH ys Hys). reflexivity. }
    apply mapM_cons_inv in Hv as (vs & vss' & Hv1 & _ & ->).
    destruct (doc_vehicules_dict first vs Hv1) as [d ->].
    unfold aggregate_results.
    change (setitem (PDict d) "vehicules" (PList []))
      with (Ok (PDict (Dict.set d "vehicules" (PList [])))).
    cbn [rbind]. rewrite Hloop. cbn [rbind agg_vehicules agg_chargeurs].
    change (concat (vs :: vss')) with (vs ++ concat vss')%list.
    set (vehs := (vs ++ concat vss')%list) in *.
    set (chargeurs := dedup_by_id (concat css)).
    set (dm := Dict.set (Dict.set d "vehicules" (PList [])) "vehicules"
                 (PList vehs)).
    change (setitem (PDict (Dict.set d "vehicules" (PList []))) "vehicules"
              (PList vehs)) with (Ok (PDict dm)).
    cbn [rbind py_get].
    assert (Hdm : forall k, k <> "vehicules" -> Dict.get dm k = Dict.get d k).
    { intros k Hk. unfold dm. rewrite !dict_get_set_ne by exact Hk.
      reflexivity. }
    assert (Hdmv : Dict.get dm "vehicules" = Some (PList vehs))
      by apply dict_get_set_eq.
    unfold Dict.get_default. rewrite (Hdm "sources") by discriminate.
    simpl in Hpath.
    destruct (Dict.get d "sources") as [srcs |] eqn:Hsrc.
    + destruct (truthy srcs) eqn:Htr.
      * destruct Hpath as [Hf | (s0 & sl & t0 & tl & -> & Ht0)];
          [discriminate |].
        unfold set_first_path. rewrite !getitem_dict.
        rewrite (Hdm "sources") by discriminate. rewrite Hsrc.
        cbn [rbind getitem0]. rewrite getitem_dict, Ht0.
        cbn [rbind getitem0 setitem setitem0].
        eexists. split; [reflexivity |].
        split.
        { rewrite getitem_dict, dict_get_set_ne by discriminate.
          rewrite Hdmv. reflexivity. }
        split; [exact Hlen |].
        split.
        { intros srcs' _ _. unfold chargeurs_at.
          rewrite getitem_dict, dict_get_set_eq. cbn [rbind getitem0].
          rewrite getitem_dict, dict_get_set_eq. cbn [rbind getitem0].
          rewrite getitem_dict, dict_get_set_eq. reflexivity. }
        intros k Hk1 Hk2. rewrite !getitem_dict.
        rewrite dict_get_set_ne by exact Hk2.
        rewrite Hdm by exact Hk1. reflexivity.
      * eexists. split; [reflexivity |].
        split; [rewrite getitem_dict, Hdmv; reflexivity |].
        split; [exact Hlen |].
        split.
        { intros srcs'. rewrite getitem_dict, Hsrc. intros [= <-] Ht.
          congruence. }
        intros k Hk1 _. rewrite !getitem_dict, Hdm by exact Hk1. reflexivity.
    + cbn [truthy]. eexists. split; [reflexivity |].
      split; [rewrite getitem_dict, Hdmv; reflexivity |].
      split; [exact Hlen |].
      split.
      { intros srcs'. rewrite getitem_dict, Hsrc. discriminate. }
      intros k Hk1 _. rewrite !getitem_dict, Hdm by exact Hk1. reflexivity.
  - intros chs. unfold dedup_by_id.
    destruct (dedup_fold_inv chs [] []) as (I1 & I2 & _ & _ & I5).
    split.
    + intros ch Hch. destruct (I1 ch Hch) as [[] | H]. exact H.
    + intros ch Hin Ht Hh. destruct (I5 ch Hin Ht Hh) as (i & Hi & Heq).
      destruct (I2 i Hi) as [[] | (ch' & Hch' & <-)].
      exists ch'. split; assumption.
Qed.

Definition doc_with_chargers (veh : string) (ids : list string) : pyval :=
  PDict [("idRun", PStr "01234567891011");
         ("sources", PList [PDict [("transformateurs",
            PList [PDict [("chargeurs",
               PList (List.map (fun i => PDict [("id", PStr i);
                                               ("libelle", PStr veh)]) ids))]])]]);
         ("vehicules", PList [PDict [("id", PStr veh)]])].

Lemma aggregate_results_spec_witness :
  exists merged,
    aggregate_results [doc_with_chargers "1" ["C1"];
                       doc_with_chargers "2" ["C1"; "C2"]] = Ok merged
    /\ getitem merged "vehicules"
       = Ok (PList [PDict [("id", PStr "1")]; PDict [("id", PStr "2")]])
    /\ chargeurs_at merged
       = Ok (PList [PDict [("id", PStr "C1"); ("libelle", PStr "1")];
                    PDict [("id", PStr "C2"); ("libelle", PStr "2")]]).
Proof.
  destruct aggregate_results_spec as (_ & Hagg & _).
  destruct (Hagg (doc_with_chargers "1" ["C1"])
              [doc_with_chargers "2" ["C1"; "C2"]]
              [[PDict [("id", PStr "1")]]; [PDict [("id", PStr "2")]]]
              [[PDict [("id", PStr "C1"); ("libelle", PStr "1")]];
               [PDict [("id", PStr "C1"); ("libelle", PStr "2")];
                PDict [("id", PStr "C2"); ("libelle", PStr "2")]]])
    as (merged & H1 & H2 & _ & H4 & _).
  - reflexivity.
  - reflexivity.
  - simpl. repeat constructor; try (eexists; reflexivity).
  - simpl. right. repeat eexists.
  - exists merged. split; [exact H1 |]. split; [exact H2 |].
    exact (H4 _ eq_refl eq_refl).
Defined.


(** The store-level model and the value-level model agree on the
    built-in template: the document read back from the store is the
    document of the value-level model, and the template read back after
    the call is the template. *)
Example store_map_record_default_template :
  let '(h0, t) :=
    match Store.alloc_val DEFAULT_TEMPLATE [] with
    | (h0, Ok t) => (h0, t)
    | (h0, Raise _ _) => (h0, Store.HNone)
    end in
  let '(h1, r) := Store.map_record test_env record_soc_retour_42 t
                    default_params h0 in
  match r with
  | Ok doc =>
      Some (Ok (default PNone (Store.reify 50 h1 doc)))
      = Some (map_record test_env record_soc_retour_42 DEFAULT_TEMPLATE
                default_params)
      /\ Store.reify 50 h1 t = Some DEFAULT_TEMPLATE
  | Raise _ _ => False
  end.
Proof. vm_compute. split; reflexivity. Qed.

(** Induction on values that reaches the elements of lists and
    dictionaries. *)
Section pyval_ind_nested.

Variable P : pyval -> Prop.
Hypothesis HNone_ : P PNone.
Hypothesis HBool_ : forall b, P (PBool b).
Hypothesis HInt_ : forall z, P (PInt z).
Hypothesis HFloat_ : forall q, P (PFloat q).
Hypothesis HStr_ : forall s, P (PStr s).
Hypothesis HDateTime_ : forall d, P (PDateTime d).
Hypothesis HList_ : forall l, Forall P l -> P (PList l).
Hypothesis HDict_ : forall d, Forall (fun e => P (snd e)) d -> P (PDict d).

Fixpoint pyval_ind_nested (v : pyval) : P v :=
  match v with
  | PNone => HNone_
  | PBool b => HBool_ b
  | PInt z => HInt_ z
  | PFloat q => HFloat_ q
  | PStr s => HStr_ s
  | PDateTime d => HDateTime_ d
  | PList l =>
      HList_ l
        ((fix go (l : list pyval) : Forall P l :=
            match l with
            | [] => List.Forall_nil _
            | x :: l' =>
                @List.Forall_cons _ P x l' (pyval_ind_nested x) (go l')
            end) l)
  | PDict d =>
      HDict_ d
        ((fix go (d : list (string * pyval))
            : Forall (fun e => P (snd e)) d :=
            match d with
            | [] => List.Forall_nil _
            | (k, x) :: d' =>
                @List.Forall_cons _ (fun e => P (snd e)) (k, x) d'
                  (pyval_ind_nested x) (go d')
            end) d)
  end.

End pyval_ind_nested.

(** ** The template is not mutated *)

Module StoreFacts.

Import Store.

Local Open Scope list_scope.

Section Frame.

(** The store at the call. *)
Variable h0 : heap.

(** A value that does not refer to an object of the store at the call *)
Definition fresh_val (v : hval) : Prop :=
  match v with HRef l => (length h0 <= l)%nat | _ => True end.

Definition fresh_obj (o : obj) : Prop :=
  match o with
  | OList xs => Forall fresh_val xs
  | ODict es => Forall (fun e => fresh_val (snd e)) es
  end.

(** The invariant of a call: the objects of the store at the call are
    as they were, and the objects made since refer only to objects made
    since. *)
Record inv (h : heap) : Prop := mkinv {
  inv_length : (length h0 <= length h)%nat;
  inv_old : forall l, (l < length h0)%nat -> h !! l = h0 !! l;
  inv_new : forall l o, (length h0 <= l)%nat -> h !! l = Some o -> fresh_obj o
}.

(** [m] keeps the invariant and its results satisfy [Q]. *)
Definition frame {A} (m : M A) (Q : A -> Prop) : Prop :=
  forall h, inv h ->
    inv (fst (m h)) /\ forall a, snd (m h) = Ok a -> Q a.

Lemma inv_init : inv h0.
Proof.
  constructor; [lia | reflexivity |].
  intros l o Hl Ho. apply lookup_lt_Some in Ho. lia.
Qed.

Lemma frame_ret {A} (a : A) (Q : A -> Prop) : Q a -> frame (ret a) Q.
Proof. intros HQ h Hi. simpl. split; [exact Hi | intros ? [= <-]; exact HQ]. Qed.

Lemma frame_raise {A} c msg (Q : A -> Prop) : frame (raise c msg) Q.
Proof. intros h Hi. simpl. split; [exact Hi | discriminate]. Qed.

Lemma frame_lift {A} (r : res A) : frame (lift r) (fun _ => True).
Proof. intros h Hi. simpl. split; [exact Hi | trivial]. Qed.

Lemma frame_weaken {A} (m : M A) (Q R : A -> Prop) :
  frame m Q -> (forall a, Q a -> R a) -> frame m R.
Proof.
  intros Hm HQR h Hi. destruct (Hm h Hi) as [H1 H2].
  split; [exact H1 | intros a Ha; apply HQR, H2, Ha].
Qed.

Lemma frame_bind {A B} (m : M A) (k : A -> M B) (Q : A -> Prop)
    (R : B -> Prop) :
  frame m Q -> (forall a, Q a -> frame (k a) R) -> frame (bind m k) R.
Proof.
  intros Hm Hk h Hi. unfold bind.
  destruct (Hm h Hi) as [H1 H2].
  destruct (m h) as [h1 [a | c msg]]; simpl in *.
  - exact (Hk a (H2 a eq_refl) h1 H1).
  - split; [exact H1 | discriminate].
Qed.

Lemma inv_alloc (h : heap) (o : obj) :
  inv h -> fresh_obj o -> inv (h ++ [o]).
Proof.
  intros [Hl Ho Hn] Hf. constructor.
  - rewrite length_app. simpl. lia.
  - intros l Hlt. rewrite lookup_app_l by lia. apply Ho. exact Hlt.
  - intros l o' Hge Hlook.
    destruct (decide (l < length h)%nat) as [Hlt | Hnlt].
    + rewrite lookup_app_l in Hlook by exact Hlt. exact (Hn l o' Hge Hlook).
    + rewrite lookup_app_r in Hlook by lia.
      destruct (l - length h)%nat; simpl in Hlook; [| discriminate].
      injection Hlook as <-. exact Hf.
Qed.

Lemma inv_insert (h : heap) (l : loc) (o : obj) :
  inv h -> (length h0 <= l)%nat -> fresh_obj o -> inv (<[l := o]> h).
Proof.
  intros [Hl Ho Hn] Hge Hf. constructor.
  - rewrite length_insert. exact Hl.
  - intros l' Hlt. rewrite list_lookup_insert_ne by lia. apply Ho. exact Hlt.
  - intros l' o' Hge' Hlook.
    destruct (decide (l = l')) as [<- | Hne].
    + destruct (decide (l < length h)%nat) as [Hlt | Hnlt].
      * rewrite list_lookup_insert_eq in Hlook by exact Hlt.
        injection Hlook as <-. exact Hf.
      * rewrite list_insert_ge in Hlook by lia. exact (Hn l o' Hge' Hlook).
    + rewrite list_lookup_insert_ne in Hlook by exact Hne.
      exact (Hn l' o' Hge' Hlook).
Qed.

Lemma frame_alloc (o : obj) : fresh_obj o -> frame (alloc o) fresh_val.
Proof.
  intros Hf h Hi. unfold alloc. simpl. split.
  - apply inv_alloc; assumption.
  - intros a [= <-]. simpl. exact (inv_length h Hi).
Qed.

Lemma fresh_assoc_set (es : list (string * hval)) (k : string) (v : hval) :
  Forall (fun e => fresh_val (snd e)) es -> fresh_val v ->
  Forall (fun e => fresh_val (snd e)) (assoc_set es k v).
Proof.
  intros Hes Hv. induction Hes as [| [k' v'] es He Hes' IH]; simpl.
  - constructor; [exact Hv | constructor].
  - destruct (String.eqb k k'); constructor; simpl; assumption.
Qed.

Lemma fresh_assoc_get (es : list (string * hval)) (k : string) (v : hval) :
  Forall (fun e => fresh_val (snd e)) es -> assoc_get es k = Some v ->
  fresh_val v.
Proof.
  induction 1 as [| [k' v'] es He _ IH]; simpl; [discriminate |].
  destruct (String.eqb k k'); [intros [= <-]; exact He | exact IH].
Qed.

Lemma frame_hset (target : hval) (k : string) (v : hval) :
  fresh_val target -> fresh_val v ->
  frame (hset target k v) (fun _ => True).
Proof.
  intros Ht Hv h Hi. unfold hset.
  destruct target as [| | | | | | l]; simpl; try (split; [exact Hi | trivial]).
  destruct (h !! l) as [[xs | es] |] eqn:Hl; simpl;
    try (split; [exact Hi | trivial]).
  split; [| trivial]. apply inv_insert; [exact Hi | exact Ht |].
  simpl. apply fresh_assoc_set; [| exact Hv].
  exact (inv_new h Hi l (ODict es) Ht Hl).
Qed.

Lemma frame_hget (target : hval) (k : string) :
  fresh_val target -> frame (hget target k) fresh_val.
Proof.
  intros Ht h Hi. unfold hget.
  destruct target as [| | | | | | l]; simpl; try (split; [exact Hi | discriminate]).
  destruct (h !! l) as [[xs | es] |] eqn:Hl; simpl;
    try (split; [exact Hi | discriminate]).
  destruct (assoc_get es k) as [v |] eqn:Hg; simpl;
    [| split; [exact Hi | discriminate]].
  split; [exact Hi |]. intros a [= <-].
  exact (fresh_assoc_get es k v (inv_new h Hi l (ODict es) Ht Hl) Hg).
Qed.

Lemma frame_hget_opt_fresh (target : hval) (k : string) :
  fresh_val target ->
  frame (hget_opt target k)
        (fun o => match o with Some v => fresh_val v | None => True end).
Proof.
  intros Ht h Hi. unfold hget_opt.
  destruct target as [| | | | | | l]; simpl; try (split; [exact Hi | discriminate]).
  destruct (h !! l) as [[xs | es] |] eqn:Hl; simpl;
    try (split; [exact Hi | discriminate]).
  split; [exact Hi |]. intros a [= <-].
  destruct (assoc_get es k) as [v |] eqn:Hg; [| trivial].
  exact (fresh_assoc_get es k v (inv_new h Hi l (ODict es) Ht Hl) Hg).
Qed.

Lemma frame_hget0 (target : hval) :
  fresh_val target -> frame (hget0 target) fresh_val.
Proof.
  intros Ht h Hi. unfold hget0.
  destruct target as [| | | | [| c s] | | l]; simpl;
    try (split; [exact Hi | discriminate]).
  - split; [exact Hi |]. intros a [= <-]. exact I.
  - destruct (h !! l) as [[[| x xs] | es] |] eqn:Hl; simpl;
      try (split; [exact Hi | discriminate]).
    split; [exact Hi |]. intros a [= <-].
    pose proof (inv_new h Hi l _ Ht Hl) as Hf. simpl in Hf.
    inversion Hf; assumption.
Qed.

(** Reading never changes the store, whatever is read. *)
Lemma frame_pure_read {A} (m : M A) :
  (forall h, fst (m h) = h) -> frame m (fun _ => True).
Proof. intros Hm h Hi. rewrite Hm. split; [exact Hi | trivial]. Qed.

Lemma hget_opt_pure target k h : fst (hget_opt target k h) = h.
Proof.
  unfold hget_opt. destruct target; simpl; try reflexivity.
  destruct (h !! l) as [[|] |]; reflexivity.
Qed.

Lemma hget0_pure target h : fst (hget0 target h) = h.
Proof.
  unfold hget0. destruct target as [| | | | [| ? ?] | | l]; simpl;
    try reflexivity.
  destruct (h !! l) as [[[| ? ?] | ?] |]; reflexivity.
Qed.

Lemma read_pure v h : fst (read v h) = h.
Proof. unfold read. destruct (reify _ h v); reflexivity. Qed.

Lemma deref_pure v h : fst (deref v h) = h.
Proof.
  unfold deref. destruct v; simpl; try reflexivity.
  destruct (h !! l); reflexivity.
Qed.

Lemma frame_alloc_val (v : pyval) : frame (alloc_val v) fresh_val.
Proof.
  induction v as [| b | z | q | s | d | l IH | d IH] using pyval_ind_nested;
    try (apply frame_ret; exact I).
  - simpl. eapply frame_bind with (Q := Forall fresh_val).
    + induction IH as [| x l Hx _ IHl].
      * apply frame_ret. constructor.
      * eapply frame_bind; [exact Hx |]. intros x' Hx'.
        eapply frame_bind; [exact IHl |]. intros xs Hxs.
        apply frame_ret. constructor; assumption.
    + intros xs Hxs. apply frame_alloc. exact Hxs.
  - simpl. eapply frame_bind with (Q := Forall (fun e => fresh_val (snd e))).
    + induction IH as [| [k x] d Hx _ IHd].
      * apply frame_ret. constructor.
      * eapply frame_bind; [exact Hx |]. intros x' Hx'.
        eapply frame_bind; [exact IHd |]. intros es Hes.
        apply frame_ret. constructor; assumption.
    + intros es Hes. apply frame_alloc. exact Hes.
Qed.

Lemma frame_hset_val (target : hval) (k : string) (v : pyval) :
  fresh_val target -> frame (hset_val target k v) (fun _ => True).
Proof.
  intros Ht. unfold hset_val.
  eapply frame_bind; [apply frame_alloc_val |].
  intros x Hx. apply frame_hset; assumption.
Qed.

(** Every copy recorded in the memo is an object made since the call. *)
Definition memo_fresh (memo : list (loc * loc)) : Prop :=
  Forall (fun p => (length h0 <= snd p)%nat) memo.

Lemma memo_get_fresh (memo : list (loc * loc)) (l l' : loc) :
  memo_fresh memo -> memo_get memo l = Some l' -> (length h0 <= l')%nat.
Proof.
  induction 1 as [| [a b] memo Hab _ IH]; simpl; [discriminate |].
  destruct (Nat.eqb a l); [intros [= <-]; exact Hab | exact IH].
Qed.

Lemma frame_write_back {A} (y : hval) (o : obj) (a : A) (Q : A -> Prop) :
  fresh_val y -> fresh_obj o -> Q a ->
  frame (fun h => match y with
                  | HRef l' => (<[l' := o]> h, Ok a)
                  | _ => (h, Ok a)
                  end) Q.
Proof.
  intros Hy Ho HQ h Hi.
  destruct y as [| | | | | | l']; simpl;
    try (split; [exact Hi | intros ? [= <-]; exact HQ]).
  split; [apply inv_insert; assumption | intros ? [= <-]; exact HQ].
Qed.

Lemma frame_deepcopy_memo (fuel : nat) :
  forall memo v,
    memo_fresh memo ->
    frame (deepcopy_memo fuel memo v)
          (fun r => memo_fresh (fst r) /\ fresh_val (snd r)).
Proof.
  induction fuel as [| fuel IH]; intros memo v Hmemo.
  - destruct v as [| | | | | | l]; simpl;
      try (apply frame_ret; split; [exact Hmemo | exact I]).
    destruct (memo_get memo l) as [l' |] eqn:Hg.
    + apply frame_ret. split; [exact Hmemo |].
      exact (memo_get_fresh memo l l' Hmemo Hg).
    + apply frame_raise.
  - destruct v as [| | | | | | l]; simpl;
      try (apply frame_ret; split; [exact Hmemo | exact I]).
    destruct (memo_get memo l) as [l' |] eqn:Hg.
    + apply frame_ret. split; [exact Hmemo |].
      exact (memo_get_fresh memo l l' Hmemo Hg).
    + eapply frame_bind;
        [apply (frame_pure_read (deref (HRef l))); apply deref_pure |].
      intros o _. destruct o as [xs | es].
      * eapply frame_bind; [apply frame_alloc; constructor |].
        intros y Hy.
        assert (Hm1 : memo_fresh match y with
                                 | HRef l' => (l, l') :: memo
                                 | _ => memo
                                 end).
        { destruct y; try exact Hmemo. constructor; [exact Hy | exact Hmemo]. }
        eapply frame_bind
          with (Q := fun r => memo_fresh (fst r) /\ Forall fresh_val (snd r)).
        -- generalize dependent (match y with
                                 | HRef l' => (l, l') :: memo
                                 | _ => memo
                                 end).
           clear Hg Hmemo memo.
           induction xs as [| x xs IHxs]; intros memo Hmemo.
           ++ apply frame_ret. split; [exact Hmemo | constructor].
           ++ eapply frame_bind; [apply (IH memo x Hmemo) |].
              intros r1 [Hr1 Hv1].
              eapply frame_bind; [apply (IHxs (fst r1) Hr1) |].
              intros r2 [Hr2 Hv2].
              apply frame_ret. split; [exact Hr2 |].
              constructor; assumption.
        -- intros r [Hr Hvs].
           apply frame_write_back; [exact Hy | exact Hvs |].
           split; [exact Hr | exact Hy].
      * eapply frame_bind; [apply frame_alloc; constructor |].
        intros y Hy.
        assert (Hm1 : memo_fresh match y with
                                 | HRef l' => (l, l') :: memo
                                 | _ => memo
                                 end).
        { destruct y; try exact Hmemo. constructor; [exact Hy | exact Hmemo]. }
        eapply frame_bind
          with (Q := fun r => memo_fresh (fst r)
                              /\ Forall (fun e => fresh_val (snd e)) (snd r)).
        -- generalize dependent (match y with
                                 | HRef l' => (l, l') :: memo
                                 | _ => memo
                                 end).
           clear Hg Hmemo memo.
           induction es as [| [k x] es IHes]; intros memo Hmemo.
           ++ apply frame_ret. split; [exact Hmemo | constructor].
           ++ eapply frame_bind; [apply (IH memo x Hmemo) |].
              intros r1 [Hr1 Hv1].
              eapply frame_bind; [apply (IHes (fst r1) Hr1) |].
              intros r2 [Hr2 Hv2].
              apply frame_ret. split; [exact Hr2 |].
              constructor; assumption.
        -- intros r [Hr Hvs].
           apply frame_write_back; [exact Hy | exact Hvs |].
           split; [exact Hr | exact Hy].
Qed.

Lemma frame_deepcopy (v : hval) : frame (deepcopy v) fresh_val.
Proof.
  intros h Hi. unfold deepcopy.
  assert (Hnil : memo_fresh []) by constructor.
  destruct (frame_deepcopy_memo (S (length h)) [] v Hnil h Hi) as [H1 H2].
  destruct (deepcopy_memo (S (length h)) [] v h) as [h' [r | c msg]];
    simpl in *.
  - split; [exact H1 |]. intros a [= <-]. exact (proj2 (H2 r eq_refl)).
  - split; [exact H1 | discriminate].
Qed.

Ltac fr :=
  lazymatch goal with
  | |- frame (bind _ _) _ => eapply frame_bind; [fr | intros; fr]
  | |- frame (ret _) _ => apply frame_ret; first [exact I | assumption]
  | |- frame (raise _ _) _ => apply frame_raise
  | |- frame (lift _) _ => apply frame_lift
  | |- frame (hset _ _ _) _ =>
      apply frame_hset; first [assumption | exact I]
  | |- frame (hset_val _ _ _) _ => apply frame_hset_val; assumption
  | |- frame (deepcopy _) _ => apply frame_deepcopy
  | |- frame (alloc_val _) _ => apply frame_alloc_val
  | |- frame (alloc _) _ =>
      apply frame_alloc; simpl; repeat constructor; assumption
  | |- frame (hget _ _) _ => apply frame_hget; assumption
  | |- frame (hget0 _) _ =>
      first [ apply frame_hget0; assumption
            | apply frame_pure_read; intros; apply hget0_pure ]
  | |- frame (hget_opt _ _) _ =>
      first [ apply frame_hget_opt_fresh; assumption
            | apply frame_pure_read; intros; apply hget_opt_pure ]
  | |- frame (read _) _ => apply frame_pure_read; intros; apply read_pure
  | |- frame (match ?x with _ => _ end) _ => destruct x; fr
  end.

Lemma frame_assign_prise (E : env) (new_id : option string) (vehicule : hval) :
  fresh_val vehicule ->
  frame (assign_prise E new_id vehicule) (fun _ => True).
Proof. intros Hv. unfold assign_prise. fr. Qed.

Lemma frame_finOptim_view (record : pydict) (dds : pyval)
    (configuration : hval) :
  fresh_val configuration ->
  frame (finOptim_view record dds configuration) (fun _ => True).
Proof. intros Hc. unfold finOptim_view. fr. Qed.

(** Every write of [map_record] goes to an object made since the
    call. *)
Lemma frame_map_record (E : env) (record : pydict) (template : hval)
    (P : params) :
  frame (Store.map_record E record template P) fresh_val.
Proof.
  unfold Store.map_record. cbv zeta.
  eapply frame_bind; [apply frame_deepcopy |]. intros data Hdata.
  eapply frame_bind; [apply frame_hset_val; exact Hdata |]. intros _ _.
  eapply frame_bind;
    [apply frame_pure_read; intros; apply hget_opt_pure |].
  intros config_template _.
  eapply frame_bind; [apply frame_deepcopy |]. intros configuration Hcfg.
  do 9 (eapply frame_bind with (Q := fun _ => True); [fr | intros ? _]).
  eapply frame_bind with (Q := fun _ => True); [fr | intros srcs _].
  eapply frame_bind with (Q := fun _ => True); [fr | intros ? _].
  eapply frame_bind;
    [apply frame_pure_read; intros; apply hget_opt_pure |].
  intros vehs _.
  eapply frame_bind with (Q := fun _ => True).
  { destruct vehs; [apply frame_ret; exact I |].
    eapply frame_weaken; [apply frame_alloc_val | intros; exact I]. }
  intros vehs' _.
  eapply frame_bind;
    [apply frame_pure_read; intros; apply hget0_pure |].
  intros veh_template _.
  eapply frame_bind; [apply frame_deepcopy |]. intros vehicule Hveh.
  eapply frame_bind with (Q := fun _ => True); [fr | intros tveh _].
  eapply frame_bind with (Q := fun _ => True); [fr | intros ? _].
  eapply frame_bind; [apply frame_assign_prise; exact Hveh | intros ? _].
  do 6 (eapply frame_bind with (Q := fun _ => True); [fr | intros ? _]).
  eapply frame_bind; [apply frame_finOptim_view; exact Hcfg | intros cfg _].
  eapply frame_bind with (Q := fun _ => True); [fr | intros ds _].
  do 2 (eapply frame_bind with (Q := fun _ => True); [fr | intros ? _]).
  eapply frame_bind; [apply frame_hget_opt_fresh; exact Hveh |].
  intros cur Hcur.
  eapply frame_bind with (Q := fun _ => True).
  { destruct cur; [apply frame_pure_read; intros; apply read_pure |].
    apply frame_ret; exact I. }
  intros cur_debut _.
  eapply frame_bind with (Q := fun _ => True); [fr | intros ? _].
  eapply frame_bind; [fr |]. intros vlist Hvlist.
  eapply frame_bind with (Q := fun _ => True); [fr | intros ? _].
  apply frame_ret. exact Hdata.
Qed.

End Frame.

(** *** Reading the template back *)

Definition val_below (n : nat) (v : hval) : Prop :=
  match v with HRef l => (l < n)%nat | _ => True end.

Definition obj_below (n : nat) (o : obj) : Prop :=
  match o with
  | OList xs => Forall (val_below n) xs
  | ODict es => Forall (fun e => val_below n (snd e)) es
  end.

(** The store holds no reference to an object it does not have, and
    the template is a value of the store. *)
Definition store_closed (h : heap) (template : hval) : Prop :=
  val_below (length h) template
  /\ forall l o, h !! l = Some o -> obj_below (length h) o.

Lemma reify_old (h0 h1 : heap) :
  (forall l, (l < length h0)%nat -> h1 !! l = h0 !! l) ->
  (forall l o, h0 !! l = Some o -> obj_below (length h0) o) ->
  forall fuel v,
    val_below (length h0) v -> reify fuel h1 v = reify fuel h0 v.
Proof.
  intros Hold Hclosed. induction fuel as [| fuel IH]; intros v Hv.
  - destruct v; reflexivity.
  - destruct v as [| | | | | | l]; try reflexivity.
    simpl in Hv. simpl. rewrite (Hold l Hv).
    destruct (h0 !! l) as [[xs | es] |] eqn:Hl; [| | reflexivity].
    + f_equal. pose proof (Hclosed l _ Hl) as Hb. simpl in Hb. clear Hl.
      induction Hb as [| x xs Hx _ IHxs]; [reflexivity |].
      rewrite (IH x Hx), IHxs. reflexivity.
    + f_equal. pose proof (Hclosed l _ Hl) as Hb. simpl in Hb. clear Hl.
      induction Hb as [| [k x] es Hx _ IHes]; [reflexivity |].
      simpl in Hx. rewrite (IH x Hx), IHes. reflexivity.
Qed.

(** The same, as a check that can be run. *)
Definition val_belowb (n : nat) (v : hval) : bool :=
  match v with HRef l => (l <? n)%nat | _ => true end.

Definition obj_belowb (n : nat) (o : obj) : bool :=
  match o with
  | OList xs => forallb (val_belowb n) xs
  | ODict es => forallb (fun e => val_belowb n (snd e)) es
  end.

Definition store_closedb (h : heap) (template : hval) : bool :=
  val_belowb (length h) template && forallb (obj_belowb (length h)) h.

Lemma val_belowb_ok (n : nat) (v : hval) :
  val_belowb n v = true -> val_below n v.
Proof.
  destruct v; simpl; try (intros _; exact I).
  intros H. apply Nat.ltb_lt. exact H.
Qed.

Lemma obj_belowb_ok (n : nat) (o : obj) :
  obj_belowb n o = true -> obj_below n o.
Proof.
  destruct o as [xs | es]; simpl; intros H.
  - apply List.Forall_forall. intros x Hx.
    apply val_belowb_ok. exact (proj1 (forallb_forall _ _) H x Hx).
  - apply List.Forall_forall. intros e He.
    apply val_belowb_ok. exact (proj1 (forallb_forall _ _) H e He).
Qed.

Lemma store_closedb_ok (h : heap) (template : hval) :
  store_closedb h template = true -> store_closed h template.
Proof.
  unfold store_closedb, store_closed. intros H.
  apply andb_true_iff in H as [Ht Hh].
  split; [apply val_belowb_ok; exact Ht |].
  intros l o Hl. apply obj_belowb_ok.
  apply (proj1 (forallb_forall _ _) Hh).
  apply list_elem_of_In. eapply list_elem_of_lookup_2. exact Hl.
Qed.

End StoreFacts.

Definition sample_infra : pyval :=
  PDict [("sources", PList [PDict [("transformateurs", PList [PDict [
     ("chargeurs", PList [PDict [
        ("id", PStr "C1");
        ("typeChargeur", PStr "type");
        ("prises", PList [PDict [("id", PStr "P1");
                                 ("typePrise", PStr "T")]])]])]])]])].

Definition test_env_infra : env :=
  mkenv ∅ ∅ ∅ [(0, 10); (50, 20)] sample_rows (Some sample_infra) 0 0
        (fun _ => "{}") (fun _ => "").

(** The two models agree also when the plug comes from an
    infrastructure, where the charger type is written two levels below
    the vehicle. *)
Example store_map_record_with_infrastructure :
  let '(h0, t) :=
    match Store.alloc_val DEFAULT_TEMPLATE [] with
    | (h0, Ok t) => (h0, t)
    | (h0, Raise _ _) => (h0, Store.HNone)
    end in
  let '(h1, r) := Store.map_record test_env_infra record_with_next_service t
                    params_chargement_20 h0 in
  match r with
  | Ok doc =>
      Some (Ok (default PNone (Store.reify 50 h1 doc)))
      = Some (map_record test_env_infra record_with_next_service
                DEFAULT_TEMPLATE params_chargement_20)
      /\ Store.reify 50 h1 t = Some DEFAULT_TEMPLATE
      /\ (let* v := getitem0 (default PNone
                                (Dict.get (match default PNone
                                                   (Store.reify 50 h1 doc) with
                                           | PDict d => d
                                           | _ => []
                                           end) "vehicules")) in
          let* tc := getitem v "typeChargeur" in
          let* tc0 := getitem0 tc in
          getitem tc0 "modeleChargeur") = Ok (PStr "type")
  | Raise _ _ => False
  end.
Proof. vm_compute. repeat split; reflexivity. Qed.

(** The built-in template, put in an empty store. *)
Definition template_store : list Store.obj * Store.hval :=
  match Store.alloc_val DEFAULT_TEMPLATE [] with
  | (h, Ok t) => (h, t)
  | (h, Raise _ _) => (h, Store.HNone)
  end.

(** C9. One call of the Record Mapper on the store leaves every object
    that existed before the call as it was; hence the template read back
    after the call, to any depth, is the template read before the call.
    The document that the call returns is an object made by the call: the
    mapper works on deep copies. *)
Theorem map_record_keeps_template (E : env) (record : pydict)
    (template : Store.hval) (P : params) (h0 : list Store.obj) :
  let out := Store.map_record E record template P h0 in
  (forall l o, h0 !! l = Some o -> fst out !! l = Some o)
  /\ (StoreFacts.store_closed h0 template ->
      forall depth,
        Store.reify depth (fst out) template = Store.reify depth h0 template)
  /\ (forall doc, snd out = Ok doc -> StoreFacts.fresh_val h0 doc).
Proof.
  intros out.
  destruct (StoreFacts.frame_map_record h0 E record template P h0
              (StoreFacts.inv_init h0)) as [Hinv Hdoc].
  fold out in Hinv, Hdoc.
  split; [| split].
  - intros l o Hl. rewrite (StoreFacts.inv_old h0 _ Hinv l); [exact Hl |].
    apply lookup_lt_Some in Hl. exact Hl.
  - intros [Ht Hclosed] depth.
    apply StoreFacts.reify_old; [| exact Hclosed | exact Ht].
    intros l Hl. exact (StoreFacts.inv_old h0 _ Hinv l Hl).
  - exact Hdoc.
Qed.

Lemma map_record_keeps_template_witness :
  Store.reify 50
    (fst (Store.map_record test_env record_soc_retour_42 (snd template_store)
            default_params (fst template_store)))
    (snd template_store)
  = Some DEFAULT_TEMPLATE.
Proof.
  destruct (map_record_keeps_template test_env record_soc_retour_42
              (snd template_store) default_params (fst template_store))
    as (_ & Hread & _).
  rewrite Hread; [vm_compute; reflexivity |].
  apply StoreFacts.store_closedb_ok. vm_compute. reflexivity.
Defined.

(** * Further properties of the code *)

(** ** Timestamps (src/utils.py, src/validator.py) *)

Lemma rstrip_by_drop (p : ascii -> bool) (s : string) (c : ascii) :
  p c = true -> Str.rstrip_by p (s ++ String c "") = Str.rstrip_by p s.
Proof.
  intros Hc. induction s as [| x s IH].
  - simpl. rewrite Hc. reflexivity.
  - rewrite IsoFacts.str_app_cons. simpl. rewrite IH. reflexivity.
Qed.

Lemma str_length_app (a b : string) :
  String.length (a ++ b) = (String.length a + String.length b)%nat.
Proof.
  induction a as [| x a IH]; [reflexivity |].
  rewrite IsoFacts.str_app_cons. simpl. rewrite IH. reflexivity.
Qed.

Lemma pad_length (k : nat) (n : Z) : String.length (Str.pad k n) = k.
Proof.
  revert n. induction k as [| k IH]; intros n; [reflexivity |].
  rewrite IsoFacts.pad_snoc, str_length_app, IH. simpl. lia.
Qed.

Lemma replace_us0_valid (d : DT.datetime) :
  DT.validb d = true -> DT.validb (DT.replace_us0 d) = true.
Proof.
  intros H. apply DTFacts.validb_spec in H as (Hy & Hmd & Hh & Hm & Hs & _).
  apply DTFacts.validb_spec. simpl.
  unfold DTFacts.valid_time, DTFacts.valid_md in *. simpl. lia.
Qed.

Lemma isoformat_replace_us0 (d : DT.datetime) :
  DT.isoformat (DT.replace_us0 d) = DT.isoformat_seconds (DT.replace_us0 d).
Proof. reflexivity. Qed.

Lemma isoformat_z_length (d : DT.datetime) :
  String.length (isoformat_z d) = 20%nat.
Proof.
  unfold isoformat_z, DT.isoformat_seconds, DT.date_iso, DT.time_iso_seconds,
    DT.dash, DT.colon.
  rewrite !str_length_app, !pad_length. reflexivity.
Qed.

(** X1. For every valid date-time [d], the text [isoformat_z d] has 20
    characters, [parse_iso_datetime] reads it back as [d] without its
    microseconds, and [_is_iso_datetime] accepts it. *)
Theorem isoformat_z_round_trip (d : DT.datetime) :
  DT.validb d = true ->
  String.length (isoformat_z d) = 20%nat
  /\ parse_iso_datetime (PStr (isoformat_z d)) = Ok (DT.replace_us0 d)
  /\ _is_iso_datetime (PStr (isoformat_z d)) = true.
Proof.
  intros Hv.
  assert (Hparse : parse_iso_datetime (PStr (isoformat_z d))
                   = Ok (DT.replace_us0 d)).
  { unfold parse_iso_datetime, isoformat_z, Str.rstrip_char.
    rewrite rstrip_by_drop by reflexivity.
    rewrite <- isoformat_replace_us0.
    fold (Str.rstrip_char "Z" (DT.isoformat (DT.replace_us0 d))).
    rewrite IsoFacts.rstrip_Z_isoformat.
    apply IsoFacts.fromisoformat_isoformat, replace_us0_valid, Hv. }
  split; [apply isoformat_z_length |]. split; [exact Hparse |].
  unfold _is_iso_datetime.
  destruct (String.eqb (isoformat_z d) "") eqn:E; [reflexivity |].
  rewrite Hparse. reflexivity.
Qed.

Lemma isoformat_z_round_trip_witness :
  parse_iso_datetime
    (PStr (isoformat_z (DT.mkdt (DT.mkdate 2024 2 29) 23 59 59 999999)))
  = Ok (DT.mkdt (DT.mkdate 2024 2 29) 23 59 59 0).
Proof.
  apply (isoformat_z_round_trip (DT.mkdt (DT.mkdate 2024 2 29) 23 59 59 999999)).
  reflexivity.
Defined.

(** ** Row Enricher (src/transformer.py), continued *)

Section TransformerMore.

Context {K T : Type} `{OrdK : Ord K} `{OrdT : Ord T}.

Local Abbreviation row := (row K T).

Lemma insert_row_sorted_head (x : row) (l : list row) :
  Forall (row_le x) l -> insert_row x l = x :: l.
Proof.
  intros H. destruct H as [| y l Hxy _]; simpl; [reflexivity |].
  unfold row_le in Hxy. rewrite Hxy. reflexivity.
Qed.

(** Sorting a sorted frame changes nothing. *)
Lemma sort_values_sorted_id (l : list row) :
  StronglySorted row_le l -> sort_values l = l.
Proof.
  induction 1 as [| x l _ IH Hall]; simpl; [reflexivity |].
  fold (sort_values l). rewrite IH. apply insert_row_sorted_head. exact Hall.
Qed.

Lemma add_next_service_time_sorted (df : list row) :
  StronglySorted row_le (add_next_service_time df).
Proof.
  unfold add_next_service_time. apply sorted_zip. apply sort_values_sorted.
Qed.

(** X2. The two enrichments compose as the orchestrator chains them:
    [compute_soc] on the output of [add_next_service_time] sorts again,
    which moves no line, so the result is that output, line for line,
    with only [soc_retour] filled in; the next-service column is
    kept. *)
Theorem compute_soc_after_next_service (df : list row)
    (conso_table capacity_table : table) (target_soc : Q) (proj : Z) :
  let enriched := add_next_service_time df in
  let out := compute_soc enriched conso_table target_soc proj capacity_table in
  out = List.map
          (fun r => set_soc r
                      (max0 (target_soc
                             - delta_soc conso_table capacity_table proj r)))
          enriched
  /\ List.map prochain_service out = List.map prochain_service enriched
  /\ List.map idx out = List.map idx enriched
  /\ StronglySorted row_le out.
Proof.
  intros enriched out.
  assert (Hout : out = List.map
            (fun r => set_soc r
                        (max0 (target_soc
                               - delta_soc conso_table capacity_table proj r)))
            enriched).
  { unfold out, compute_soc.
    rewrite (sort_values_sorted_id enriched (add_next_service_time_sorted df)).
    reflexivity. }
  split; [exact Hout |].
  split; [rewrite Hout, List.map_map; reflexivity |].
  split; [rewrite Hout, List.map_map; reflexivity |].
  rewrite Hout.
  pose proof (add_next_service_time_sorted df) as Hs. fold enriched in Hs.
  clear Hout out. induction Hs as [| r l _ IH Hall]; simpl; constructor.
  - exact IH.
  - apply List.Forall_map. eapply List.Forall_impl; [| exact Hall].
    intros a Ha. exact Ha.
Qed.

Lemma next_not_before_sorted (l : list row) :
  StronglySorted row_le l ->
  forall r t,
    In r (zip_with set_prochain l (following_departure l)) ->
    prochain_service r = Some t -> leb (hDep r) t = true.
Proof.
  induction 1 as [| a l Hs IH Hall]; simpl; [intros r t [] |].
  intros r t [<- | Hin] Ht; [| exact (IH r t Hin Ht)].
  simpl in Ht. destruct l as [| b l]; [discriminate |].
  destruct (same_veh a b) eqn:Hsv; [| discriminate].
  injection Ht as <-. simpl.
  inversion Hall as [| ? ? Hab _]; subst.
  unfold same_veh in Hsv. apply bool_decide_eq_true in Hsv.
  unfold row_le, row_leb in Hab.
  rewrite (decide_True (P := newIdVeh a = newIdVeh b)) in Hab by exact Hsv.
  exact Hab.
Qed.

(** X3. A next-service time is never earlier than the departure of the
    line that carries it, and every line of the enriched frame is a line
    of the input with only that column changed. *)
Theorem next_service_not_before_departure (df : list row) :
  forall r,
    In r (add_next_service_time df) ->
    (forall t, prochain_service r = Some t -> leb (hDep r) t = true)
    /\ exists r0, In r0 df /\ r = set_prochain r0 (prochain_service r).
Proof.
  intros r Hr. split.
  - intros t Ht. revert Hr Ht. unfold add_next_service_time.
    rewrite (group_shift_sorted _ (sort_values_sorted df)).
    apply next_not_before_sorted, sort_values_sorted.
  - unfold add_next_service_time in Hr.
    assert (Hex : forall (l : list row) (vs : list (option T)),
               In r (zip_with set_prochain l vs) ->
               exists r0, In r0 l /\ r = set_prochain r0 (prochain_service r)).
    { induction l as [| a l IH]; intros vs Hin; [destruct Hin |].
      destruct vs as [| v vs]; [destruct Hin |].
      simpl in Hin. destruct Hin as [<- | Hin].
      - exists a. split; [left; reflexivity | reflexivity].
      - destruct (IH vs Hin) as (r0 & H0 & Heq).
        exists r0. split; [right; exact H0 | exact Heq]. }
    destruct (Hex _ _ Hr) as (r0 & H0 & Heq).
    exists r0. split; [| exact Heq].
    apply in_sort_values. exact H0.
Qed.

(** X4. With a non-negative target, consumption, capacity and distance,
    the state of charge after a service lies between 0 and the
    target. *)
Theorem soc_within_bounds (df : list row) (conso_table capacity_table : table)
    (target_soc : Q) (proj : Z) (r' : row) (q : Q) :
  (0 <= target_soc)%Q ->
  (forall r, In r df ->
     (0 <= table_get conso_table proj (Str.strip (tVeh r)))%Q
     /\ (0 <= table_get capacity_table proj (Str.strip (tVeh r)))%Q
     /\ (0 <= try_except (Num.py_float (dist r)) 0)%Q) ->
  In r' (compute_soc df conso_table target_soc proj capacity_table) ->
  soc_retour r' = Some q ->
  (0 <= q)%Q /\ (q <= target_soc)%Q.
Proof.
  intros Ht Hpos Hin Hq.
  destruct (compute_soc_rows df conso_table capacity_table target_soc proj)
    as (_ & H2 & _ & H4).
  split; [exact (H4 r' q Hin Hq) |].
  destruct (H2 r' Hin) as (r & Hr & ->). simpl in Hq. injection Hq as <-.
  destruct (Hpos r Hr) as (Hc & Hcap & Hd).
  assert (Hdelta : (0 <= delta_soc conso_table capacity_table proj r)%Q).
  { unfold delta_soc.
    destruct (Qeq_bool (table_get capacity_table proj (Str.strip (tVeh r))) 0);
      simpl; [apply Qle_refl |].
    apply Qmult_le_0_compat; [| discriminate].
    unfold Qdiv. apply Qmult_le_0_compat.
    - apply Qmult_le_0_compat; assumption.
    - apply Qinv_le_0_compat. exact Hcap. }
  unfold soc_after, max0.
  destruct (Qlt_le_dec _ 0); [exact Ht |].
  apply (Qplus_le_l _ _ (delta_soc conso_table capacity_table proj r)).
  ring_simplify.
  rewrite <- (Qplus_0_r target_soc) at 1.
  apply Qplus_le_r. exact Hdelta.
Qed.

End TransformerMore.

Definition soc_test_first : row string Z :=
  hd (mkrow 0 "" 0 "" PNone None None)
     (compute_soc soc_test_frame soc_test_conso 100 0 soc_test_capacities).

Lemma soc_within_bounds_witness :
  (0 <= default 0%Q (soc_retour soc_test_first))%Q
  /\ (default 0%Q (soc_retour soc_test_first) <= 100)%Q.
Proof.
  apply (soc_within_bounds soc_test_frame soc_test_conso soc_test_capacities
           100 0 soc_test_first).
  - discriminate.
  - intros r Hr. simpl in Hr.
    repeat (destruct Hr as [<- | Hr]; [repeat split; discriminate |]).
    destruct Hr.
  - left. reflexivity.
  - reflexivity.
Defined.

Definition next_test_frame : list (row string Z) :=
  [ mkrow 0 "A" 800 "P" PNone None None;
    mkrow 1 "A" 1200 "P" PNone None None;
    mkrow 2 "B" 900 "T" PNone None None ].

Lemma next_service_not_before_departure_witness :
  leb (hDep (mkrow 0 "A" 800 "P" PNone (Some 1200) None : row string Z)) 1200
  = true.
Proof.
  assert (Hin : In (mkrow 0 "A" 800 "P" PNone (Some 1200) None)
                   (add_next_service_time next_test_frame))
    by (left; reflexivity).
  apply (proj1 (next_service_not_before_departure next_test_frame _ Hin) 1200).
  reflexivity.
Defined.

(** ** Schema validation (src/validator.py), continued *)

(** *** What the validator looks at *)

Lemma items_loop_first_failure (sub : schema) (path : string)
    (items1 : list pyval) (item : pyval) (items2 : list pyval) :
  Forall (fun it => conforms it sub) items1 ->
  forall idx,
    items_loop sub path idx (items1 ++ item :: items2)
    = let* _ := _validate item sub
                  (path ++ "[" ++ Str.of_nat (idx + length items1) ++ "].") in
      items_loop sub path (S (idx + length items1)) items2.
Proof.
  induction 1 as [| it its Hc _ IH]; intros idx; simpl.
  - rewrite Nat.add_0_r. reflexivity.
  - apply (validate_ok_iff sub it (path ++ "[" ++ Str.of_nat idx ++ "].")) in Hc.
    rewrite Hc. simpl. rewrite IH.
    replace (S idx + length its)%nat with (idx + S (length its))%nat by lia.
    reflexivity.
Qed.

(** X5. In a mapping node [_validate] reads the value only at the keys
    of the schema: two mappings that agree on those keys get the same
    verdict, the same exception with the same message included.  Keys
    that the schema does not name are never looked at. *)
Theorem validate_reads_schema_keys_only (d d' : pydict)
    (es : list (string * schema)) (path : string) :
  (forall k, In k (List.map fst es) -> Dict.get d k = Dict.get d' k) ->
  _validate (PDict d) (SDict es) path = _validate (PDict d') (SDict es) path.
Proof.
  intros H. rewrite !validate_dict_eq. apply entries_loop_ext.
  intros e He. apply H. apply List.in_map_iff. exists e. split; [reflexivity | exact He].
Qed.

Definition template_with_extra_key : pydict :=
  match DEFAULT_TEMPLATE with
  | PDict d => Dict.set d "commentaire" (PList [PNone])
  | _ => []
  end.

Lemma validate_reads_schema_keys_only_witness :
  validate_json (PDict template_with_extra_key) = validate_json DEFAULT_TEMPLATE.
Proof.
  apply (validate_reads_schema_keys_only template_with_extra_key _
           (schema_entries SCHEMA) "").
  intros k Hk. simpl in Hk.
  repeat (destruct Hk as [<- | Hk]; [reflexivity |]). contradiction.
Defined.

(** X6. In a list node the elements are checked in order and the first
    one that does not pass decides: its exception is the exception of
    the whole list, raised under the path that carries its index; the
    elements after it are not looked at. *)
Theorem validate_list_first_failure (sub : schema) (path : string)
    (items1 : list pyval) (item : pyval) (items2 : list pyval)
    (c : exn_class) (msg : string) :
  Forall (fun it => conforms it sub) items1 ->
  _validate item sub (path ++ "[" ++ Str.of_nat (length items1) ++ "].")
  = Raise c msg ->
  _validate (PList (items1 ++ item :: items2)) (SList [sub]) path
  = Raise c msg.
Proof.
  intros H1 Hraise.
  rewrite validate_list_eq, (items_loop_first_failure sub path items1 item items2 H1 O).
  simpl. rewrite Hraise. reflexivity.
Qed.

Lemma validate_list_first_failure_witness :
  _validate (PList [PStr "a"; PStr "b"; PInt 3; PNone]) (SList [SType TStr])
    "synthese."
  = Raise TypeError "synthese.[2] must be of type str".
Proof.
  apply (validate_list_first_failure (SType TStr) "synthese."
           [PStr "a"; PStr "b"] (PInt 3) [PNone]).
  - repeat constructor.
  - reflexivity.
Defined.

(** ** Record Mapper (src/mapper.py), continued *)

(** ** What [map_record] writes, field by field *)

Ltac map_record_steps H :=
  unfold map_record in H;
  apply rbind_ok in H; destruct H as [data0 [Hdata0 H]];
  apply rbind_ok in H; destruct H as [cfg0 [Hcfg0 H]];
  apply rbind_ok in H; destruct H as [cfg1 [Hcfg1 H]];
  apply rbind_ok in H; destruct H as [cfg2 [Hcfg2 H]];
  apply rbind_ok in H; destruct H as [cfg3 [Hcfg3 H]];
  apply rbind_ok in H; destruct H as [cfg4 [Hcfg4 H]];
  apply rbind_ok in H; destruct H as [cfg5 [Hcfg5 H]];
  apply rbind_ok in H; destruct H as [bounds [Hbounds H]];
  destruct bounds as [min_jour max_jour];
  apply rbind_ok in H; destruct H as [cfg6 [Hcfg6 H]];
  apply rbind_ok in H; destruct H as [configuration [Hcfg7 H]];
  apply rbind_ok in H; destruct H as [data1 [Hdata1 H]];
  apply rbind_ok in H; destruct H as [srcs [Hsrcs H]];
  apply rbind_ok in H; destruct H as [data2 [Hdata2 H]];
  apply rbind_ok in H; destruct H as [vehs [Hvehs H]];
  apply rbind_ok in H; destruct H as [veh_template [Hvt H]];
  apply rbind_ok in H; destruct H as [tveh [Htveh H]];
  apply rbind_ok in H; destruct H as [veh0 [Hveh0 H]];
  apply rbind_ok in H; destruct H as [veh1 [Hveh1 H]];
  apply rbind_ok in H; destruct H as [veh2 [Hveh2 H]];
  apply rbind_ok in H; destruct H as [veh3 [Hveh3 H]];
  apply rbind_ok in H; destruct H as [veh4 [Hveh4 H]];
  apply rbind_ok in H; destruct H as [veh5 [Hveh5 H]];
  apply rbind_ok in H; destruct H as [veh6 [Hveh6 H]];
  apply rbind_ok in H; destruct H as [veh7 [Hveh7 H]];
  apply rbind_ok in H; destruct H as [ds [Hds H]];
  apply rbind_ok in H; destruct H as [veh8 [Hveh8 H]];
  apply rbind_ok in H; destruct H as [veh9 [Hveh9 H]];
  apply rbind_ok in H; destruct H as [cur_debut [Hcur H]];
  apply rbind_ok in H; destruct H as [vehicule [Hveh10 H]].

Lemma opt_setitem_get_eq {A} (o : option A) (obj obj' : pyval)
    (k : string) (f : A -> pyval) :
  match o with Some a => setitem obj k (f a) | None => Ok obj end = Ok obj' ->
  getitem obj' k
  = match o with Some a => Ok (f a) | None => getitem obj k end.
Proof.
  destruct o as [a |]; intros H.
  - exact (setitem_get_eq _ _ _ _ H).
  - injection H as <-. reflexivity.
Qed.

(** The configuration block of the document, key by key. *)
Lemma map_record_configuration (E : env) (record : pydict) (template : pyval)
    (P : params) (doc : pyval) :
  map_record E record template P = Ok doc ->
  exists min_jour max_jour config_template configuration,
    jour_dep_bounds (resultat_rows E) = Ok (min_jour, max_jour)
    /\ py_get template "configuration" PNone = Ok config_template
    /\ getitem doc "configuration" = Ok configuration
    /\ getitem configuration "activationRendement"
       = match activation_rendement P with
         | Some s => Ok (PStr s)
         | None => getitem config_template "activationRendement"
         end
    /\ getitem configuration "axeOptimDegrade"
       = Ok (match axe_optim_degrade P with
             | None => PList [PInt 1; PInt 2; PInt 3]
             | Some l => PList (List.map PInt l)
             end)
    /\ getitem configuration "diminutionSOC"
       = match diminution_soc P with
         | Some q => Ok (PInt (Num.trunc q))
         | None => getitem config_template "diminutionSOC"
         end
    /\ getitem configuration "pasDeTemps"
       = match pas_de_temps P with
         | Some z => Ok (PInt z)
         | None => getitem config_template "pasDeTemps"
         end
    /\ getitem configuration "maximumExecTemps"
       = Ok (PInt (maximum_exec_temps P))
    /\ (if is_none (start_dt P)
        then getitem configuration "debutOptim"
             = getitem config_template "debutOptim"
        else exists s, debutOptim_value min_jour (start_dt P) = Ok s
                       /\ getitem configuration "debutOptim" = Ok (PStr s))
    /\ (if is_none (end_dt P)
        then getitem configuration "finOptim"
             = getitem config_template "finOptim"
        else exists s, finOptim_value max_jour (end_dt P) = Ok s
                       /\ getitem configuration "finOptim" = Ok (PStr s))
    /\ (forall k,
          ~ In k ["activationRendement"; "axeOptimDegrade"; "diminutionSOC";
                  "pasDeTemps"; "maximumExecTemps"; "debutOptim"; "finOptim"] ->
          getitem configuration k = getitem config_template k).
Proof.
  intros H. map_record_steps H.
  exists min_jour, max_jour, cfg0, configuration.
  assert (H6 : forall k, k <> "debutOptim" -> getitem cfg6 k = getitem cfg5 k).
  { intros k Hk. destruct (is_none (start_dt P)).
    - injection Hcfg6 as <-. reflexivity.
    - bind_as Hcfg6 s Hs. exact (setitem_get_ne _ _ k _ _ Hcfg6 Hk). }
  assert (H7 : forall k, k <> "finOptim" ->
                         getitem configuration k = getitem cfg6 k).
  { intros k Hk. destruct (is_none (end_dt P)).
    - injection Hcfg7 as <-. reflexivity.
    - bind_as Hcfg7 s Hs. exact (setitem_get_ne _ _ k _ _ Hcfg7 Hk). }
  split; [exact Hbounds |]. split; [exact Hcfg0 |].
  split.
  { rewrite (setitem_get_ne _ _ "configuration" _ _ H) by discriminate.
    rewrite (setitem_get_ne _ _ "configuration" _ _ Hdata2) by discriminate.
    exact (setitem_get_eq _ _ _ _ Hdata1). }
  split.
  { rewrite H7, H6 by discriminate.
    rewrite (setitem_get_ne _ _ "activationRendement" _ _ Hcfg5) by discriminate.
    rewrite (opt_setitem_get_ne _ _ _ _ "activationRendement" PInt Hcfg4)
      by discriminate.
    rewrite (opt_setitem_get_ne _ _ _ _ "activationRendement"
               (fun q => PInt (Num.trunc q)) Hcfg3) by discriminate.
    rewrite (setitem_get_ne _ _ "activationRendement" _ _ Hcfg2) by discriminate.
    exact (opt_setitem_get_eq _ _ _ _ PStr Hcfg1). }
  split.
  { rewrite H7, H6 by discriminate.
    rewrite (setitem_get_ne _ _ "axeOptimDegrade" _ _ Hcfg5) by discriminate.
    rewrite (opt_setitem_get_ne _ _ _ _ "axeOptimDegrade" PInt Hcfg4)
      by discriminate.
    rewrite (opt_setitem_get_ne _ _ _ _ "axeOptimDegrade"
               (fun q => PInt (Num.trunc q)) Hcfg3) by discriminate.
    exact (setitem_get_eq _ _ _ _ Hcfg2). }
  split.
  { rewrite H7, H6 by discriminate.
    rewrite (setitem_get_ne _ _ "diminutionSOC" _ _ Hcfg5) by discriminate.
    rewrite (opt_setitem_get_ne _ _ _ _ "diminutionSOC" PInt Hcfg4)
      by discriminate.
    rewrite (opt_setitem_get_eq _ _ _ _ (fun q => PInt (Num.trunc q)) Hcfg3).
    destruct (diminution_soc P); [reflexivity |].
    rewrite (setitem_get_ne _ _ "diminutionSOC" _ _ Hcfg2) by discriminate.
    exact (opt_setitem_get_ne _ _ _ _ "diminutionSOC" PStr Hcfg1
             ltac:(discriminate)). }
  split.
  { rewrite H7, H6 by discriminate.
    rewrite (setitem_get_ne _ _ "pasDeTemps" _ _ Hcfg5) by discriminate.
    rewrite (opt_setitem_get_eq _ _ _ _ PInt Hcfg4).
    destruct (pas_de_temps P); [reflexivity |].
    rewrite (opt_setitem_get_ne _ _ _ _ "pasDeTemps"
               (fun q => PInt (Num.trunc q)) Hcfg3) by discriminate.
    rewrite (setitem_get_ne _ _ "pasDeTemps" _ _ Hcfg2) by discriminate.
    exact (opt_setitem_get_ne _ _ _ _ "pasDeTemps" PStr Hcfg1
             ltac:(discriminate)). }
  split.
  { rewrite H7, H6 by discriminate. exact (setitem_get_eq _ _ _ _ Hcfg5). }
  assert (Hframe : forall k,
            ~ In k ["activationRendement"; "axeOptimDegrade"; "diminutionSOC";
                    "pasDeTemps"; "maximumExecTemps"] ->
            getitem cfg5 k = getitem cfg0 k).
  { intros k Hk. simpl in Hk.
    rewrite (setitem_get_ne _ _ k _ _ Hcfg5) by (intros ->; intuition congruence).
    rewrite (opt_setitem_get_ne _ _ _ _ k PInt Hcfg4) by (intros ->; intuition congruence).
    rewrite (opt_setitem_get_ne _ _ _ _ k (fun q => PInt (Num.trunc q)) Hcfg3)
      by (intros ->; intuition congruence).
    rewrite (setitem_get_ne _ _ k _ _ Hcfg2) by (intros ->; intuition congruence).
    exact (opt_setitem_get_ne _ _ _ _ k PStr Hcfg1 ltac:(intros ->; intuition congruence)). }
  split.
  { destruct (is_none (start_dt P)) eqn:Hstart.
    - rewrite H7 by discriminate. injection Hcfg6 as <-.
      apply Hframe. simpl. intros [Hk | [Hk | [Hk | [Hk | [Hk | []]]]]];
        discriminate Hk.
    - bind_as Hcfg6 s Hs. exists s. split; [exact Hs |].
      rewrite H7 by discriminate. exact (setitem_get_eq _ _ _ _ Hcfg6). }
  split.
  { destruct (is_none (end_dt P)) eqn:Hend.
    - injection Hcfg7 as <-. rewrite H6 by discriminate.
      apply Hframe. simpl. intros [Hk | [Hk | [Hk | [Hk | [Hk | []]]]]];
        discriminate Hk.
    - bind_as Hcfg7 s Hs. exists s. split; [exact Hs |].
      exact (setitem_get_eq _ _ _ _ Hcfg7). }
  intros k Hk. simpl in Hk.
  rewrite H7, H6 by (intros ->; intuition congruence). apply Hframe. simpl. tauto.
Qed.

Lemma py_get_ok (obj : pyval) (k : string) (dflt v : pyval) :
  py_get obj k dflt = Ok v ->
  exists d, obj = PDict d /\ v = Dict.get_default d k dflt.
Proof.
  destruct obj; simpl; try discriminate.
  intros [= <-]. eexists. split; reflexivity.
Qed.

Lemma setitem_py_get_ne (obj : pyval) (k k' : string) (v obj' dflt : pyval) :
  setitem obj k v = Ok obj' -> k' <> k ->
  py_get obj' k' dflt = py_get obj k' dflt.
Proof.
  intros H Hne. apply setitem_ok in H as [d [-> ->]]. simpl.
  unfold Dict.get_default. rewrite dict_get_set_ne by exact Hne. reflexivity.
Qed.

(** The plug assignment touches three keys at most, and one without an
    infrastructure description. *)
Lemma assign_prise_frame (E : env) (new_id : option string) (v v' : pyval) :
  assign_prise E new_id v = Ok v' ->
  forall k, ~ In k ["idPrise"; "typeChargeur"; "typePrise"] ->
            getitem v' k = getitem v k.
Proof.
  unfold assign_prise. intros H k Hk. simpl in Hk.
  bind_as H v0 Hv0.
  assert (H0 : getitem v0 k = getitem v k)
    by (apply (setitem_get_ne _ _ k _ _ Hv0); intros ->; intuition congruence).
  rewrite <- H0. clear H0 Hv0.
  destruct (infra E) as [inf |].
  - bind_as H chargers Hch. destruct chargers as [| c cs].
    + injection H as <-. reflexivity.
    + bind_as H charger Hcharger. bind_as H prises Hprises.
      bind_as H prise Hprise. bind_as H pid Hpid. bind_as H v1 Hv1.
      bind_as H modele Hmodele. bind_as H v2 Hv2. bind_as H cur Hcur.
      bind_as H tp Htp.
      rewrite (setitem_get_ne _ _ k _ _ H) by (intros ->; intuition congruence).
      assert (H2 : getitem v2 k = getitem v1 k).
      { destruct (truthy modele).
        - bind_as Hv2 tcs Htcs. bind_as Hv2 tcs0 Htcs0. bind_as Hv2 tcs1 Htcs1.
          bind_as Hv2 tcs2 Htcs2.
          apply (setitem_get_ne _ _ k _ _ Hv2). intros ->. intuition congruence.
        - injection Hv2 as <-. reflexivity. }
      rewrite H2.
      apply (setitem_get_ne _ _ k _ _ Hv1). intros ->. intuition congruence.
  - destruct new_id as [id |].
    + apply (setitem_get_ne _ _ k _ _ H). intros ->. intuition congruence.
    + injection H as <-. reflexivity.
Qed.

Lemma assign_prise_no_infra (E : env) (new_id : option string) (v v' : pyval) :
  infra E = None ->
  assign_prise E new_id v = Ok v' ->
  getitem v' "idPrise"
  = Ok (PStr match new_id with
             | Some id => "TR1_CH_" ++ id ++ "_P1"
             | None => ""
             end)
  /\ forall k, k <> "idPrise" -> getitem v' k = getitem v k.
Proof.
  unfold assign_prise. intros Hinf H. rewrite Hinf in H.
  bind_as H v0 Hv0. destruct new_id as [id |].
  - split; [exact (setitem_get_eq _ _ _ _ H) |].
    intros k Hk. rewrite (setitem_get_ne _ _ k _ _ H Hk).
    exact (setitem_get_ne _ _ k _ _ Hv0 Hk).
  - injection H as <-. split; [exact (setitem_get_eq _ _ _ _ Hv0) |].
    intros k Hk. exact (setitem_get_ne _ _ k _ _ Hv0 Hk).
Qed.

(** The keys of the vehicle block that [map_record] may assign. *)
Definition vehicle_keys : list string :=
  ["capaciteBatterie"; "idPrise"; "typeChargeur"; "typePrise"; "modeBoost";
   "profilBatterie"; "soc"; "socCible"; "dureeService"; "finService";
   "debutService"; "id"; "libelle"].

(** The text of [libelle] *)
Definition libelle_value (E : env) (record : pydict) (P : params)
    (tveh : string) (debut_service : pyval) : pyval :=
  PStr (json_dumps E (PDict [
    ("numeroExploitation", PStr (opt_str (new_id_of E record)));
    ("debutService", debut_service);
    ("MargeSecurite", PStr (hhmm (marge_securite P)));
    ("MargePrechauffage", PStr (hhmm (marge_prechauffage P)));
    ("Conso", PFloat (round2 (table_get (consos E) (projection P) tveh)))])).

(** The vehicle block of the document, key by key. *)
Lemma map_record_vehicle (E : env) (record : pydict) (template : pyval)
    (P : params) (doc : pyval) :
  map_record E record template P = Ok doc ->
  exists veh_template vehicule tveh debut_service,
    (let* vehs := py_get template "vehicules" (PList [PDict []]) in
     getitem0 vehs) = Ok veh_template
    /\ tveh_of record = Ok tveh
    /\ getitem doc "vehicules" = Ok (PList [vehicule])
    /\ getitem vehicule "capaciteBatterie"
       = Ok (PInt (Num.trunc (table_get (capacities E) (projection P) tveh)))
    /\ getitem vehicule "modeBoost" = Ok (PInt 0)
    /\ getitem vehicule "profilBatterie"
       = Ok (profile_value E (projection P) tveh)
    /\ getitem vehicule "socCible"
       = Ok (PInt (socCible_value record (soc_cible P)))
    /\ getitem vehicule "dureeService"
       = match Num.py_int (Dict.get_default record "dist" PNone) with
         | Ok z => Ok (PInt z)
         | Raise _ _ => getitem veh_template "dureeService"
         end
    /\ match _dt (Dict.get record "hFin") with
       | Some h =>
           exists fs,
             DT.add h (DT.td_minutes_q (inject_Z (or0 (temps_dechargement P))))
             = Ok fs
             /\ getitem vehicule "finService" = Ok (PStr (isoformat_z fs))
       | None => getitem vehicule "finService" = Ok (PStr "")
       end
    /\ getitem vehicule "id"
       = match new_id_of E record with
         | Some id => Ok (PStr id)
         | None => getitem veh_template "id"
         end
    /\ (infra E = None ->
        getitem vehicule "idPrise"
        = Ok (PStr match new_id_of E record with
                   | Some id => "TR1_CH_" ++ id ++ "_P1"
                   | None => ""
                   end)
        /\ getitem vehicule "typeChargeur" = getitem veh_template "typeChargeur"
        /\ getitem vehicule "typePrise" = getitem veh_template "typePrise")
    /\ py_get vehicule "debutService" (PStr "") = Ok debut_service
    /\ getitem vehicule "libelle"
       = Ok (libelle_value E record P tveh debut_service)
    /\ (forall k, ~ In k vehicle_keys ->
                  getitem vehicule k = getitem veh_template k).
Proof.
  intros H. map_record_steps H.
  exists veh_template, vehicule, tveh, cur_debut.
  assert (Hvehs' : (let* vehs := py_get template "vehicules" (PList [PDict []]) in
                    getitem0 vehs) = Ok veh_template)
    by (rewrite Hvehs; exact Hvt).
  assert (H7 : forall k, k <> "finService" -> getitem veh7 k = getitem veh6 k).
  { intros k Hk. destruct (_dt (Dict.get record "hFin")).
    - bind_as Hveh7 fs Hfs. exact (setitem_get_ne _ _ k _ _ Hveh7 Hk).
    - exact (setitem_get_ne _ _ k _ _ Hveh7 Hk). }
  (* from the last assignment back to a given one *)
  assert (L9 : forall k, k <> "libelle" -> getitem vehicule k = getitem veh9 k)
    by (intros k Hk; exact (setitem_get_ne _ _ k _ _ Hveh10 Hk)).
  assert (L8 : forall k, k <> "libelle" -> k <> "id" ->
                         getitem vehicule k = getitem veh8 k).
  { intros k H1 H2. rewrite L9 by exact H1.
    exact (opt_setitem_get_ne _ _ _ _ k PStr Hveh9 H2). }
  assert (L7 : forall k, k <> "libelle" -> k <> "id" -> k <> "debutService" ->
                         getitem vehicule k = getitem veh7 k).
  { intros k H1 H2 H3. rewrite L8 by assumption.
    exact (opt_setitem_get_ne _ _ _ _ k PStr Hveh8 H3). }
  assert (L6 : forall k, k <> "libelle" -> k <> "id" -> k <> "debutService" ->
                         k <> "finService" ->
                         getitem vehicule k = getitem veh6 k).
  { intros k H1 H2 H3 H4. rewrite L7 by assumption. apply H7. exact H4. }
  assert (L5 : forall k, k <> "libelle" -> k <> "id" -> k <> "debutService" ->
                         k <> "finService" -> k <> "dureeService" ->
                         getitem vehicule k = getitem veh5 k).
  { intros k H1 H2 H3 H4 H5. rewrite L6 by assumption.
    exact (res_setitem_get_ne _ _ _ _ k PInt Hveh6 H5). }
  assert (L1 : forall k, k <> "libelle" -> k <> "id" -> k <> "debutService" ->
                         k <> "finService" -> k <> "dureeService" ->
                         k <> "socCible" -> k <> "soc" ->
                         k <> "profilBatterie" -> k <> "modeBoost" ->
                         getitem vehicule k = getitem veh1 k).
  { intros k H1 H2 H3 H4 H5 H6 H8 H9 H10. rewrite L5 by assumption.
    rewrite (setitem_get_ne _ _ k _ _ Hveh5) by assumption.
    rewrite (setitem_get_ne _ _ k _ _ Hveh4) by assumption.
    rewrite (setitem_get_ne _ _ k _ _ Hveh3) by assumption.
    exact (setitem_get_ne _ _ k _ _ Hveh2 H10). }
  split; [exact Hvehs' |]. split; [exact Htveh |].
  split; [exact (setitem_get_eq _ _ _ _ H) |].
  split.
  { rewrite L1 by discriminate.
    rewrite (assign_prise_frame _ _ _ _ Hveh1)
      by (simpl; intros [Hk | [Hk | [Hk | []]]]; discriminate Hk).
    exact (setitem_get_eq _ _ _ _ Hveh0). }
  split.
  { rewrite L5 by discriminate.
    rewrite (setitem_get_ne _ _ "modeBoost" _ _ Hveh5) by discriminate.
    rewrite (setitem_get_ne _ _ "modeBoost" _ _ Hveh4) by discriminate.
    rewrite (setitem_get_ne _ _ "modeBoost" _ _ Hveh3) by discriminate.
    exact (setitem_get_eq _ _ _ _ Hveh2). }
  split.
  { rewrite L5 by discriminate.
    rewrite (setitem_get_ne _ _ "profilBatterie" _ _ Hveh5) by discriminate.
    rewrite (setitem_get_ne _ _ "profilBatterie" _ _ Hveh4) by discriminate.
    exact (setitem_get_eq _ _ _ _ Hveh3). }
  split.
  { rewrite L5 by discriminate. exact (setitem_get_eq _ _ _ _ Hveh5). }
  split.
  { rewrite L6 by discriminate.
    destruct (Num.py_int (Dict.get_default record "dist" PNone)) as [z | c m].
    - exact (setitem_get_eq _ _ _ _ Hveh6).
    - injection Hveh6 as <-.
      rewrite (setitem_get_ne _ _ "dureeService" _ _ Hveh5) by discriminate.
      rewrite (setitem_get_ne _ _ "dureeService" _ _ Hveh4) by discriminate.
      rewrite (setitem_get_ne _ _ "dureeService" _ _ Hveh3) by discriminate.
      rewrite (setitem_get_ne _ _ "dureeService" _ _ Hveh2) by discriminate.
      rewrite (assign_prise_frame _ _ _ _ Hveh1)
        by (simpl; intros [Hk | [Hk | [Hk | []]]]; discriminate Hk).
      exact (setitem_get_ne _ _ "dureeService" _ _ Hveh0 ltac:(discriminate)). }
  split.
  { destruct (_dt (Dict.get record "hFin")) as [h |].
    - bind_as Hveh7 fs Hfs. exists fs. split; [exact Hfs |].
      rewrite L7 by discriminate. exact (setitem_get_eq _ _ _ _ Hveh7).
    - rewrite L7 by discriminate. exact (setitem_get_eq _ _ _ _ Hveh7). }
  split.
  { rewrite L9 by discriminate.
    rewrite (opt_setitem_get_eq _ _ _ _ PStr Hveh9).
    destruct (new_id_of E record); [reflexivity |].
    rewrite (opt_setitem_get_ne _ _ _ _ "id" PStr Hveh8) by discriminate.
    rewrite H7 by discriminate.
    rewrite (res_setitem_get_ne _ _ _ _ "id" PInt Hveh6) by discriminate.
    rewrite (setitem_get_ne _ _ "id" _ _ Hveh5) by discriminate.
    rewrite (setitem_get_ne _ _ "id" _ _ Hveh4) by discriminate.
    rewrite (setitem_get_ne _ _ "id" _ _ Hveh3) by discriminate.
    rewrite (setitem_get_ne _ _ "id" _ _ Hveh2) by discriminate.
    rewrite (assign_prise_frame _ _ _ _ Hveh1)
      by (simpl; intros [Hk | [Hk | [Hk | []]]]; discriminate Hk).
    exact (setitem_get_ne _ _ "id" _ _ Hveh0 ltac:(discriminate)). }
  split.
  { intros Hinf.
    destruct (assign_prise_no_infra _ _ _ _ Hinf Hveh1) as [Hp Hother].
    split; [rewrite L1 by discriminate; exact Hp |].
    split.
    - rewrite L1, Hother by discriminate.
      exact (setitem_get_ne _ _ "typeChargeur" _ _ Hveh0 ltac:(discriminate)).
    - rewrite L1, Hother by discriminate.
      exact (setitem_get_ne _ _ "typePrise" _ _ Hveh0 ltac:(discriminate)). }
  split.
  { rewrite (setitem_py_get_ne _ _ "debutService" _ _ _ Hveh10) by discriminate.
    exact Hcur. }
  split; [exact (setitem_get_eq _ _ _ _ Hveh10) |].
  intros k Hk. unfold vehicle_keys in Hk. simpl in Hk.
  rewrite L1 by (intros ->; intuition congruence).
  rewrite (assign_prise_frame _ _ _ _ Hveh1)
    by (simpl; intros [<- | [<- | [<- | []]]]; intuition congruence).
  apply (setitem_get_ne _ _ k _ _ Hveh0). intros ->. intuition congruence.
Qed.

(** The top level of the document. *)
Lemma map_record_top (E : env) (record : pydict) (template : pyval)
    (P : params) (doc : pyval) :
  map_record E record template P = Ok doc ->
  (exists d, template = PDict d)
  /\ (exists d, doc = PDict d)
  /\ getitem doc "sources"
     = match infra E with
       | Some inf => py_get inf "sources" (PList [])
       | None => Ok (PList [])
       end
  /\ (forall k, ~ In k ["choix_optim"; "configuration"; "sources"; "vehicules"] ->
                getitem doc k = getitem template k).
Proof.
  intros H. map_record_steps H.
  split.
  { apply setitem_ok in Hdata0 as (d & -> & _). eexists. reflexivity. }
  split.
  { apply setitem_ok in H as (d & _ & ->). eexists. reflexivity. }
  split.
  { rewrite (setitem_get_ne _ _ "sources" _ _ H) by discriminate.
    rewrite (setitem_get_eq _ _ _ _ Hdata2). symmetry. exact Hsrcs. }
  intros k Hk. simpl in Hk.
  rewrite (setitem_get_ne _ _ k _ _ H) by (intros ->; intuition congruence).
  rewrite (setitem_get_ne _ _ k _ _ Hdata2) by (intros ->; intuition congruence).
  rewrite (setitem_get_ne _ _ k _ _ Hdata1) by (intros ->; intuition congruence).
  apply (setitem_get_ne _ _ k _ _ Hdata0). intros ->. intuition congruence.
Qed.

(** [template.get("vehicules", [{}])[0]] *)
Definition template_vehicle (template : pyval) : res pyval :=
  let* vehs := py_get template "vehicules" (PList [PDict []]) in
  getitem0 vehs.

(** X7. The configuration block of a mapped document: the degraded-axis
    list and the execution-time limit are always written; the efficiency
    flag, the SOC decrease, the time step and the two ends of the
    optimisation window are written when the argument is given and are
    the template's when it is [None]; every other key of the template's
    block is kept as it is.  A given end of the window is written as the
    text, of the form [isoformat_z d], that the clamp against the
    departure days computes from it. *)
Theorem configuration_block_spec (E : env) (record : pydict)
    (template : pyval) (P : params) (doc : pyval) :
  map_record E record template P = Ok doc ->
  exists config_template min_jour max_jour,
    py_get template "configuration" PNone = Ok config_template
    /\ jour_dep_bounds (resultat_rows E) = Ok (min_jour, max_jour)
    /\ config_field doc "axeOptimDegrade"
       = Ok (match axe_optim_degrade P with
             | None => PList [PInt 1; PInt 2; PInt 3]
             | Some l => PList (List.map PInt l)
             end)
    /\ config_field doc "maximumExecTemps" = Ok (PInt (maximum_exec_temps P))
    /\ config_field doc "activationRendement"
       = match activation_rendement P with
         | Some s => Ok (PStr s)
         | None => getitem config_template "activationRendement"
         end
    /\ config_field doc "diminutionSOC"
       = match diminution_soc P with
         | Some q => Ok (PInt (Num.trunc q))
         | None => getitem config_template "diminutionSOC"
         end
    /\ config_field doc "pasDeTemps"
       = match pas_de_temps P with
         | Some z => Ok (PInt z)
         | None => getitem config_template "pasDeTemps"
         end
    /\ (is_none (start_dt P) = true ->
        config_field doc "debutOptim" = getitem config_template "debutOptim")
    /\ (is_none (end_dt P) = true ->
        config_field doc "finOptim" = getitem config_template "finOptim")
    /\ (is_none (start_dt P) = false ->
        exists s d,
          debutOptim_value min_jour (start_dt P) = Ok s
          /\ s = isoformat_z d
          /\ config_field doc "debutOptim" = Ok (PStr s))
    /\ (is_none (end_dt P) = false ->
        exists s d,
          finOptim_value max_jour (end_dt P) = Ok s
          /\ s = isoformat_z d
          /\ config_field doc "finOptim" = Ok (PStr s))
    /\ (forall k,
          ~ In k ["activationRendement"; "axeOptimDegrade"; "diminutionSOC";
                  "pasDeTemps"; "maximumExecTemps"; "debutOptim"; "finOptim"] ->
          config_field doc k = getitem config_template k).
Proof.
  intros H.
  destruct (map_record_configuration E record template P doc H)
    as (mn & mx & ct & cfg & Hb & Hct & Hcfg & Hact & Haxe & Hdim & Hpas & Hmax
        & Hdebut & Hfin & Hother).
  exists ct, mn, mx. split; [exact Hct |]. split; [exact Hb |].
  rewrite !(config_field_of doc cfg _ Hcfg).
  split; [exact Haxe |]. split; [exact Hmax |]. split; [exact Hact |].
  split; [exact Hdim |]. split; [exact Hpas |].
  split; [intros Hs; rewrite Hs in Hdebut; exact Hdebut |].
  split; [intros He; rewrite He in Hfin; exact Hfin |].
  split.
  { intros Hs. rewrite Hs in Hdebut. destruct Hdebut as (s & Hval & Hget).
    pose proof Hval as Hval'. unfold debutOptim_value in Hval'.
    bind_as Hval' requested Hreq. bind_as Hval' shifted Hshift.
    bind_as Hval' rounded Hround. injection Hval' as <-.
    eexists. exists rounded. split; [exact Hval |].
    split; [reflexivity | exact Hget]. }
  split.
  { intros He. rewrite He in Hfin. destruct Hfin as (s & Hval & Hget).
    pose proof Hval as Hval'. unfold finOptim_value in Hval'.
    bind_as Hval' requested Hreq. bind_as Hval' shifted Hshift.
    injection Hval' as <-.
    eexists. eexists. split; [exact Hval |].
    split; [reflexivity | exact Hget]. }
  intros k Hk. rewrite (config_field_of doc cfg k Hcfg). exact (Hother k Hk).
Qed.

Definition params_all_none : params :=
  mkparams 0 15 30 0 None None None 10 PNone PNone None None None PNone PNone.

Definition doc_all_none : pyval :=
  result_or_none (map_record test_env record_1 DEFAULT_TEMPLATE params_all_none).

Definition doc_with_window : pyval :=
  result_or_none
    (map_record test_env record_1 DEFAULT_TEMPLATE
       (params_with_dates (PStr "2024-12-15T08:00:00.600000")
          (PStr "2024-12-20T10:30:00"))).

(** With every optional argument [None] the time step is the
    template's; with a window given, its two ends are written: the
    start rounded to the second, the end as it is. *)
Lemma configuration_block_spec_witness :
  config_field doc_all_none "pasDeTemps"
  = config_field DEFAULT_TEMPLATE "pasDeTemps"
  /\ config_field doc_with_window "debutOptim"
     = Ok (PStr "2024-12-15T08:00:01Z")
  /\ config_field doc_with_window "finOptim"
     = Ok (PStr "2024-12-20T10:30:00Z").
Proof.
  split; [| split].
  - destruct (configuration_block_spec test_env record_1 DEFAULT_TEMPLATE
                params_all_none doc_all_none)
      as (ct & mn & mx & Hct & _ & _ & _ & _ & _ & Hpas & _);
      [vm_compute; reflexivity |].
    vm_compute in Hct. injection Hct as <-. exact Hpas.
  - destruct (configuration_block_spec test_env record_1 DEFAULT_TEMPLATE
                (params_with_dates (PStr "2024-12-15T08:00:00.600000")
                   (PStr "2024-12-20T10:30:00")) doc_with_window)
      as (ct & mn & mx & _ & Hb & _ & _ & _ & _ & _ & _ & _ & Hdebut & _);
      [vm_compute; reflexivity |].
    destruct (Hdebut eq_refl) as (s & d & Hs & _ & Hget).
    vm_compute in Hb. injection Hb as <- <-.
    vm_compute in Hs. injection Hs as <-. exact Hget.
  - destruct (configuration_block_spec test_env record_1 DEFAULT_TEMPLATE
                (params_with_dates (PStr "2024-12-15T08:00:00.600000")
                   (PStr "2024-12-20T10:30:00")) doc_with_window)
      as (ct & mn & mx & _ & Hb & _ & _ & _ & _ & _ & _ & _ & _ & Hfin & _);
      [vm_compute; reflexivity |].
    destruct (Hfin eq_refl) as (s & d & Hs & _ & Hget).
    vm_compute in Hb. injection Hb as <- <-.
    vm_compute in Hs. injection Hs as <-. exact Hget.
Defined.

(** *** The [finOptim] clamp *)

Lemma parse_isoformat_z (d : DT.datetime) :
  DT.validb d = true ->
  parse_iso_datetime (PStr (isoformat_z d)) = Ok (DT.replace_us0 d).
Proof.
  intros Hv. unfold parse_iso_datetime, isoformat_z, Str.rstrip_char.
  rewrite rstrip_by_drop by reflexivity.
  rewrite <- isoformat_replace_us0.
  fold (Str.rstrip_char "Z" (DT.isoformat (DT.replace_us0 d))).
  rewrite IsoFacts.rstrip_Z_isoformat.
  apply IsoFacts.fromisoformat_isoformat, replace_us0_valid, Hv.
Qed.

Lemma parse_iso_datetime_valid (v : pyval) (d : DT.datetime) :
  (forall d', v = PDateTime d' -> DT.validb d' = true) ->
  parse_iso_datetime v = Ok d -> DT.validb d = true.
Proof.
  intros Hdt. destruct v; simpl; try discriminate.
  - apply IsoFacts.fromisoformat_valid.
  - intros [= <-]. apply Hdt. reflexivity.
Qed.

Lemma date_compare_refl (d : DT.date) : DT.date_compare d d = Eq.
Proof. unfold DT.date_compare. rewrite !Z.compare_refl. reflexivity. Qed.

Lemma combine_min_valid (d : DT.datetime) :
  DT.validb d = true -> DT.validb (DT.combine_min (DT.dt_date d)) = true.
Proof.
  unfold DT.validb. rewrite andb_true_iff. intros [Hd _]. simpl.
  rewrite Hd. reflexivity.
Qed.

(** X8. With an end bound supplied, let [ceiling] be the date of the
    maximum observed departure plus three days.  What is written in
    [finOptim] is the requested end without its microseconds, or
    00:00:00 of [ceiling] when the calendar date of the requested end is
    later than [ceiling]; no rounding takes place.  The text parses back
    to that date-time, whose date is never later than [ceiling]. *)
Theorem finOptim_spec (E : env) (record : pydict) (template : pyval)
    (P : params) (doc : pyval) :
  map_record E record template P = Ok doc ->
  is_none (end_dt P) = false ->
  (forall d, end_dt P = PDateTime d -> DT.validb d = true) ->
  exists min_jour max_jour requested written,
    jour_dep_bounds (resultat_rows E) = Ok (min_jour, max_jour)
    /\ parse_iso_datetime (end_dt P) = Ok requested
    /\ written
       = (if DT.date_gtb (DT.dt_date requested)
               (DT.shift_days 3 (DT.dt_date max_jour))
          then DT.combine_min (DT.shift_days 3 (DT.dt_date max_jour))
          else DT.replace_us0 requested)
    /\ config_field doc "finOptim" = Ok (PStr (isoformat_z written))
    /\ parse_iso_datetime (PStr (isoformat_z written)) = Ok written
    /\ DT.date_gtb (DT.dt_date written) (DT.shift_days 3 (DT.dt_date max_jour))
       = false.
Proof.
  intros H Hend Hvalid.
  destruct (map_record_configuration E record template P doc H)
    as (mn & mx & ct & cfg & Hb & _ & Hcfg & _ & _ & _ & _ & _ & _ & Hfin & _).
  rewrite Hend in Hfin. destruct Hfin as (s & Hs & Hget).
  unfold finOptim_value in Hs.
  bind_as Hs requested Hreq. bind_as Hs shifted Hshift. injection Hs as <-.
  destruct (jour_dep_bounds_valid _ _ _ Hb) as [_ Hvmx].
  pose proof (DTFacts.add_valid mx shifted _ Hvmx Hshift) as Hvs.
  pose proof Hvmx as Htime.
  apply DTFacts.validb_spec in Htime as (_ & _ & Htime).
  apply (DTFacts.add_days_inv mx shifted 3 Htime) in Hshift.
  assert (Hdate : DT.dt_date shifted = DT.shift_days 3 (DT.dt_date mx))
    by (rewrite Hshift; reflexivity).
  pose proof (combine_min_valid shifted Hvs) as Hvc.
  rewrite Hdate in Hget, Hvc. clear Hshift Hdate Hvs.
  pose proof (parse_iso_datetime_valid _ _ Hvalid Hreq) as Hvr.
  set (ceiling := DT.shift_days 3 (DT.dt_date mx)) in *.
  exists mn, mx, requested,
    (if DT.date_gtb (DT.dt_date requested) ceiling
     then DT.combine_min ceiling else DT.replace_us0 requested).
  split; [exact Hb |]. split; [exact Hreq |]. split; [reflexivity |].
  rewrite (config_field_of doc cfg "finOptim" Hcfg), Hget.
  destruct (DT.date_gtb (DT.dt_date requested) ceiling) eqn:Hgt.
  - split; [reflexivity |]. split.
    + rewrite (parse_isoformat_z _ Hvc). reflexivity.
    + unfold DT.date_gtb. simpl. rewrite date_compare_refl. reflexivity.
  - split; [reflexivity |]. split.
    + rewrite (parse_isoformat_z _ (replace_us0_valid _ Hvr)). reflexivity.
    + exact Hgt.
Qed.

Lemma finOptim_spec_witness :
  exists written,
    written = DT.combine_min (DT.mkdate 2024 12 22)
    /\ config_field
         (result_or_none
            (map_record test_env record_1 DEFAULT_TEMPLATE
               (params_with_dates PNone (PStr "2025-12-20T10:30:00"))))
         "finOptim"
       = Ok (PStr (isoformat_z written)).
Proof.
  destruct (finOptim_spec test_env record_1 DEFAULT_TEMPLATE
              (params_with_dates PNone (PStr "2025-12-20T10:30:00"))
              (result_or_none
                 (map_record test_env record_1 DEFAULT_TEMPLATE
                    (params_with_dates PNone (PStr "2025-12-20T10:30:00")))))
    as (mn & mx & rq & w & Hb & Hrq & Hw & Hget & _).
  - vm_compute. reflexivity.
  - reflexivity.
  - discriminate.
  - exists w. split; [| exact Hget].
    vm_compute in Hb. injection Hb as <- <-.
    vm_compute in Hrq. injection Hrq as <-.
    rewrite Hw. reflexivity.
Defined.

(** *** The vehicle block *)

(** X9. Without an infrastructure description the document has no
    sources, and the vehicle is named after the record: a record with a
    non-blank [newIdVeh] gives [id] that identifier, stripped, and
    [idPrise] the text [TR1_CH_<id>_P1]; a record without one gives an
    empty [idPrise] and the [id] of the template.  The charger and plug
    types are the template's in both cases. *)
Theorem vehicle_identity_without_infrastructure (E : env) (record : pydict)
    (template : pyval) (P : params) (doc : pyval) :
  map_record E record template P = Ok doc ->
  infra E = None ->
  exists veh_template,
    template_vehicle template = Ok veh_template
    /\ getitem doc "sources" = Ok (PList [])
    /\ vehicle_field doc "id"
       = match new_id_of E record with
         | Some id => Ok (PStr id)
         | None => getitem veh_template "id"
         end
    /\ vehicle_field doc "idPrise"
       = Ok (PStr match new_id_of E record with
                  | Some id => "TR1_CH_" ++ id ++ "_P1"
                  | None => ""
                  end)
    /\ vehicle_field doc "typeChargeur" = getitem veh_template "typeChargeur"
    /\ vehicle_field doc "typePrise" = getitem veh_template "typePrise".
Proof.
  intros H Hinf.
  destruct (map_record_vehicle E record template P doc H)
    as (vt & veh & tveh & ds & Hvt & _ & Hveh & _ & _ & _ & _ & _ & _ & Hid
        & Hprise & _).
  destruct (map_record_top E record template P doc H) as (_ & _ & Hsrc & _).
  destruct (Hprise Hinf) as (Hp & Htc & Htp).
  exists vt. split; [exact Hvt |].
  split; [rewrite Hsrc, Hinf; reflexivity |].
  rewrite !(vehicle_field_of doc veh _ Hveh).
  repeat split; assumption.
Qed.

Lemma vehicle_identity_without_infrastructure_witness :
  vehicle_field
    (result_or_none
       (map_record test_env [("newIdVeh", PStr "  42 ")] DEFAULT_TEMPLATE
          default_params)) "idPrise"
  = Ok (PStr "TR1_CH_42_P1").
Proof.
  destruct (vehicle_identity_without_infrastructure test_env
              [("newIdVeh", PStr "  42 ")] DEFAULT_TEMPLATE default_params
              (result_or_none
                 (map_record test_env [("newIdVeh", PStr "  42 ")]
                    DEFAULT_TEMPLATE default_params)))
    as (vt & _ & _ & _ & Hp & _).
  - vm_compute. reflexivity.
  - reflexivity.
  - exact Hp.
Defined.

(** X10. The service fields of the vehicle.  The battery capacity is
    the integer part of the capacity of the model in the table, 0 for a
    model the table does not have; the boost mode is 0; the target SOC
    is [int()] of the record's [socCible], or of the argument when the
    record has none or [int()] rejects it; [dureeService] is [int()] of
    the record's [dist], and the template's value when [int()] rejects
    it; [finService] is the end of the service plus the unloading
    minutes, and the empty text when the record has no usable [hFin].
    The label is the JSON text of the vehicle identifier, the
    [debutService] the block ends up with, the two margins as [HH:MM]
    and the consumption of the model rounded to two decimals. *)
Theorem vehicle_block_spec (E : env) (record : pydict) (template : pyval)
    (P : params) (doc : pyval) :
  map_record E record template P = Ok doc ->
  exists veh_template tveh debut_service,
    template_vehicle template = Ok veh_template
    /\ tveh_of record = Ok tveh
    /\ vehicle_field doc "capaciteBatterie"
       = Ok (PInt match capacities E !! (projection P, tveh) with
                  | Some c => Num.trunc c
                  | None => 0
                  end)
    /\ vehicle_field doc "modeBoost" = Ok (PInt 0)
    /\ vehicle_field doc "socCible"
       = Ok (PInt match Num.py_int (Dict.get_default record "socCible"
                                      (PFloat (soc_cible P))) with
                  | Ok z => z
                  | Raise _ _ => Num.trunc (soc_cible P)
                  end)
    /\ vehicle_field doc "dureeService"
       = match Num.py_int (Dict.get_default record "dist" PNone) with
         | Ok z => Ok (PInt z)
         | Raise _ _ => getitem veh_template "dureeService"
         end
    /\ match _dt (Dict.get record "hFin") with
       | Some h =>
           exists fs,
             DT.add h (DT.td_minutes_q (inject_Z (or0 (temps_dechargement P))))
             = Ok fs
             /\ vehicle_field doc "finService" = Ok (PStr (isoformat_z fs))
       | None => vehicle_field doc "finService" = Ok (PStr "")
       end
    /\ (let* vs := getitem doc "vehicules" in
        let* v := getitem0 vs in
        py_get v "debutService" (PStr "")) = Ok debut_service
    /\ vehicle_field doc "libelle"
       = Ok (PStr (json_dumps E (PDict [
               ("numeroExploitation",
                PStr match new_id_of E record with
                     | Some id => id
                     | None => "None"
                     end);
               ("debutService", debut_service);
               ("MargeSecurite", PStr (hhmm (marge_securite P)));
               ("MargePrechauffage", PStr (hhmm (marge_prechauffage P)));
               ("Conso",
                PFloat (round2 match consos E !! (projection P, tveh) with
                               | Some c => c
                               | None => 0%Q
                               end))]))).
Proof.
  intros H.
  destruct (map_record_vehicle E record template P doc H)
    as (vt & veh & tveh & ds & Hvt & Htveh & Hveh & Hcap & Hboost & _ & Hcible
        & Hduree & Hfin & _ & _ & Hds & Hlib & _).
  exists vt, tveh, ds. split; [exact Hvt |]. split; [exact Htveh |].
  rewrite !(vehicle_field_of doc veh _ Hveh).
  split.
  { rewrite Hcap. unfold table_get.
    destruct (capacities E !! (projection P, tveh)); reflexivity. }
  split; [exact Hboost |].
  split.
  { rewrite Hcible. unfold socCible_value, try_except.
    destruct (Num.py_int _); reflexivity. }
  split; [exact Hduree |].
  split.
  { destruct (_dt (Dict.get record "hFin")) as [h |].
    - destruct Hfin as (fs & Hfs & Hget). exists fs. split; assumption.
    - exact Hfin. }
  split; [rewrite Hveh; exact Hds |].
  rewrite Hlib. unfold libelle_value, opt_str, table_get.
  destruct (consos E !! (projection P, tveh)); reflexivity.
Qed.

Definition record_with_service : pydict :=
  [("newIdVeh", PStr "7"); ("tVeh", PStr " P "); ("dist", PStr "120");
   ("hFin", PStr "2024-12-17T18:00:00"); ("socCible", PStr "abc")].

Lemma vehicle_block_spec_witness :
  exists veh_template tveh,
    template_vehicle DEFAULT_TEMPLATE = Ok veh_template
    /\ tveh_of record_with_service = Ok tveh
    /\ vehicle_field
         (result_or_none
            (map_record test_env record_with_service DEFAULT_TEMPLATE
               default_params)) "dureeService"
       = Ok (PInt 120).
Proof.
  destruct (vehicle_block_spec test_env record_with_service DEFAULT_TEMPLATE
              default_params
              (result_or_none
                 (map_record test_env record_with_service DEFAULT_TEMPLATE
                    default_params)))
    as (vt & tveh & ds & Hvt & Htveh & _ & _ & _ & Hduree & _).
  - vm_compute. reflexivity.
  - exists vt, tveh. split; [exact Hvt |]. split; [exact Htveh |].
    exact Hduree.
Defined.

(** X11. What [map_record] leaves alone.  The document is a mapping
    with exactly one vehicle; apart from [choix_optim], [configuration],
    [sources] and [vehicules] its keys are the template's, and apart
    from the keys listed in [vehicle_keys] the keys of its vehicle are
    those of the template's first vehicle. *)
Theorem map_record_keeps_other_keys (E : env) (record : pydict)
    (template : pyval) (P : params) (doc : pyval) :
  map_record E record template P = Ok doc ->
  exists veh_template vehicule,
    template_vehicle template = Ok veh_template
    /\ getitem doc "vehicules" = Ok (PList [vehicule])
    /\ getitem doc "choix_optim" = Ok (choix_optim P)
    /\ (forall k,
          ~ In k ["choix_optim"; "configuration"; "sources"; "vehicules"] ->
          getitem doc k = getitem template k)
    /\ (forall k, ~ In k vehicle_keys ->
                  getitem vehicule k = getitem veh_template k).
Proof.
  intros H.
  destruct (map_record_vehicle E record template P doc H)
    as (vt & veh & tveh & ds & Hvt & _ & Hveh & _ & _ & _ & _ & _ & _ & _
        & _ & _ & _ & Hother).
  destruct (map_record_top E record template P doc H) as (_ & _ & _ & Htop).
  destruct (map_record_inv E record template P doc H)
    as (_ & _ & _ & _ & _ & Hchoix & _).
  exists vt, veh. repeat split; assumption.
Qed.

Lemma map_record_keeps_other_keys_witness :
  getitem
    (result_or_none
       (map_record test_env record_1 DEFAULT_TEMPLATE default_params)) "idRun"
  = getitem DEFAULT_TEMPLATE "idRun".
Proof.
  destruct (map_record_keeps_other_keys test_env record_1 DEFAULT_TEMPLATE
              default_params
              (result_or_none
                 (map_record test_env record_1 DEFAULT_TEMPLATE default_params)))
    as (vt & veh & _ & _ & _ & Htop & _).
  - vm_compute. reflexivity.
  - apply Htop. simpl. intros [Hk | [Hk | [Hk | [Hk | []]]]]; discriminate Hk.
Defined.

(** ** Mapping many records *)

Lemma collect_chargeurs_vehicules (chs : list pyval) :
  forall st st',
    collect_chargeurs chs st = Ok st' -> agg_vehicules st' = agg_vehicules st.
Proof.
  induction chs as [| ch chs IH]; intros st st' H; simpl in H.
  - injection H as <-. reflexivity.
  - bind_as H ch_id Hid.
    destruct (truthy ch_id); [| exact (IH _ _ H)].
    destruct (hashable ch_id); [| discriminate].
    destruct (existsb (key_eqb ch_id) (agg_seen st)); [exact (IH _ _ H) |].
    rewrite (IH _ _ H). reflexivity.
Qed.

Lemma agg_step_vehicules (item : pyval) (st st' : agg_state) :
  agg_step item st = Ok st' ->
  exists vs, doc_vehicules item = Ok vs
             /\ agg_vehicules st' = (agg_vehicules st ++ vs)%list.
Proof.
  unfold agg_step, doc_vehicules. intros H.
  bind_as H vl Hvl. bind_as H vs Hvs. bind_as H o Ho.
  exists vs. rewrite Hvl. simpl. split; [exact Hvs |].
  destruct o as [l |].
  - bind_as H chs Hchs. rewrite (collect_chargeurs_vehicules _ _ _ H).
    reflexivity.
  - injection H as <-. reflexivity.
Qed.

(** Whatever happens to the chargers, a loop that ends has gathered
    the vehicles of all documents, in order. *)
Lemma agg_loop_vehicules (docs : list pyval) :
  forall st st',
    agg_loop docs st = Ok st' ->
    exists vss, mapM doc_vehicules docs = Ok vss
                /\ agg_vehicules st' = (agg_vehicules st ++ concat vss)%list.
Proof.
  induction docs as [| doc docs IH]; intros st st' H; simpl in H.
  - injection H as <-. exists []. split; [reflexivity |].
    simpl. rewrite app_nil_r. reflexivity.
  - bind_as H st1 Hst1.
    destruct (agg_step_vehicules _ _ _ Hst1) as (vs & Hvs & H1).
    destruct (IH _ _ H) as (vss & Hvss & H2).
    exists (vs :: vss). simpl. rewrite Hvs, Hvss. simpl.
    split; [reflexivity |]. rewrite H2, H1, <- app_assoc. reflexivity.
Qed.

Lemma set_first_path_frame (merged : pyval) (chargeurs : list pyval)
    (merged' : pyval) :
  set_first_path merged chargeurs = Ok merged' ->
  forall k, k <> "sources" -> getitem merged' k = getitem merged k.
Proof.
  unfold set_first_path. intros H k Hk.
  bind_as H srcs Hsrcs. bind_as H src0 Hsrc0. bind_as H trans Htrans.
  bind_as H trans0 Htrans0. bind_as H trans0' Htrans0'.
  bind_as H trans' Htrans'. bind_as H src0' Hsrc0'. bind_as H srcs' Hsrcs'.
  exact (setitem_get_ne _ _ k _ _ H Hk).
Qed.

(** A successful aggregation, whatever the sources are: the first
    document with its vehicles replaced and at most its sources
    changed. *)
Lemma aggregate_results_inv (first : pyval) (rest : list pyval)
    (merged : pyval) :
  aggregate_results (first :: rest) = Ok merged ->
  exists vss,
    mapM doc_vehicules (first :: rest) = Ok vss
    /\ getitem merged "vehicules" = Ok (PList (concat vss))
    /\ (forall k, k <> "vehicules" -> k <> "sources" ->
                  getitem merged k = getitem first k)
    /\ (forall srcs, getitem first "sources" = Ok srcs -> truthy srcs = false ->
                     getitem merged "sources" = Ok srcs).
Proof.
  unfold aggregate_results. intros H.
  bind_as H m0 Hm0. bind_as H st Hst. bind_as H m1 Hm1. bind_as H srcs Hsrcs.
  destruct (agg_loop_vehicules _ _ _ Hst) as (vss & Hvss & Hv).
  simpl in Hv. exists vss. split; [exact Hvss |].
  rewrite Hv in Hm1.
  assert (H1 : forall k, k <> "vehicules" -> getitem m1 k = getitem first k).
  { intros k Hk. rewrite (setitem_get_ne _ _ k _ _ Hm1 Hk).
    exact (setitem_get_ne _ _ k _ _ Hm0 Hk). }
  destruct (truthy srcs) eqn:Htr.
  - pose proof (set_first_path_frame _ _ _ H) as Hf.
    split; [rewrite Hf by discriminate; exact (setitem_get_eq _ _ _ _ Hm1) |].
    split; [intros k Hk1 Hk2; rewrite Hf by exact Hk2; apply H1; exact Hk1 |].
    intros srcs' Hs' Hfalse. exfalso.
    rewrite <- (H1 "sources") in Hs' by discriminate.
    apply py_get_ok in Hsrcs as (d & -> & ->).
    simpl in Hs'. unfold Dict.get_default in Htr.
    destruct (Dict.get d "sources"); [| discriminate].
    injection Hs' as ->. congruence.
  - injection H as <-.
    split; [exact (setitem_get_eq _ _ _ _ Hm1) |].
    split; [intros k Hk1 _; apply H1; exact Hk1 |].
    intros srcs' Hs' _. rewrite H1 by discriminate. exact Hs'.
Qed.

Lemma map_each_inv (E : env) (draws : nat -> nat * nat) (template : pyval)
    (P : params) (records : list pydict) :
  forall i docs,
    map_each E draws i records template P = Ok docs ->
    Forall2 (fun rec doc =>
               exists j, map_record (with_draws E (draws j)) rec template P
                         = Ok doc) records docs.
Proof.
  induction records as [| rec records IH]; intros i docs H; simpl in H.
  - injection H as <-. constructor.
  - bind_as H doc Hdoc. bind_as H docs' Hdocs. injection H as <-.
    constructor; [exists i; exact Hdoc | exact (IH _ _ Hdocs)].
Qed.

Lemma doc_vehicules_one (doc v : pyval) :
  (exists d, doc = PDict d) ->
  getitem doc "vehicules" = Ok (PList [v]) -> doc_vehicules doc = Ok [v].
Proof.
  intros [d ->]. unfold doc_vehicules. simpl. unfold Dict.get_default.
  destruct (Dict.get d "vehicules"); [| discriminate].
  intros [= ->]. reflexivity.
Qed.

(** The vehicle of the document of one record *)
Definition vehicle_of (doc v : pyval) : Prop :=
  getitem doc "vehicules" = Ok (PList [v]).

Lemma mapM_doc_vehicules (E : env) (draws : nat -> nat * nat)
    (template : pyval) (P : params) (records : list pydict)
    (docs : list pyval) :
  Forall2 (fun rec doc =>
             exists j, map_record (with_draws E (draws j)) rec template P
                       = Ok doc) records docs ->
  forall vss,
    mapM doc_vehicules docs = Ok vss ->
    Forall2 vehicle_of docs (concat vss)
    /\ length (concat vss) = length records.
Proof.
  induction 1 as [| rec doc records docs [j Hdoc] _ IH]; intros vss Hv.
  - simpl in Hv. injection Hv as <-. split; [constructor | reflexivity].
  - apply mapM_cons_inv in Hv as (vs & vss' & Hvs & Hvss & ->).
    destruct (map_record_inv _ _ _ _ _ Hdoc)
      as (_ & _ & _ & veh & _ & _ & _ & Hveh & _).
    destruct (map_record_top _ _ _ _ _ Hdoc) as (_ & Hd & _).
    rewrite (doc_vehicules_one doc veh Hd Hveh) in Hvs. injection Hvs as <-.
    destruct (IH vss' Hvss) as [IH1 IH2].
    simpl. split; [constructor; [exact Hveh | exact IH1] |].
    rewrite IH2. reflexivity.
Qed.

(** X12. What [map_records] returns for a non-empty list of records:
    the document of the first record with [vehicules] replaced by the
    vehicles of all records, one per record and in the order of the
    records, and with [sources] equal to the sources of the
    infrastructure description, or empty without one.  The charger
    list that the aggregation builds is not part of the result. *)
Theorem map_records_spec (E : env) (draws : nat -> nat * nat)
    (records : list pydict) (template : pyval) (P : params)
    (merged : pyval) :
  map_records E draws records template P = Ok merged ->
  records <> [] ->
  exists docs vehicles,
    map_each E draws O records template P = Ok docs
    /\ Forall2 vehicle_of docs vehicles
    /\ length vehicles = length records
    /\ getitem merged "vehicules" = Ok (PList vehicles)
    /\ getitem merged "sources"
       = match infra E with
         | Some inf => py_get inf "sources" (PList [])
         | None => Ok (PList [])
         end
    /\ (forall k, k <> "vehicules" -> k <> "sources" ->
                  getitem merged k = getitem (hd PNone docs) k).
Proof.
  unfold map_records. intros H Hne.
  bind_as H docs Hdocs. bind_as H m Hm.
  pose proof (map_each_inv E draws template P records O docs Hdocs) as Hall.
  destruct docs as [| first rest].
  { inversion Hall; subst. contradiction. }
  destruct (aggregate_results_inv first rest m Hm)
    as (vss & Hvss & Hveh & Hother & Hsrc).
  destruct (mapM_doc_vehicules E draws template P records _ Hall vss Hvss)
    as [Hv Hlen].
  exists (first :: rest), (concat vss).
  split; [exact Hdocs |]. split; [exact Hv |]. split; [exact Hlen |].
  destruct (infra E) as [inf |] eqn:Hinf.
  - bind_as H srcs Hsrcs.
    split; [rewrite (setitem_get_ne _ _ "vehicules" _ _ H) by discriminate;
            exact Hveh |].
    split; [rewrite (setitem_get_eq _ _ _ _ H); symmetry; exact Hsrcs |].
    intros k Hk1 Hk2. rewrite (setitem_get_ne _ _ k _ _ H Hk2).
    apply Hother; assumption.
  - injection H as <-. split; [exact Hveh |].
    split; [| intros k Hk1 Hk2; apply Hother; assumption].
    apply Hsrc; [| reflexivity].
    inversion Hall as [| ? ? ? ? [j Hdoc] _]; subst.
    destruct (map_record_top _ _ _ _ _ Hdoc) as (_ & _ & Hs & _).
    simpl in Hs. rewrite Hinf in Hs. exact Hs.
Qed.

Definition two_records : list pydict :=
  [[("newIdVeh", PStr "1")]; [("newIdVeh", PStr "2")]].

Lemma map_records_spec_witness :
  exists vehicles,
    length vehicles = 2%nat
    /\ getitem
         (result_or_none
            (map_records test_env (fun _ => (O, O)) two_records
               DEFAULT_TEMPLATE default_params)) "vehicules"
       = Ok (PList vehicles).
Proof.
  destruct (map_records_spec test_env (fun _ => (O, O)) two_records
              DEFAULT_TEMPLATE default_params
              (result_or_none
                 (map_records test_env (fun _ => (O, O)) two_records
                    DEFAULT_TEMPLATE default_params)))
    as (docs & vs & _ & _ & Hlen & Hget & _).
  - vm_compute. reflexivity.
  - discriminate.
  - exists vs. split; [exact Hlen | exact Hget].
Defined.

(** X13. The first record that cannot be mapped decides: when the
    records before it map and its own call raises, [map_records] raises
    that exception; the records after it are not mapped and nothing is
    returned for the records before it. *)
Theorem map_records_first_failure (E : env) (draws : nat -> nat * nat)
    (before : list pydict) (rec : pydict) (after : list pydict)
    (template : pyval) (P : params) (c : exn_class) (msg : string) :
  (forall j r, nth_error before j = Some r ->
     is_ok (map_record (with_draws E (draws j)) r template P) = true) ->
  map_record (with_draws E (draws (length before))) rec template P
  = Raise c msg ->
  map_records E draws (before ++ rec :: after) template P = Raise c msg.
Proof.
  intros Hbefore Hrec. unfold map_records.
  assert (Hloop : forall i : nat,
            (forall j r, nth_error before j = Some r ->
               is_ok (map_record (with_draws E (draws (i + j)%nat)) r template P)
               = true) ->
            map_record (with_draws E (draws (i + length before)%nat)) rec
              template P
            = Raise c msg ->
            map_each E draws i (before ++ rec :: after) template P
            = Raise c msg).
  { clear Hbefore Hrec. induction before as [| r before IH]; intros i Hb Hr.
    - simpl in *. rewrite Nat.add_0_r in Hr. rewrite Hr. reflexivity.
    - simpl. pose proof (Hb O r eq_refl) as H0. rewrite Nat.add_0_r in H0.
      destruct (map_record (with_draws E (draws i)) r template P) as [doc | c' m'];
        [| discriminate].
      simpl. rewrite IH; [reflexivity | |].
      + intros j r' Hj. replace (S i + j)%nat with (i + S j)%nat by lia.
        apply Hb. exact Hj.
      + replace (S i + length before)%nat with (i + length (r :: before))%nat
          by (simpl; lia).
        exact Hr. }
  rewrite (Hloop O Hbefore Hrec). reflexivity.
Qed.

Lemma map_records_first_failure_witness :
  exists msg,
    map_records test_env (fun _ => (O, O))
      [[("newIdVeh", PStr "1")]; [("newIdVeh", PStr "2"); ("tVeh", PInt 5)];
       [("newIdVeh", PStr "3")]]
      DEFAULT_TEMPLATE default_params
    = Raise AttributeError msg.
Proof.
  eexists.
  apply (map_records_first_failure test_env (fun _ => (O, O))
           [[("newIdVeh", PStr "1")]]
           [("newIdVeh", PStr "2"); ("tVeh", PInt 5)]
           [[("newIdVeh", PStr "3")]]).
  - intros j r Hj. destruct j as [| j]; simpl in Hj.
    + injection Hj as <-. vm_compute. reflexivity.
    + destruct j; discriminate Hj.
  - vm_compute. reflexivity.
Defined.

(** X14. The empty list of records.  Without an infrastructure
    description the result is the empty mapping; with one it is the
    mapping that has the sources of the description and nothing else.
    Neither has the keys of a document: the validator rejects both,
    naming the first key of the schema. *)
Theorem map_records_empty (E : env) (draws : nat -> nat * nat)
    (template : pyval) (P : params) :
  map_records E draws [] template P
  = match infra E with
    | Some inf =>
        let* srcs := py_get inf "sources" (PList []) in
        Ok (PDict [("sources", srcs)])
    | None => Ok (PDict [])
    end
  /\ forall merged,
       map_records E draws [] template P = Ok merged ->
       validate_json merged = Raise ValueError "Missing key idRun".
Proof.
  assert (Heq : map_records E draws [] template P
                = match infra E with
                  | Some inf =>
                      let* srcs := py_get inf "sources" (PList []) in
                      Ok (PDict [("sources", srcs)])
                  | None => Ok (PDict [])
                  end).
  { unfold map_records. simpl. destruct (infra E) as [inf |]; [| reflexivity].
    destruct (py_get inf "sources" (PList [])); reflexivity. }
  split; [exact Heq |].
  intros merged H. rewrite Heq in H. destruct (infra E) as [inf |].
  - bind_as H srcs Hsrcs. injection H as <-. reflexivity.
  - injection H as <-. reflexivity.
Qed.

(** ** Mapped documents and the schema *)

Lemma getitem_ok_dict (obj : pyval) (k : string) (v : pyval) :
  getitem obj k = Ok v -> exists d, obj = PDict d /\ Dict.get d k = Some v.
Proof.
  destruct obj; simpl; try discriminate.
  destruct (Dict.get d k) eqn:E; [| discriminate].
  intros [= <-]. eexists. split; [reflexivity | exact E].
Qed.

Lemma is_iso_datetime_isoformat_z (d : DT.datetime) :
  DT.validb d = true -> _is_iso_datetime (PStr (isoformat_z d)) = true.
Proof.
  intros Hv. unfold _is_iso_datetime.
  destruct (String.eqb (isoformat_z d) ""); [reflexivity |].
  rewrite (parse_isoformat_z d Hv). reflexivity.
Qed.

Lemma combine_max_valid (d : DT.datetime) :
  DT.validb d = true -> DT.validb (DT.combine_max (DT.dt_date d)) = true.
Proof.
  unfold DT.validb. rewrite andb_true_iff. intros [Hd _]. simpl.
  rewrite Hd. reflexivity.
Qed.

Lemma round_to_second_valid (d d' : DT.datetime) :
  DT.validb d = true -> round_to_second d = Ok d' -> DT.validb d' = true.
Proof.
  unfold round_to_second. intros Hv H. bind_as H d1 Hd1. injection H as <-.
  apply replace_us0_valid.
  destruct (500000 <=? DT.microsecond d).
  - exact (DTFacts.add_valid _ _ _ Hv Hd1).
  - injection Hd1 as <-. exact Hv.
Qed.

(** The date-times carried by the record and by the two bounds are
    date-times: their fields are in range. *)
Definition dates_valid (record : pydict) (P : params) : Prop :=
  (forall k d, Dict.get record k = Some (PDateTime d) -> DT.validb d = true)
  /\ (forall d, start_dt P = PDateTime d -> DT.validb d = true)
  /\ (forall d, end_dt P = PDateTime d -> DT.validb d = true).

Lemma debutOptim_value_iso (mn : DT.datetime) (start : pyval) (s : string) :
  DT.validb mn = true ->
  (forall d, start = PDateTime d -> DT.validb d = true) ->
  debutOptim_value mn start = Ok s ->
  _is_iso_datetime (PStr s) = true.
Proof.
  intros Hmn Hstart H. unfold debutOptim_value in H.
  bind_as H requested Hreq. bind_as H shifted Hshift.
  bind_as H rounded Hround. injection H as <-.
  apply is_iso_datetime_isoformat_z.
  apply (round_to_second_valid _ _) in Hround; [exact Hround |].
  destruct (DT.date_ltb _ _).
  - apply combine_max_valid. exact (DTFacts.add_valid _ _ _ Hmn Hshift).
  - exact (parse_iso_datetime_valid _ _ Hstart Hreq).
Qed.

Lemma finOptim_value_iso (mx : DT.datetime) (end_ : pyval) (s : string) :
  DT.validb mx = true ->
  (forall d, end_ = PDateTime d -> DT.validb d = true) ->
  finOptim_value mx end_ = Ok s ->
  _is_iso_datetime (PStr s) = true.
Proof.
  intros Hmx Hend H. unfold finOptim_value in H.
  bind_as H requested Hreq. bind_as H shifted Hshift. injection H as <-.
  apply is_iso_datetime_isoformat_z.
  destruct (DT.date_gtb _ _).
  - apply combine_min_valid. exact (DTFacts.add_valid _ _ _ Hmx Hshift).
  - exact (parse_iso_datetime_valid _ _ Hend Hreq).
Qed.

Lemma _dt_valid (record : pydict) (k : string) (h : DT.datetime) :
  (forall k d, Dict.get record k = Some (PDateTime d) -> DT.validb d = true) ->
  _dt (Dict.get record k) = Some h -> DT.validb h = true.
Proof.
  intros Hrec. destruct (Dict.get record k) as [v |] eqn:Hget; [| discriminate].
  assert (Hnum : forall h',
            match (let* x := Num.py_float v in excel_number_to_datetime x) with
            | Ok d => Some d
            | Raise _ _ => None
            end = Some h' -> DT.validb h' = true).
  { intros h'. destruct (Num.py_float v) as [x |]; simpl; [| discriminate].
    destruct (excel_number_to_datetime x) as [d |] eqn:Hx; [| discriminate].
    intros [= <-]. exact (excel_number_valid _ _ Hx). }
  destruct v; simpl; try (exact (Hnum h)); try discriminate.
  - destruct s as [| c s]; [discriminate |].
    destruct (DT.fromisoformat (String c s)) as [d |] eqn:Hiso.
    + intros [= <-]. exact (IsoFacts.fromisoformat_valid _ _ Hiso).
    + exact (Hnum h).
  - intros [= <-]. exact (Hrec k _ Hget).
Qed.

Lemma debutService_value_iso (record : pydict) (configuration : pyval)
    (tc : option Z) (dds : pyval) (f s : string) :
  (forall k d, Dict.get record k = Some (PDateTime d) -> DT.validb d = true) ->
  getitem configuration "finOptim" = Ok (PStr f) ->
  debutService_value record configuration tc dds = Ok (Some s) ->
  _is_iso_datetime (PStr s) = true.
Proof.
  intros Hrec Hfin. unfold debutService_value.
  destruct (_dt (Dict.get record "Heure Prochain Service")) as [next |] eqn:Hn.
  - intros H. bind_as H m Hm. bind_as H ds Hds. injection H as <-.
    apply is_iso_datetime_isoformat_z.
    exact (DTFacts.add_valid _ _ _ (_dt_valid _ _ _ Hrec Hn) Hds).
  - destruct (is_none dds); [discriminate |].
    rewrite Hfin. cbn [rbind]. intros H.
    bind_as H fin_dt Hfd. bind_as H d Hd.
    assert (Hvf : DT.validb fin_dt = true)
      by (apply (parse_iso_datetime_valid (PStr f)); [discriminate | exact Hfd]).
    pose proof (DTFacts.add_valid _ _ _ Hvf Hd) as Hvd.
    rewrite (IsoFacts.parse_iso_datetime_isoformat d Hvd) in H.
    injection H as <-. apply is_iso_datetime_isoformat_z. exact Hvd.
Qed.

Lemma conforms_closed (v : pyval) (s : schema) :
  _validate v s "" = Ok tt -> conforms v s.
Proof. apply validate_ok_iff. Qed.

Lemma profile_value_conforms (E : env) (proj : Z) (tveh : string) :
  conforms (profile_value E proj tveh) (xy_schema (SType TInt)).
Proof.
  assert (Hpoint : forall xy, conforms (point xy)
                                (SDict [("x", SType TInt); ("y", SType TInt)])).
  { intros xy. apply conforms_closed. reflexivity. }
  assert (Hlist : forall (f : Z * Z -> Z * Z) l,
            conforms (PList (List.map (fun xy => point (f xy)) l))
              (xy_schema (SType TInt))).
  { intros f l. constructor. apply List.Forall_map.
    apply List.Forall_forall. intros xy _. apply Hpoint. }
  unfold profile_value.
  destruct (powers E !! (proj, tveh)) as [power |];
    [destruct (battery_profile E) as [| p ps] eqn:Hp |].
  - exact (Hlist (fun xy => xy) []).
  - destruct (negb _).
    + exact (Hlist (fun xy => (fst xy, Num.trunc (_ * inject_Z (snd xy)))) _).
    + rewrite <- (List.map_ext (fun xy => point ((fun xy => xy) xy)) point)
        by reflexivity.
      apply Hlist.
  - rewrite <- (List.map_ext (fun xy => point ((fun xy => xy) xy)) point)
      by reflexivity.
    apply Hlist.
Qed.

(** The [debutService] field of the vehicle *)
Lemma map_record_debutService (E : env) (record : pydict) (template : pyval)
    (P : params) (doc : pyval) :
  map_record E record template P = Ok doc ->
  exists configuration veh_template vehicule ds,
    getitem doc "configuration" = Ok configuration
    /\ template_vehicle template = Ok veh_template
    /\ getitem doc "vehicules" = Ok (PList [vehicule])
    /\ debutService_value record configuration (temps_chargement P)
         (default_debut_service P) = Ok ds
    /\ getitem vehicule "debutService"
       = match ds with
         | Some s => Ok (PStr s)
         | None => getitem veh_template "debutService"
         end.
Proof.
  intros H. map_record_steps H.
  exists configuration, veh_template, vehicule, ds.
  split.
  { rewrite (setitem_get_ne _ _ "configuration" _ _ H) by discriminate.
    rewrite (setitem_get_ne _ _ "configuration" _ _ Hdata2) by discriminate.
    exact (setitem_get_eq _ _ _ _ Hdata1). }
  split; [unfold template_vehicle; rewrite Hvehs; exact Hvt |].
  split; [exact (setitem_get_eq _ _ _ _ H) |].
  split; [exact Hds |].
  rewrite (setitem_get_ne _ _ "debutService" _ _ Hveh10) by discriminate.
  rewrite (opt_setitem_get_ne _ _ _ _ "debutService" PStr Hveh9) by discriminate.
  rewrite (opt_setitem_get_eq _ _ _ _ PStr Hveh8).
  destruct ds as [s |]; [reflexivity |].
  assert (H7 : getitem veh7 "debutService" = getitem veh6 "debutService").
  { destruct (_dt (Dict.get record "hFin")).
    - bind_as Hveh7 fs Hfs.
      exact (setitem_get_ne _ _ "debutService" _ _ Hveh7 ltac:(discriminate)).
    - exact (setitem_get_ne _ _ "debutService" _ _ Hveh7 ltac:(discriminate)). }
  rewrite H7.
  rewrite (res_setitem_get_ne _ _ _ _ "debutService" PInt Hveh6) by discriminate.
  rewrite (setitem_get_ne _ _ "debutService" _ _ Hveh5) by discriminate.
  rewrite (setitem_get_ne _ _ "debutService" _ _ Hveh4) by discriminate.
  rewrite (setitem_get_ne _ _ "debutService" _ _ Hveh3) by discriminate.
  rewrite (setitem_get_ne _ _ "debutService" _ _ Hveh2) by discriminate.
  rewrite (assign_prise_frame _ _ _ _ Hveh1)
    by (simpl; intros [Hk | [Hk | [Hk | []]]]; discriminate Hk).
  exact (setitem_get_ne _ _ "debutService" _ _ Hveh0 ltac:(discriminate)).
Qed.

Lemma entry_conforms (d : pydict) (k : string) (sub : schema)
    (r : res pyval) :
  getitem (PDict d) k = r ->
  match r with Ok v => conforms v sub | Raise _ _ => False end ->
  exists v, Dict.get d (fst (k, sub)) = Some v /\ conforms v (snd (k, sub)).
Proof.
  intros Hget Hc. destruct r as [v | c m]; [| contradiction].
  apply getitem_ok_dict in Hget as (d' & [= <-] & Hd).
  exists v. split; assumption.
Qed.

Lemma conforms_str (s : string) : conforms (PStr s) (SType TStr).
Proof. constructor. reflexivity. Qed.

Lemma conforms_int (z : Z) : conforms (PInt z) (SType TInt).
Proof. constructor. reflexivity. Qed.

Lemma conforms_iso (s : string) :
  _is_iso_datetime (PStr s) = true ->
  conforms (PStr s) (SCallable _is_iso_datetime).
Proof. intros H. constructor. exact H. Qed.

Ltac entries :=
  repeat (apply List.Forall_cons; [| try apply List.Forall_nil]).

Ltac entry H := eapply entry_conforms; [exact H |]; cbn [getitem Dict.get].

Ltac not_assigned :=
  simpl; intros [Hk | [Hk | [Hk | [Hk | []]]]]; discriminate Hk.

(** X15. Every document that [map_record] builds from the built-in
    template without an infrastructure description passes the schema
    validation, whatever the record and the arguments are, as long as
    the date-times they carry are date-times. *)
Theorem mapped_document_is_valid (E : env) (record : pydict) (P : params)
    (doc : pyval) :
  infra E = None ->
  dates_valid record P ->
  map_record E record DEFAULT_TEMPLATE P = Ok doc ->
  validate_json doc = Ok tt.
Proof.
  intros Hinf (Hrec & Hstart & Hend) H.
  destruct (map_record_configuration E record _ P doc H)
    as (mn & mx & ct & cfg & Hb & Hct & Hcfg & Hact & Haxe & Hdim & Hpas & Hmax
        & Hdebut & Hfin & _).
  destruct (map_record_vehicle E record _ P doc H)
    as (vt & veh & tveh & dsv & Hvt & _ & Hveh & Hcap & Hboost & Hprof & Hcible
        & Hduree & Hfs & Hid & Hprise & _ & Hlib & _).
  destruct (Hprise Hinf) as (Hidp & Htc & Htp). clear Hprise.
  destruct (map_record_top E record _ P doc H) as (_ & [d ->] & Hsrc & Htop).
  rewrite Hinf in Hsrc.
  destruct (map_record_inv E record _ P (PDict d) H)
    as (_ & _ & _ & veh' & _ & _ & _ & Hveh' & _ & Hsoc & _).
  rewrite Hveh in Hveh'. injection Hveh' as <-.
  destruct (map_record_debutService E record _ P (PDict d) H)
    as (cfg' & vt' & veh' & ds & Hcfg' & Hvt' & Hveh' & Hds & Hdeb).
  rewrite Hveh in Hveh'. injection Hveh' as <-.
  rewrite Hcfg in Hcfg'. injection Hcfg' as <-.
  unfold template_vehicle in Hvt'. rewrite Hvt in Hvt'. injection Hvt' as <-.
  destruct (jour_dep_bounds_valid _ _ _ Hb) as [Hvmn Hvmx].
  vm_compute in Hct. injection Hct as <-.
  vm_compute in Hvt. injection Hvt as <-.
  destruct (getitem_ok_dict _ _ _ Hmax) as (c & -> & _).
  destruct (getitem_ok_dict _ _ _ Hboost) as (v & -> & _).
  assert (Hfin' : exists f, getitem (PDict c) "finOptim" = Ok (PStr f)
                            /\ _is_iso_datetime (PStr f) = true).
  { destruct (is_none (end_dt P)).
    - eexists. split; [rewrite Hfin; reflexivity | reflexivity].
    - destruct Hfin as (s & Hs & Hget). exists s. split; [exact Hget |].
      exact (finOptim_value_iso _ _ _ Hvmx Hend Hs). }
  destruct Hfin' as (f & Hfget & Hfiso).
  apply (validate_ok_iff SCHEMA (PDict d) "").
  unfold SCHEMA. apply conforms_mapping. entries.
  - entry (Htop "idRun" ltac:(not_assigned)). apply conforms_str.
  - entry (Htop "synthese" ltac:(not_assigned)).
    apply conforms_closed. reflexivity.
  - entry Hcfg. apply conforms_mapping. entries.
    + entry Hact. destruct (activation_rendement P); apply conforms_str.
    + entry Haxe. destruct (axe_optim_degrade P) as [l |].
      * constructor. apply List.Forall_map. apply List.Forall_forall.
        intros z _. apply conforms_int.
      * apply conforms_closed. reflexivity.
    + entry Hdim. destruct (diminution_soc P); apply conforms_int.
    + entry Hpas. destruct (pas_de_temps P); apply conforms_int.
    + entry Hmax. apply conforms_int.
    + destruct (is_none (start_dt P)).
      * entry Hdebut. apply conforms_iso. reflexivity.
      * destruct Hdebut as (s & Hs & Hget). entry Hget.
        apply conforms_iso. exact (debutOptim_value_iso _ _ _ Hvmn Hstart Hs).
    + entry Hfget. apply conforms_iso. exact Hfiso.
  - entry (Htop "rapport" ltac:(not_assigned)).
    apply conforms_closed. reflexivity.
  - entry Hsrc. constructor. constructor.
  - entry Hveh. constructor. constructor; [| constructor].
    apply conforms_mapping. entries.
    + entry Hid. destruct (new_id_of E record); apply conforms_str.
    + entry Hcap. apply conforms_int.
    + entry Hidp. apply conforms_str.
    + entry Hlib. apply conforms_str.
    + entry Hboost. apply conforms_int.
    + entry Htc. apply conforms_closed. reflexivity.
    + entry Htp. apply conforms_str.
    + entry Hprof. apply profile_value_conforms.
    + entry Hsoc. apply conforms_int.
    + entry Hcible. apply conforms_int.
    + entry Hduree. destruct (Num.py_int _); apply conforms_int.
    + destruct (_dt (Dict.get record "hFin")) as [h |] eqn:Hh.
      * destruct Hfs as (fs & Hadd & Hget). entry Hget.
        apply conforms_iso, is_iso_datetime_isoformat_z.
        exact (DTFacts.add_valid _ _ _ (_dt_valid _ _ _ Hrec Hh) Hadd).
      * entry Hfs. apply conforms_iso. reflexivity.
    + entry Hdeb. destruct ds as [s |].
      * apply conforms_iso.
        exact (debutService_value_iso _ _ _ _ _ _ Hrec Hfget Hds).
      * apply conforms_iso. reflexivity.
Qed.

Lemma mapped_document_is_valid_witness :
  validate_json
    (result_or_none
       (map_record test_env record_with_next_service DEFAULT_TEMPLATE
          (params_with_dates (PStr "2024-12-01") (PStr "2025-12-20"))))
  = Ok tt.
Proof.
  apply (mapped_document_is_valid test_env record_with_next_service
           (params_with_dates (PStr "2024-12-01") (PStr "2025-12-20"))).
  - reflexivity.
  - split; [| split].
    + intros k d. unfold record_with_next_service. simpl.
      repeat (destruct (String.eqb k _); [discriminate |]). discriminate.
    + discriminate.
    + discriminate.
  - vm_compute. reflexivity.
Defined.

Lemma getitem_eq_get (d d' : pydict) (k : string) :
  getitem (PDict d) k = getitem (PDict d') k -> Dict.get d k = Dict.get d' k.
Proof.
  simpl. destruct (Dict.get d k), (Dict.get d' k); congruence.
Qed.

(** The vehicle schema, as [SCHEMA] has it under [vehicules]. *)
Definition vehicle_schema : schema :=
  match List.find (fun e => String.eqb (fst e) "vehicules")
          (schema_entries SCHEMA) with
  | Some (_, SList [s]) => s
  | _ => SOther
  end.

Lemma valid_document_vehicle (doc v : pyval) :
  validate_json doc = Ok tt -> vehicle_of doc v -> conforms v vehicle_schema.
Proof.
  unfold validate_json, vehicle_of. intros Hval Hveh.
  apply (validate_ok_iff SCHEMA doc "") in Hval.
  inversion Hval as [d es Hes | | | |]; subst.
  apply getitem_ok_dict in Hveh as (d' & [= <-] & Hget).
  rewrite List.Forall_forall in Hes.
  destruct (Hes ("vehicules", SList [vehicle_schema])) as (vs & Hvs & Hc).
  { simpl. do 5 right. left. reflexivity. }
  simpl in Hvs, Hc. rewrite Hget in Hvs. injection Hvs as <-.
  inversion Hc as [| items sub Hitems | | |]; subst.
  inversion Hitems; assumption.
Qed.

(** X16. The same holds for the aggregated output: without an
    infrastructure description, what [map_records] returns for a
    non-empty list of records and the built-in template passes the
    schema validation. *)
Theorem mapped_documents_are_valid (E : env) (draws : nat -> nat * nat)
    (records : list pydict) (P : params) (merged : pyval) :
  infra E = None ->
  records <> [] ->
  (forall rec, In rec records -> dates_valid rec P) ->
  map_records E draws records DEFAULT_TEMPLATE P = Ok merged ->
  validate_json merged = Ok tt.
Proof.
  intros Hinf Hne Hdates H. unfold map_records in H.
  bind_as H docs Hdocs. bind_as H m Hm. rewrite Hinf in H. injection H as <-.
  pose proof (map_each_inv E draws _ P records O docs Hdocs) as Hall.
  assert (Hvalid : Forall (fun doc => validate_json doc = Ok tt) docs).
  { clear -Hall Hinf Hdates. induction Hall as [| rec doc rs ds [j Hj] _ IH].
    - constructor.
    - constructor.
      + apply (mapped_document_is_valid (with_draws E (draws j)) rec P doc).
        * exact Hinf.
        * apply Hdates. left. reflexivity.
        * exact Hj.
      + apply IH. intros r Hr. apply Hdates. right. exact Hr. }
  destruct docs as [| first rest]; [inversion Hall; subst; contradiction |].
  destruct (aggregate_results_inv first rest m Hm)
    as (vss & Hvss & Hveh & Hother & Hsrc).
  destruct (mapM_doc_vehicules E draws _ P records _ Hall vss Hvss) as [Hv _].
  assert (Hvs : Forall (fun v => conforms v vehicle_schema) (concat vss)).
  { clear -Hv Hvalid. induction Hv as [| doc v ds vs Hdv _ IH].
    - constructor.
    - inversion Hvalid; subst. constructor; [| apply IH; assumption].
      eapply valid_document_vehicle; eassumption. }
  inversion Hvalid as [| ? ? Hfirst _]; subst.
  inversion Hall as [| ? ? ? ? [j Hj] _]; subst.
  destruct (map_record_top _ _ _ _ _ Hj) as (_ & [df ->] & Hs & _).
  simpl in Hs. rewrite Hinf in Hs.
  destruct (getitem_ok_dict _ _ _ Hveh) as (dm & -> & Hgetv).
  pose proof (Hsrc _ Hs eq_refl) as Hsm.
  apply getitem_ok_dict in Hsm as (dm' & [= <-] & Hgets).
  apply (validate_ok_iff SCHEMA (PDict df) "") in Hfirst.
  apply (validate_ok_iff SCHEMA (PDict dm) "").
  inversion Hfirst as [d0 es Hes | | | |]; subst.
  apply conforms_mapping.
  rewrite List.Forall_forall in Hes |- *.
  intros [k sub] Hin. specialize (Hes (k, sub) Hin). simpl in Hes |- *.
  destruct (String.eqb k "vehicules") eqn:Ek.
  - apply String.eqb_eq in Ek. subst k.
    exists (PList (concat vss)). split; [exact Hgetv |].
    simpl in Hin.
    repeat (destruct Hin as [Hin | Hin]; [try discriminate Hin |]);
      try contradiction.
    injection Hin as <-. constructor. exact Hvs.
  - destruct (String.eqb k "sources") eqn:Es.
    + apply String.eqb_eq in Es. subst k.
      exists (PList []). split; [exact Hgets |].
      simpl in Hin.
      repeat (destruct Hin as [Hin | Hin]; [try discriminate Hin |]);
        try contradiction.
      injection Hin as <-. constructor. constructor.
    + apply String.eqb_neq in Ek. apply String.eqb_neq in Es.
      rewrite (getitem_eq_get _ _ _ (Hother k Ek Es)). exact Hes.
Qed.

Lemma mapped_documents_are_valid_witness :
  validate_json
    (result_or_none
       (map_records test_env (fun _ => (O, O)) two_records DEFAULT_TEMPLATE
          default_params))
  = Ok tt.
Proof.
  apply (mapped_documents_are_valid test_env (fun _ => (O, O)) two_records
           default_params).
  - reflexivity.
  - discriminate.
  - intros rec Hrec. split; [| split]; try discriminate.
    intros k d. simpl in Hrec. destruct Hrec as [<- | [<- | []]]; simpl;
      destruct (String.eqb k "newIdVeh"); discriminate.
  - vm_compute. reflexivity.
Defined.

(** ** The order of date-times *)

Module DTOrder.

Import DT.
Import DTFacts.

(** A date and a date-time as one integer that grows with time. *)
Definition date_key (d : date) : Z := (year d * 16 + month d) * 32 + day d.

Definition key (d : datetime) : Z :=
  date_key (dt_date d) * us_per_day + us_of_day d.

Lemma lex_compare (a b c d m : Z) :
  0 <= c < m -> 0 <= d < m ->
  lex (a ?= b) (c ?= d) = (a * m + c ?= b * m + d).
Proof.
  intros Hc Hd. unfold lex.
  destruct (Z.compare_spec a b) as [-> | Hlt | Hgt].
  - destruct (Z.compare_spec c d) as [-> | H | H]; symmetry.
    + apply Z.compare_refl.
    + apply Z.compare_lt_iff. lia.
    + apply Z.compare_gt_iff. lia.
  - symmetry. apply Z.compare_lt_iff. nia.
  - symmetry. apply Z.compare_gt_iff. nia.
Qed.

Lemma date_compare_key (a b : date) :
  valid_md a -> valid_md b -> date_compare a b = (date_key a ?= date_key b).
Proof.
  intros [Hma Hda] [Hmb Hdb].
  pose proof (days_in_month_bounds (year a) (month a)).
  pose proof (days_in_month_bounds (year b) (month b)).
  unfold date_compare, date_key.
  rewrite <- (lex_compare _ _ (day a) (day b) 32) by lia.
  rewrite <- (lex_compare _ _ (month a) (month b) 16) by lia.
  destruct (year a ?= year b); reflexivity.
Qed.

Lemma compare_key (a b : datetime) :
  validb a = true -> validb b = true -> compare a b = (key a ?= key b).
Proof.
  intros Ha Hb.
  apply validb_spec in Ha as (_ & Hmda & Hta).
  apply validb_spec in Hb as (_ & Hmdb & Htb).
  pose proof (us_of_day_bounds a Hta) as Hua.
  pose proof (us_of_day_bounds b Htb) as Hub.
  unfold compare, key. rewrite (date_compare_key _ _ Hmda Hmdb).
  rewrite <- (lex_compare _ _ (us_of_day a) (us_of_day b) us_per_day)
    by assumption.
  destruct (date_key (dt_date a) ?= date_key (dt_date b)); try reflexivity.
  destruct Hta as (Hh & Hm & Hs & Hus). destruct Htb as (Hh' & Hm' & Hs' & Hus').
  unfold us_of_day, us_per_second. simpl.
  rewrite <- (lex_compare _ _ (microsecond a) (microsecond b) 1000000) by lia.
  rewrite <- (lex_compare _ _ (second a) (second b) 60) by lia.
  rewrite <- (lex_compare _ _ (minute a) (minute b) 60) by lia.
  destruct (hour a ?= hour b); try reflexivity.
  destruct (minute a ?= minute b); reflexivity.
Qed.

Lemma leb_key (a b : datetime) :
  validb a = true -> validb b = true ->
  (leb a b = true <-> key a <= key b).
Proof.
  intros Ha Hb. unfold leb. rewrite (compare_key a b Ha Hb).
  destruct (Z.compare_spec (key a) (key b)); simpl; split; try lia;
    try reflexivity; discriminate.
Qed.

Lemma ltb_key (a b : datetime) :
  validb a = true -> validb b = true ->
  (ltb a b = true <-> key a < key b).
Proof.
  intros Ha Hb. unfold ltb. rewrite (compare_key a b Ha Hb).
  destruct (Z.compare_spec (key a) (key b)); simpl; split; try lia;
    try reflexivity; discriminate.
Qed.

Lemma gtb_key (a b : datetime) :
  validb a = true -> validb b = true ->
  (gtb a b = true <-> key b < key a).
Proof.
  intros Ha Hb. unfold gtb. rewrite (compare_key a b Ha Hb).
  destruct (Z.compare_spec (key a) (key b)); simpl; split; try lia;
    try reflexivity; discriminate.
Qed.

Lemma geb_key (a b : datetime) :
  validb a = true -> validb b = true ->
  (geb a b = true <-> key b <= key a).
Proof.
  intros Ha Hb. unfold geb. rewrite (compare_key a b Ha Hb).
  destruct (Z.compare_spec (key a) (key b)); simpl; split; try lia;
    try reflexivity; discriminate.
Qed.

(** *** Day arithmetic is monotone *)

Lemma next_day_key (d : date) :
  valid_md d -> date_key d < date_key (next_day d).
Proof.
  intros [Hm Hd]. pose proof (days_in_month_bounds (year d) (month d)).
  unfold next_day, date_key.
  destruct (day d <? days_in_month (year d) (month d)); simpl; [lia |].
  destruct (month d <? 12) eqn:E; simpl; [lia |].
  apply Z.ltb_ge in E. lia.
Qed.

Lemma next_prev (d : date) : valid_md d -> next_day (prev_day d) = d.
Proof.
  destruct d as [y m dd]. unfold valid_md, prev_day, next_day. simpl.
  intros [Hm Hd].
  destruct (1 <? dd) eqn:E1; simpl.
  - apply Z.ltb_lt in E1.
    destruct (dd - 1 <? days_in_month y m) eqn:E2.
    + f_equal. lia.
    + apply Z.ltb_ge in E2. lia.
  - apply Z.ltb_ge in E1. assert (dd = 1) by lia. subst dd.
    destruct (1 <? m) eqn:E2; simpl.
    + apply Z.ltb_lt in E2. rewrite Z.ltb_irrefl.
      destruct (m - 1 <? 12) eqn:E3.
      * f_equal. lia.
      * apply Z.ltb_ge in E3. lia.
    + apply Z.ltb_ge in E2. assert (m = 1) by lia. subst m.
      change (days_in_month (y - 1) 12) with 31. simpl. f_equal. lia.
Qed.

Lemma shift_days_succ (n : Z) (d : date) :
  valid_md d -> shift_days (n + 1) d = next_day (shift_days n d).
Proof.
  intros Hv. destruct n as [| p | p].
  - reflexivity.
  - change (Z.pos p + 1) with (Z.pos (p + 1)%positive). rewrite Pos.add_1_r.
    simpl. apply Pos.iter_succ.
  - destruct (Pos.eq_dec p 1%positive) as [-> | Hp].
    + simpl. symmetry. apply next_prev. exact Hv.
    + rewrite <- (Pos.succ_pred p Hp). generalize (Pos.pred p). intros q.
      replace (Z.neg (Pos.succ q) + 1) with (Z.neg q)
        by (rewrite <- !Pos2Z.opp_pos, Pos2Z.inj_succ; lia).
      simpl. rewrite Pos.iter_succ. symmetry. apply next_prev.
      apply Pos.iter_invariant; [apply prev_day_valid | exact Hv].
Qed.

Lemma shift_days_key (d : date) (n k : Z) :
  valid_md d -> 0 <= k ->
  date_key (shift_days n d) + k <= date_key (shift_days (n + k) d).
Proof.
  intros Hv Hk. revert k Hk. apply natlike_ind.
  - rewrite !Z.add_0_r. lia.
  - intros k Hk IH. replace (n + Z.succ k) with (n + k + 1) by lia.
    rewrite (shift_days_succ _ _ Hv).
    pose proof (next_day_key (shift_days (n + k) d)
                  (shift_days_valid _ _ Hv)). lia.
Qed.

Lemma us_of_day_of_day_us (d : date) (us : Z) :
  0 <= us < us_per_day -> us_of_day (of_day_us d us) = us.
Proof.
  unfold us_of_day, of_day_us, us_per_day, us_per_second. simpl. intros H.
  Z.div_mod_to_equations. lia.
Qed.

(** A larger [timedelta] gives a later date-time. *)
Lemma add_mono (d d1 d2 : datetime) (delta1 delta2 : timedelta) :
  validb d = true -> delta1 <= delta2 ->
  add d delta1 = Ok d1 -> add d delta2 = Ok d2 ->
  key d1 <= key d2.
Proof.
  intros Hv Hle H1 H2.
  pose proof Hv as Hmd. apply validb_spec in Hmd as (_ & Hmd & _).
  apply add_inv in H1 as [_ ->]. apply add_inv in H2 as [_ ->].
  set (t1 := us_of_day d + delta1). set (t2 := us_of_day d + delta2).
  assert (Ht : t1 <= t2) by (unfold t1, t2; lia).
  assert (HD : 0 < us_per_day) by reflexivity.
  pose proof (Z.mod_pos_bound t1 us_per_day HD) as Hr1.
  pose proof (Z.mod_pos_bound t2 us_per_day HD) as Hr2.
  unfold key. simpl dt_date.
  rewrite !us_of_day_of_day_us by assumption.
  pose proof (Z.div_mod t1 us_per_day ltac:(lia)) as E1.
  pose proof (Z.div_mod t2 us_per_day ltac:(lia)) as E2.
  assert (Hq : t1 / us_per_day <= t2 / us_per_day)
    by (apply Z.div_le_mono; lia).
  pose proof (shift_days_key (dt_date d) (t1 / us_per_day)
                (t2 / us_per_day - t1 / us_per_day) Hmd ltac:(lia)) as Hk.
  replace (t1 / us_per_day + (t2 / us_per_day - t1 / us_per_day))
    with (t2 / us_per_day) in Hk by lia.
  destruct (Z.eq_dec (t1 / us_per_day) (t2 / us_per_day)) as [Heq | Hne].
  - rewrite Heq in *. nia.
  - nia.
Qed.

(** *** Rounding is monotone *)

Lemma round_half_even_mono (q1 q2 : Q) :
  (q1 <= q2)%Q -> round_half_even q1 <= round_half_even q2.
Proof.
  intros Hle. pose proof (Qfloor_resp_le _ _ Hle) as Hf.
  unfold round_half_even.
  destruct (Z.eq_dec (Qfloor q1) (Qfloor q2)) as [Heq | Hne].
  - rewrite <- Heq. set (f := Qfloor q1) in *.
    assert (Hcontra : (q2 - inject_Z f < q1 - inject_Z f)%Q -> False).
    { intros H. apply (Qlt_not_le q2 q1); [| exact Hle].
      apply (Qplus_lt_l _ _ (- inject_Z f)). exact H. }
    destruct (Qcompare (q1 - inject_Z f) (1 # 2)) eqn:C1;
      destruct (Qcompare (q2 - inject_Z f) (1 # 2)) eqn:C2.
    + lia.
    + exfalso. apply Hcontra. apply Qeq_alt in C1. apply Qlt_alt in C2.
      rewrite C1. exact C2.
    + destruct (Z.even f); lia.
    + destruct (Z.even f); lia.
    + lia.
    + lia.
    + exfalso. apply Hcontra. apply Qgt_alt in C1. apply Qeq_alt in C2.
      rewrite C2. exact C1.
    + exfalso. apply Hcontra. apply Qgt_alt in C1. apply Qlt_alt in C2.
      eapply Qlt_trans; eassumption.
    + lia.
  - assert (Qfloor q1 + 1 <= Qfloor q2) by lia.
    destruct (Qcompare (q1 - inject_Z (Qfloor q1)) (1 # 2));
      destruct (Qcompare (q2 - inject_Z (Qfloor q2)) (1 # 2));
      try (destruct (Z.even (Qfloor q1))); try (destruct (Z.even (Qfloor q2)));
      lia.
Qed.

Lemma td_days_q_mono (q1 q2 : Q) :
  (q1 <= q2)%Q -> td_days_q q1 <= td_days_q q2.
Proof.
  intros H. unfold td_days_q. apply round_half_even_mono.
  apply Qmult_le_compat_r; [exact H | discriminate].
Qed.

End DTOrder.

(** Later serial numbers are later date-times. *)
Lemma excel_number_mono (q1 q2 : Q) (d1 d2 : DT.datetime) :
  (q1 <= q2)%Q ->
  excel_number_to_datetime q1 = Ok d1 ->
  excel_number_to_datetime q2 = Ok d2 ->
  DT.leb d1 d2 = true.
Proof.
  intros Hle H1 H2.
  apply DTOrder.leb_key;
    [exact (excel_number_valid _ _ H1) | exact (excel_number_valid _ _ H2) |].
  unfold excel_number_to_datetime in *.
  apply (DTOrder.add_mono EXCEL_EPOCH d1 d2 (DT.td_days_q q1) (DT.td_days_q q2));
    [reflexivity | apply DTOrder.td_days_q_mono; exact Hle | exact H1
     | exact H2].
Qed.

(** ** Departure days (src/utils.py, src/main.py, src/validator.py) *)

Lemma Qminimum_le (l : list Q) :
  forall x, (Qminimum x l <= x)%Q
            /\ forall v, In v l -> (Qminimum x l <= v)%Q.
Proof.
  unfold Qminimum. induction l as [| a l IH]; intros x; simpl.
  - split; [apply Qle_refl | intros v []].
  - destruct (Qlt_le_dec a x) as [Hlt | Hge].
    + destruct (IH a) as [H1 H2]. split.
      * eapply Qle_trans; [exact H1 | apply Qlt_le_weak; exact Hlt].
      * intros v [<- | Hv]; [exact H1 | exact (H2 v Hv)].
    + destruct (IH x) as [H1 H2]. split; [exact H1 |].
      intros v [<- | Hv]; [| exact (H2 v Hv)].
      eapply Qle_trans; [exact H1 | exact Hge].
Qed.

Lemma Qmaximum_ge (l : list Q) :
  forall x, (x <= Qmaximum x l)%Q
            /\ forall v, In v l -> (v <= Qmaximum x l)%Q.
Proof.
  unfold Qmaximum. induction l as [| a l IH]; intros x; simpl.
  - split; [apply Qle_refl | intros v []].
  - destruct (Qlt_le_dec x a) as [Hlt | Hge].
    + destruct (IH a) as [H1 H2]. split.
      * eapply Qle_trans; [apply Qlt_le_weak; exact Hlt | exact H1].
      * intros v [<- | Hv]; [exact H1 | exact (H2 v Hv)].
    + destruct (IH x) as [H1 H2]. split; [exact H1 |].
      intros v [<- | Hv]; [| exact (H2 v Hv)].
      eapply Qle_trans; [exact Hge | exact H1].
Qed.

Lemma in_jour_vals (rows : list pydict) (r : pydict) (q : Q) :
  In r rows ->
  Num.py_float (Dict.get_default r "jourDep" (PInt 0)) = Ok q ->
  In q (jour_vals rows).
Proof.
  intros Hin Hq. induction rows as [| a rows IH]; [destruct Hin |].
  simpl. destruct Hin as [-> | Hin].
  - rewrite Hq. left. reflexivity.
  - destruct (Num.py_float (Dict.get_default a "jourDep" (PInt 0)));
      [right |]; apply IH; exact Hin.
Qed.

(** X17. The two bounds that [jour_dep_bounds] returns are in order
    and enclose every departure day that can be read from the rows. *)
Theorem jour_dep_bounds_enclose (rows : list pydict) (lo hi : DT.datetime) :
  jour_dep_bounds rows = Ok (lo, hi) ->
  DT.leb lo hi = true
  /\ forall r d, In r rows -> jour_of r = Ok d ->
                 DT.leb lo d = true /\ DT.leb d hi = true.
Proof.
  unfold jour_dep_bounds. intros H.
  destruct (jour_vals rows) as [| v vs] eqn:Hvals.
  - injection H as <- <-. split; [reflexivity |].
    intros r d Hr Hd. unfold jour_of in Hd. bind_as Hd q Hq.
    pose proof (in_jour_vals rows r q Hr Hq) as Hin.
    rewrite Hvals in Hin. destruct Hin.
  - bind_as H lo' Hlo. bind_as H hi' Hhi. injection H as <- <-.
    destruct (Qminimum_le vs v) as [Hmin1 Hmin2].
    destruct (Qmaximum_ge vs v) as [Hmax1 Hmax2].
    split.
    + apply (excel_number_mono _ _ _ _ (Qle_trans _ _ _ Hmin1 Hmax1) Hlo Hhi).
    + intros r d Hr Hd. unfold jour_of in Hd. bind_as Hd q Hq.
      pose proof (in_jour_vals rows r q Hr Hq) as Hin.
      rewrite Hvals in Hin.
      assert (Hq1 : (Qminimum v vs <= q)%Q)
        by (destruct Hin as [<- | Hin]; [exact Hmin1 | exact (Hmin2 q Hin)]).
      assert (Hq2 : (q <= Qmaximum v vs)%Q)
        by (destruct Hin as [<- | Hin]; [exact Hmax1 | exact (Hmax2 q Hin)]).
      split.
      * exact (excel_number_mono _ _ _ _ Hq1 Hlo Hd).
      * exact (excel_number_mono _ _ _ _ Hq2 Hd Hhi).
Qed.

Lemma jour_dep_bounds_enclose_witness :
  DT.leb (DT.combine_min (DT.mkdate 2024 12 17))
         (DT.combine_min (DT.mkdate 2024 12 19)) = true.
Proof.
  apply (jour_dep_bounds_enclose sample_rows). vm_compute. reflexivity.
Defined.

Lemma filter_loop_in (start end_ : option DT.datetime)
    (records : list pydict) (rec : pydict) :
  In rec (filter_loop start end_ records)
  <-> In rec records
      /\ exists d, jour_of rec = Ok d
                   /\ match start with Some s => DT.ltb d s | None => false end
                      = false
                   /\ match end_ with Some e => DT.gtb d e | None => false end
                      = false.
Proof.
  induction records as [| a records IH]; simpl.
  - split; [intros [] | intros [[] _]].
  - destruct (jour_of a) as [d |] eqn:Hd.
    + destruct (match start with Some s => DT.ltb d s | None => false end)
        eqn:Hs.
      * rewrite IH. split.
        -- intros [Hin Hex]. split; [right; exact Hin | exact Hex].
        -- intros [[<- | Hin] Hex]; [| split; assumption].
           destruct Hex as (d' & Hd' & Hs' & _).
           rewrite Hd in Hd'. injection Hd' as <-. congruence.
      * destruct (match end_ with Some e => DT.gtb d e | None => false end)
          eqn:He.
        -- rewrite IH. split.
           ++ intros [Hin Hex]. split; [right; exact Hin | exact Hex].
           ++ intros [[<- | Hin] Hex]; [| split; assumption].
              destruct Hex as (d' & Hd' & _ & He').
              rewrite Hd in Hd'. injection Hd' as <-. congruence.
        -- simpl. rewrite IH. split.
           ++ intros [<- | [Hin Hex]].
              ** split; [left; reflexivity |]. exists d. repeat split; assumption.
              ** split; [right; exact Hin | exact Hex].
           ++ intros [[<- | Hin] Hex]; [left; reflexivity |].
              right. split; assumption.
    + rewrite IH. split.
      * intros [Hin Hex]. split; [right; exact Hin | exact Hex].
      * intros [[<- | Hin] Hex]; [| split; assumption].
        destruct Hex as (d' & Hd' & _). congruence.
Qed.

Lemma filter_loop_sublist (start end_ : option DT.datetime)
    (records : list pydict) :
  sublist (filter_loop start end_ records) records.
Proof.
  induction records as [| a records IH]; simpl; [constructor |].
  destruct (jour_of a); [| constructor; exact IH].
  destruct (match start with Some s => DT.ltb _ s | None => false end);
    [constructor; exact IH |].
  destruct (match end_ with Some e => DT.gtb _ e | None => false end);
    constructor; exact IH.
Qed.

(** X18. The day filter.  Without bounds every record is kept, also
    those whose day cannot be read.  With a bound, the result is the
    records, in their order, whose day can be read and is neither
    before the start nor after the end; a bound that is [None] does not
    constrain. *)
Theorem filter_by_jour_dep_spec (records : list pydict)
    (start end_ : option DT.datetime) :
  _filter_by_jour_dep records None None = records
  /\ sublist (_filter_by_jour_dep records start end_) records
  /\ (start <> None \/ end_ <> None ->
      forall rec,
        In rec (_filter_by_jour_dep records start end_)
        <-> In rec records
            /\ exists d,
                 jour_of rec = Ok d
                 /\ (forall s, start = Some s -> DT.ltb d s = false)
                 /\ (forall e, end_ = Some e -> DT.gtb d e = false)).
Proof.
  split; [reflexivity |]. split.
  - unfold _filter_by_jour_dep.
    destruct start, end_; try apply filter_loop_sublist. reflexivity.
  - intros Hsome rec.
    assert (Heq : _filter_by_jour_dep records start end_
                  = filter_loop start end_ records).
    { unfold _filter_by_jour_dep. destruct start, end_; try reflexivity.
      destruct Hsome as [Hs | He]; congruence. }
    rewrite Heq, filter_loop_in. split.
    + intros [Hin (d & Hd & Hs & He)]. split; [exact Hin |].
      exists d. split; [exact Hd |]. split.
      * intros s ->. exact Hs.
      * intros e ->. exact He.
    + intros [Hin (d & Hd & Hs & He)]. split; [exact Hin |].
      exists d. split; [exact Hd |]. split.
      * destruct start as [s |]; [apply Hs |]; reflexivity.
      * destruct end_ as [e |]; [apply He |]; reflexivity.
Qed.

(** X19. A window that [validate_optim_dates] accepts is not empty and
    loses no departure: its start is strictly before its end, and the
    day filter run with it keeps every record whose day can be read. *)
Theorem validated_window_keeps_rows (debut fin : pyval) (rows : list pydict)
    (s e : DT.datetime) :
  validate_optim_dates debut fin rows = Ok tt ->
  parse_iso_datetime debut = Ok s ->
  parse_iso_datetime fin = Ok e ->
  DT.validb s = true -> DT.validb e = true ->
  DT.ltb s e = true
  /\ forall rec, In rec rows -> is_ok (jour_of rec) = true ->
                 In rec (_filter_by_jour_dep rows (Some s) (Some e)).
Proof.
  intros H Hs He Hvs Hve. unfold validate_optim_dates in H.
  bind_as H bounds Hb. destruct bounds as [lo hi].
  assert (Hto : forall v, match v with
                          | PDateTime d => Ok d
                          | _ => parse_iso_datetime v
                          end = parse_iso_datetime v)
    by (intros v; destruct v; reflexivity).
  rewrite !Hto, Hs, He in H. cbn [rbind] in H.
  destruct (DT.geb s lo) eqn:Hgeb; [discriminate |].
  destruct (DT.leb e hi) eqn:Hleb; [discriminate |].
  destruct (jour_dep_bounds_valid _ _ _ Hb) as [Hvlo Hvhi].
  destruct (jour_dep_bounds_enclose rows lo hi Hb) as [Hord Hall].
  assert (K1 : DTOrder.key s < DTOrder.key lo).
  { destruct (Z_lt_le_dec (DTOrder.key s) (DTOrder.key lo)) as [Hlt | Hge];
      [exact Hlt |].
    apply (DTOrder.geb_key s lo Hvs Hvlo) in Hge. congruence. }
  assert (K2 : DTOrder.key hi < DTOrder.key e).
  { destruct (Z_lt_le_dec (DTOrder.key hi) (DTOrder.key e)) as [Hlt | Hge];
      [exact Hlt |].
    apply (DTOrder.leb_key e hi Hve Hvhi) in Hge. congruence. }
  apply (DTOrder.leb_key lo hi Hvlo Hvhi) in Hord.
  split; [apply (DTOrder.ltb_key s e Hvs Hve); lia |].
  intros rec Hin Hok. unfold _filter_by_jour_dep. apply filter_loop_in.
  split; [exact Hin |].
  destruct (jour_of rec) as [d |] eqn:Hd; [| discriminate].
  exists d. split; [reflexivity |].
  destruct (Hall rec d Hin Hd) as [H1 H2].
  assert (Hvd : DT.validb d = true).
  { unfold jour_of in Hd. bind_as Hd q Hq. exact (excel_number_valid _ _ Hd). }
  apply (DTOrder.leb_key lo d Hvlo Hvd) in H1.
  apply (DTOrder.leb_key d hi Hvd Hvhi) in H2.
  split.
  - destruct (DT.ltb d s) eqn:E; [| reflexivity].
    apply (DTOrder.ltb_key d s Hvd Hvs) in E. lia.
  - destruct (DT.gtb d e) eqn:E; [| reflexivity].
    apply (DTOrder.gtb_key d e Hvd Hve) in E. lia.
Qed.

Lemma validated_window_keeps_rows_witness :
  DT.ltb (DT.combine_min (DT.mkdate 2024 12 1))
         (DT.combine_min (DT.mkdate 2025 1 1)) = true
  /\ forall rec, In rec sample_rows -> is_ok (jour_of rec) = true ->
                 In rec (_filter_by_jour_dep sample_rows
                           (Some (DT.combine_min (DT.mkdate 2024 12 1)))
                           (Some (DT.combine_min (DT.mkdate 2025 1 1)))).
Proof.
  apply (validated_window_keeps_rows (PStr "2024-12-01") (PStr "2025-01-01")
           sample_rows).
  - vm_compute. reflexivity.
  - vm_compute. reflexivity.
  - vm_compute. reflexivity.
  - reflexivity.
  - reflexivity.
Defined.

(** ** Charger definitions *)

Lemma of_nat_inj (a b : nat) : Str.of_nat a = Str.of_nat b -> a = b.
Proof.
  unfold Str.of_nat. intros H.
  apply DecimalNat.Unsigned.to_uint_inj.
  pose proof (NilEmpty.usu (Nat.to_uint a)) as Ha.
  pose proof (NilEmpty.usu (Nat.to_uint b)) as Hb.
  rewrite H in Ha. congruence.
Qed.

Lemma str_app_inv_head (p a b : string) : p ++ a = p ++ b -> a = b.
Proof.
  induction p as [| c p IH]; [exact id |].
  rewrite !IsoFacts.str_app_cons. intros [= H]. exact (IH H).
Qed.

(** The vehicles that get a charger, with the position where each is
    first met: the loop of [build_chargeurs] without the charger
    construction. *)
Definition first_met (E : env) (records : list pydict) (i : nat)
    (v : string) : Prop :=
  v <> ""
  /\ (exists rec, nth_error records i = Some rec /\ veh_of E rec = v)
  /\ forall j rec, (j < i)%nat -> nth_error records j = Some rec ->
                   veh_of E rec <> v.

Lemma existsb_eqb_in (v : string) (seen : list string) :
  existsb (String.eqb v) seen = true <-> In v seen.
Proof.
  rewrite existsb_exists. split.
  - intros (x & Hx & Heq). apply String.eqb_eq in Heq. subst. exact Hx.
  - intros H. exists v. split; [exact H | apply String.eqb_refl].
Qed.

Lemma build_loop_spec (E : env) (ct pt : pyval) (cp pp : option Z)
    (records : list pydict) :
  forall (idx : nat) (seen : list string) (chs : list pyval),
    build_loop E ct pt cp pp idx seen records = Ok chs ->
    exists pairs : list (nat * string),
      mapM (fun p => built_charger ct pt cp pp (fst p) (snd p)) pairs = Ok chs
      /\ StronglySorted lt (List.map fst pairs)
      /\ Forall (fun p => (idx <= fst p)%nat) pairs
      /\ forall i v,
           In (i, v) pairs
           <-> exists k, i = (idx + k)%nat /\ ~ In v seen
                         /\ first_met E records k v.
Proof.
  induction records as [| rec records IH]; intros idx seen chs H; simpl in H.
  - injection H as <-. exists []. split; [reflexivity |].
    split; [constructor |]. split; [constructor |].
    intros i v. split; [intros [] |].
    intros (k & _ & _ & _ & (r & Hr & _) & _). destruct k; discriminate Hr.
  - destruct (String.eqb (veh_of E rec) "") eqn:Hempty; simpl in H.
    + apply String.eqb_eq in Hempty.
      destruct (IH _ _ _ H) as (pairs & Hm & Hs & Hge & Hin).
      exists pairs. split; [exact Hm |]. split; [exact Hs |].
      split; [eapply List.Forall_impl; [| exact Hge]; simpl; intros; lia |].
      intros i v. rewrite Hin. split.
      * intros (k & -> & Hns & Hne & (r & Hr & Hv) & Hfirst).
        exists (S k). split; [lia |]. split; [exact Hns |].
        split; [exact Hne |]. split; [exists r; split; assumption |].
        intros j r' Hj Hr'. destruct j as [| j]; simpl in Hr'.
        -- injection Hr' as <-. congruence.
        -- apply (Hfirst j r'); [lia | exact Hr'].
      * intros (k & -> & Hns & Hne & (r & Hr & Hv) & Hfirst).
        destruct k as [| k]; simpl in Hr.
        -- injection Hr as <-. congruence.
        -- exists k. split; [lia |]. split; [exact Hns |].
           split; [exact Hne |]. split; [exists r; split; assumption |].
           intros j r' Hj Hr'. apply (Hfirst (S j) r'); [lia | exact Hr'].
    + apply String.eqb_neq in Hempty.
      destruct (existsb (String.eqb (veh_of E rec)) seen) eqn:Hseen.
      * apply existsb_eqb_in in Hseen.
        destruct (IH _ _ _ H) as (pairs & Hm & Hs & Hge & Hin).
        exists pairs. split; [exact Hm |]. split; [exact Hs |].
        split; [eapply List.Forall_impl; [| exact Hge]; simpl; intros; lia |].
        intros i v. rewrite Hin. split.
        -- intros (k & -> & Hns & Hne & (r & Hr & Hv) & Hfirst).
           exists (S k). split; [lia |]. split; [exact Hns |].
           split; [exact Hne |]. split; [exists r; split; assumption |].
           intros j r' Hj Hr'. destruct j as [| j]; simpl in Hr'.
           ++ injection Hr' as <-. intros Heq. apply Hns. rewrite <- Heq.
              exact Hseen.
           ++ apply (Hfirst j r'); [lia | exact Hr'].
        -- intros (k & -> & Hns & Hne & (r & Hr & Hv) & Hfirst).
           destruct k as [| k]; simpl in Hr.
           ++ injection Hr as <-. exfalso. apply Hns. rewrite <- Hv.
              exact Hseen.
           ++ exists k. split; [lia |]. split; [exact Hns |].
              split; [exact Hne |]. split; [exists r; split; assumption |].
              intros j r' Hj Hr'. apply (Hfirst (S j) r'); [lia | exact Hr'].
      * assert (Hns0 : ~ In (veh_of E rec) seen).
        { intros Hi. apply existsb_eqb_in in Hi. congruence. }
        bind_as H ch Hch. bind_as H rest Hrest. injection H as <-.
        destruct (IH _ _ _ Hrest) as (pairs & Hm & Hs & Hge & Hin).
        exists ((idx, veh_of E rec) :: pairs).
        split; [simpl; rewrite Hch; simpl; rewrite Hm; reflexivity |].
        split.
        { simpl. constructor; [exact Hs |].
          apply List.Forall_map. eapply List.Forall_impl; [| exact Hge].
          simpl. intros; lia. }
        split.
        { constructor; [simpl; lia |].
          eapply List.Forall_impl; [| exact Hge]. simpl. intros; lia. }
        intros i v. simpl. rewrite Hin. split.
        -- intros [[= <- <-] | (k & -> & Hns & Hne & (r & Hr & Hv) & Hfirst)].
           ++ exists O. split; [lia |]. split; [exact Hns0 |].
              split; [exact Hempty |].
              split; [exists rec; split; reflexivity |].
              intros j r' Hj. lia.
           ++ exists (S k). split; [lia |].
              split; [intros Hi; apply Hns; right; exact Hi |].
              split; [exact Hne |]. split; [exists r; split; assumption |].
              intros j r' Hj Hr'. destruct j as [| j]; simpl in Hr'.
              ** injection Hr' as <-. intros Heq. apply Hns. left. exact Heq.
              ** apply (Hfirst j r'); [lia | exact Hr'].
        -- intros (k & -> & Hns & Hne & (r & Hr & Hv) & Hfirst).
           destruct k as [| k]; simpl in Hr.
           ++ injection Hr as <-. left. f_equal; [lia | exact Hv].
           ++ right. exists k. split; [lia |].
              split.
              { intros [Heq | Hi]; [| exact (Hns Hi)].
                apply (Hfirst O rec); [lia | reflexivity | exact Heq]. }
              split; [exact Hne |]. split; [exists r; split; assumption |].
              intros j r' Hj Hr'. apply (Hfirst (S j) r'); [lia | exact Hr'].
Qed.

Lemma built_charger_id (ct pt : pyval) (cp pp : option Z) (idx : nat)
    (veh : string) (ch : pyval) :
  built_charger ct pt cp pp idx veh = Ok ch ->
  charger_id ch = PStr ("TR1_CH_" ++ Str.of_nat idx)
  /\ getitem ch "prises"
     = (let* prise := py_update pt [
          ("id", PStr ("PR_" ++ veh));
          ("libelle", PStr (("TR1_CH_" ++ Str.of_nat idx) ++ "_P1"));
          ("etat", PStr "online");
          ("typePrise", PStr "Type Prise");
          ("pMax", PInt (or0 pp))] in
        Ok (PList [prise])).
Proof.
  unfold built_charger. intros H. bind_as H c Hc. bind_as H p Hp.
  rewrite Hp. simpl rbind.
  destruct ct as [| | | | | | | d]; try discriminate Hc.
  injection Hc as <-. cbn [fold_left fst snd] in H.
  split.
  - apply setitem_ok in H as (d' & [= <-] & ->). unfold charger_id.
    unfold Dict.get_default.
    rewrite !dict_get_set_ne by discriminate.
    rewrite dict_get_set_eq. reflexivity.
  - exact (setitem_get_eq _ _ _ _ H).
Qed.

Lemma sorted_lt_nodup (l : list nat) : StronglySorted lt l -> List.NoDup l.
Proof.
  induction 1 as [| a l _ IH Hall]; constructor; [| exact IH].
  intros Hin. rewrite List.Forall_forall in Hall.
  specialize (Hall a Hin). lia.
Qed.

Lemma first_met_nodup (E : env) (records : list pydict)
    (pairs : list (nat * string)) :
  StronglySorted lt (List.map fst pairs) ->
  (forall i v, In (i, v) pairs -> first_met E records i v) ->
  List.NoDup (List.map snd pairs).
Proof.
  induction pairs as [| [i v] pairs IH]; intros Hs Hall; [constructor |].
  simpl in Hs. inversion Hs as [| ? ? Hs' Hlt]; subst.
  simpl. constructor.
  - intros Hv. apply List.in_map_iff in Hv as ([i' v'] & Heq & Hp).
    simpl in Heq. subst v'.
    assert (Hii : (i < i')%nat).
    { rewrite List.Forall_forall in Hlt. apply Hlt.
      apply List.in_map_iff. exists (i', v). split; [reflexivity | exact Hp]. }
    destruct (Hall i v (or_introl eq_refl)) as (_ & (r & Hr & Hrv) & _).
    destruct (Hall i' v (or_intror Hp)) as (_ & _ & Hfirst).
    exact (Hfirst i r Hii Hr Hrv).
  - apply IH; [exact Hs' |]. intros i' v' Hp. apply Hall. right. exact Hp.
Qed.

Lemma fold_set_get_ne (kvs : list (string * pyval)) :
  forall (d : pydict) (k : string),
    ~ In k (List.map fst kvs) ->
    Dict.get (fold_left (fun acc kv => Dict.set acc (fst kv) (snd kv)) kvs d) k
    = Dict.get d k.
Proof.
  induction kvs as [| [k' v] kvs IH]; intros d k Hk; simpl; [reflexivity |].
  rewrite IH by (intros Hin; apply Hk; right; exact Hin).
  apply dict_get_set_ne. intros ->. apply Hk. left. reflexivity.
Qed.

Lemma py_update_get_ne (obj obj' : pyval) (kvs : list (string * pyval))
    (k : string) :
  py_update obj kvs = Ok obj' -> ~ In k (List.map fst kvs) ->
  getitem obj' k = getitem obj k.
Proof.
  destruct obj; simpl; try discriminate. intros [= <-] Hk. simpl.
  rewrite (fold_set_get_ne kvs d k Hk). reflexivity.
Qed.

(** What a charger built for the vehicle [veh] at position [idx] looks
    like: six keys of its own, one plug with five keys of its own, and
    everything else as the template's first charger and its first plug
    have it. *)
Definition built_from (ch_template prise_template : pyval)
    (chargeur_pmax prise_pmax : option Z) (idx : nat) (veh : string)
    (ch : pyval) : Prop :=
  getitem ch "id" = Ok (PStr ("TR1_CH_" ++ Str.of_nat idx))
  /\ getitem ch "libelle" = Ok (PStr ("TR1_CH_" ++ Str.of_nat idx))
  /\ getitem ch "etat" = Ok (PStr "online")
  /\ getitem ch "pMax" = Ok (PInt (or0 chargeur_pmax))
  /\ getitem ch "typeChargeur" = Ok (PStr "TypeChargeur_valeur")
  /\ getitem ch "mutualisation"
     = Ok (PDict [
         ("nombrePrises", PInt 1);
         ("configsMutualisation",
            PList [PDict [("configMutualisation", PList [PInt 100])]])])
  /\ (forall k,
        ~ In k ["id"; "libelle"; "etat"; "pMax"; "typeChargeur";
                "mutualisation"; "prises"] ->
        getitem ch k = getitem ch_template k)
  /\ exists prise,
       getitem ch "prises" = Ok (PList [prise])
       /\ getitem prise "id" = Ok (PStr ("PR_" ++ veh))
       /\ getitem prise "libelle"
          = Ok (PStr (("TR1_CH_" ++ Str.of_nat idx) ++ "_P1"))
       /\ getitem prise "etat" = Ok (PStr "online")
       /\ getitem prise "typePrise" = Ok (PStr "Type Prise")
       /\ getitem prise "pMax" = Ok (PInt (or0 prise_pmax))
       /\ (forall k,
             ~ In k ["id"; "libelle"; "etat"; "typePrise"; "pMax"] ->
             getitem prise k = getitem prise_template k).

Lemma built_charger_built_from (ct pt : pyval) (cp pp : option Z) (idx : nat)
    (veh : string) (ch : pyval) :
  built_charger ct pt cp pp idx veh = Ok ch ->
  built_from ct pt cp pp idx veh ch.
Proof.
  unfold built_charger. intros H. bind_as H c Hc. bind_as H p Hp.
  assert (Hframe : forall k,
            ~ In k ["id"; "libelle"; "etat"; "pMax"; "typeChargeur";
                    "mutualisation"; "prises"] ->
            getitem ch k = getitem ct k).
  { intros k Hk. simpl in Hk.
    rewrite (setitem_get_ne _ _ k _ _ H) by (intros ->; intuition congruence).
    apply (py_update_get_ne _ _ _ k Hc). simpl. intuition congruence. }
  assert (Hpframe : forall k,
            ~ In k ["id"; "libelle"; "etat"; "typePrise"; "pMax"] ->
            getitem p k = getitem pt k).
  { intros k Hk. apply (py_update_get_ne _ _ _ k Hp). exact Hk. }
  destruct ct as [| | | | | | | dc]; try discriminate Hc.
  destruct pt as [| | | | | | | dp]; try discriminate Hp.
  injection Hc as <-. injection Hp as <-.
  cbn [fold_left fst snd] in *.
  apply setitem_ok in H as (d' & [= <-] & ->).
  unfold built_from. rewrite !getitem_dict.
  rewrite !(dict_get_set_ne _ "prises") by discriminate.
  repeat (split; [rewrite ?dict_get_set_ne by discriminate;
                  rewrite dict_get_set_eq; reflexivity |]).
  split; [exact Hframe |].
  eexists. split; [rewrite dict_get_set_eq; reflexivity |].
  rewrite !getitem_dict.
  repeat (split; [rewrite ?dict_get_set_ne by discriminate;
                  rewrite dict_get_set_eq; reflexivity |]).
  exact Hpframe.
Qed.

(** X20. What [build_chargeurs] returns, when it returns: one charger
    for every distinct non-blank vehicle identifier of the records,
    built from the first charger of the template (first source, first
    transformer) and from its first plug, at the position where the
    vehicle is first met, in the order of the records.  No vehicle gets
    two chargers, and the charger identifiers [TR1_CH_<position>] are
    pairwise distinct. *)
Theorem build_chargeurs_spec (E : env) (records : list pydict)
    (template : pyval) (chargeur_pmax prise_pmax : option Z)
    (chs : list pyval) :
  build_chargeurs E records template chargeur_pmax prise_pmax = Ok chs ->
  exists (ch_template prise_template : pyval) (pairs : list (nat * string)),
    (let* srcs := py_get template "sources" (PList [PDict []]) in
     let* src := getitem0 srcs in
     let* ts := py_get src "transformateurs" (PList [PDict []]) in
     let* trans := getitem0 ts in
     let* cs := py_get trans "chargeurs" (PList [PDict []]) in
     getitem0 cs) = Ok ch_template
    /\ (let* ps := py_get ch_template "prises" (PList [PDict []]) in
        getitem0 ps) = Ok prise_template
    /\ Forall2 (fun p ch =>
                  built_from ch_template prise_template chargeur_pmax
                    prise_pmax (fst p) (snd p) ch) pairs chs
    /\ mapM (fun p => built_charger ch_template prise_template chargeur_pmax
                        prise_pmax (fst p) (snd p)) pairs = Ok chs
    /\ (forall i v, In (i, v) pairs <-> first_met E records i v)
    /\ StronglySorted lt (List.map fst pairs)
    /\ List.NoDup (List.map snd pairs)
    /\ List.map charger_id chs
       = List.map (fun p => PStr ("TR1_CH_" ++ Str.of_nat (fst p))) pairs
    /\ List.NoDup (List.map charger_id chs).
Proof.
  unfold build_chargeurs. intros H.
  bind_as H src Hsrc. bind_as H trans Htrans. bind_as H ct Hct.
  bind_as H pt Hpt.
  destruct (build_loop_spec E ct pt chargeur_pmax prise_pmax records O [] chs H)
    as (pairs & Hm & Hs & _ & Hin).
  exists ct, pt, pairs.
  assert (Hin' : forall i v, In (i, v) pairs <-> first_met E records i v).
  { intros i v. rewrite Hin. split.
    - intros (k & -> & _ & Hf). exact Hf.
    - intros Hf. exists i. split; [reflexivity |]. split; [intros [] | exact Hf]. }
  assert (Hids : List.map charger_id chs
                 = List.map (fun p => PStr ("TR1_CH_" ++ Str.of_nat (fst p)))
                     pairs).
  { clear -Hm. revert chs Hm. induction pairs as [| p pairs IH]; intros chs Hm.
    - simpl in Hm. injection Hm as <-. reflexivity.
    - apply mapM_cons_inv in Hm as (ch & chs' & Hch & Hchs & ->).
      simpl. rewrite (IH chs' Hchs).
      destruct (built_charger_id _ _ _ _ _ _ _ Hch) as [-> _]. reflexivity. }
  split.
  { unfold first_of in Hsrc, Htrans, Hct.
    bind_as Hsrc srcs Hsrcs. rewrite Hsrcs. cbn [rbind]. rewrite Hsrc.
    cbn [rbind].
    bind_as Htrans ts Hts. rewrite Hts. cbn [rbind]. rewrite Htrans.
    cbn [rbind].
    bind_as Hct cs Hcs. rewrite Hcs. cbn [rbind]. exact Hct. }
  split; [exact Hpt |].
  split.
  { clear -Hm. revert chs Hm. induction pairs as [| p pairs IH]; intros chs Hm.
    - simpl in Hm. injection Hm as <-. constructor.
    - apply mapM_cons_inv in Hm as (ch & chs' & Hch & Hchs & ->).
      constructor; [exact (built_charger_built_from _ _ _ _ _ _ _ Hch) |].
      exact (IH chs' Hchs). }
  split; [exact Hm |]. split; [exact Hin' |]. split; [exact Hs |].
  split.
  { apply (first_met_nodup E records pairs Hs).
    intros i v Hp. apply Hin'. exact Hp. }
  split; [exact Hids |].
  rewrite Hids.
  apply (List.NoDup_map_inv (fun v => match v with
                                     | PStr s => s
                                     | _ => ""
                                     end)).
  rewrite List.map_map. simpl.
  assert (Hnd : List.NoDup (List.map fst pairs)) by (apply sorted_lt_nodup, Hs).
  clear -Hnd. induction pairs as [| p pairs IH]; [constructor |].
  simpl in *. inversion Hnd as [| ? ? Hni Hnd']; subst. constructor.
  - intros Hi. apply Hni. apply List.in_map_iff in Hi as (p' & Heq & Hp').
    apply str_app_inv_head, of_nat_inj in Heq.
    apply List.in_map_iff. exists p'. split; assumption.
  - exact (IH Hnd').
Qed.

Definition four_records : list pydict :=
  [[("newIdVeh", PStr "A")]; [("newIdVeh", PStr " ")];
   [("newIdVeh", PStr "A")]; [("newIdVeh", PStr "B")]].

Definition four_records_chargers : list pyval :=
  match build_chargeurs test_env four_records DEFAULT_TEMPLATE (Some 50) None
  with
  | Ok chs => chs
  | Raise _ _ => []
  end.

(** On four records with the vehicles A, blank, A and B the chargers
    have distinct identifiers, and the first one carries the efficiency
    curve of the template's first charger. *)
Lemma build_chargeurs_spec_witness :
  List.NoDup (List.map charger_id four_records_chargers)
  /\ (let* ch := getitem0 (PList four_records_chargers) in
      getitem ch "rendement")
     = Ok (rendement_points (94 # 100)).
Proof.
  destruct (build_chargeurs_spec test_env four_records DEFAULT_TEMPLATE
              (Some 50) None four_records_chargers)
    as (ct & pt & pairs & Hct & _ & Hbuilt & _ & _ & _ & _ & _ & Hnd).
  - vm_compute. reflexivity.
  - split; [exact Hnd |].
    vm_compute in Hct. injection Hct as <-.
    assert (Hlen : length four_records_chargers = 2%nat)
      by (vm_compute; reflexivity).
    revert Hlen. destruct Hbuilt as [| p ch ps chs' Hb _]; intros Hlen.
    + discriminate Hlen.
    + cbn [getitem0 rbind].
      destruct Hb as (_ & _ & _ & _ & _ & _ & Hframe & _).
      rewrite Hframe; [reflexivity |].
      simpl. intuition congruence.
Defined.

Lemma build_loop_total (E : env) (c p : pydict) (cp pp : option Z)
    (records : list pydict) :
  forall (idx : nat) (seen : list string),
    exists chs,
      build_loop E (PDict c) (PDict p) cp pp idx seen records = Ok chs
      /\ (length chs <= length records)%nat.
Proof.
  induction records as [| rec records IH]; intros idx seen; simpl.
  - exists []. split; [reflexivity | simpl; lia].
  - destruct (String.eqb (veh_of E rec) "" || existsb _ seen).
    + destruct (IH (S idx) seen) as (chs & -> & Hlen).
      exists chs. split; [reflexivity | lia].
    + destruct (IH (S idx) (veh_of E rec :: seen)) as (chs & -> & Hlen).
      eexists. split; [reflexivity | simpl; lia].
Qed.

(** X21. When [build_chargeurs] raises and when it cannot.  With a
    template that has a first charger whose first plug is a mapping,
    the function returns, with at most one charger per record.  With a
    template whose [sources] list is empty, as in every document that
    [map_record] builds without an infrastructure description, it raises
    [IndexError], whatever the records are. *)
Theorem build_chargeurs_total (E : env) (records : list pydict)
    (template : pyval) (chargeur_pmax prise_pmax : option Z) :
  (forall ch_template p,
     (let* src := first_of template "sources" in
      let* trans := first_of src "transformateurs" in
      first_of trans "chargeurs") = Ok ch_template ->
     first_of ch_template "prises" = Ok (PDict p) ->
     exists chs,
       build_chargeurs E records template chargeur_pmax prise_pmax = Ok chs
       /\ (length chs <= length records)%nat)
  /\ (getitem template "sources" = Ok (PList []) ->
      exists msg,
        build_chargeurs E records template chargeur_pmax prise_pmax
        = Raise IndexError msg).
Proof.
  split.
  - intros ct p Hct Hp. unfold build_chargeurs.
    bind_as Hct src Hsrc. bind_as Hct trans Htrans.
    rewrite Hsrc. cbn [rbind]. rewrite Htrans. cbn [rbind].
    rewrite Hct. cbn [rbind]. rewrite Hp. cbn [rbind].
    assert (Hd : exists c, ct = PDict c).
    { unfold first_of in Hp. bind_as Hp l Hl.
      apply py_get_ok in Hl as (c & -> & _). eexists. reflexivity. }
    destruct Hd as [c ->]. apply build_loop_total.
  - intros Hsrc. apply getitem_ok_dict in Hsrc as (d & -> & Hget).
    unfold build_chargeurs, first_of. simpl. unfold Dict.get_default.
    rewrite Hget. simpl. eexists. reflexivity.
Qed.

Lemma build_chargeurs_total_witness :
  exists chs,
    build_chargeurs test_env four_records DEFAULT_TEMPLATE (Some 50) None
    = Ok chs
    /\ (length chs <= 4)%nat.
Proof.
  destruct (build_chargeurs_total test_env four_records DEFAULT_TEMPLATE
              (Some 50) None) as [Htotal _].
  eapply Htotal; vm_compute; reflexivity.
Defined.
